(** * The uniter's mode state machine (worker/uniter/modes.go)

    A shallow embedding of the Mode functions of the juju uniter and the
    properties of its resumption, hook-error, leadership and termination
    logic.

    The Mode functions are written in a small state monad over the uniter
    and its collaborators.  Everything the modes call but do not define
    (the operation executor, the event filter, the leadership tracker, the
    unit, the relations, the deployer) is an interface here, as it is in
    the Go code; the theorems hold for every implementation of it. *)

From stdpp Require Import base strings list option gmap.

Local Open Scope string_scope.

(** ** gopkg.in/juju/charm.v4 *)

Module charm.
(** [*charm.URL] is handled through a pointer everywhere in modes.go; a
    [None] is the nil pointer. *)
Definition URL := string.
End charm.

Module hooks.
(** [hooks.Kind] is a string type; modes.go converts a string literal
    to it ([hooks.Kind("leader-settings-changed")]). *)
Definition Kind := string.
Definition Install : Kind := "install".
Definition Start : Kind := "start".
Definition ConfigChanged : Kind := "config-changed".
Definition Stop : Kind := "stop".
Definition CollectMetrics : Kind := "collect-metrics".
Definition MeterStatusChanged : Kind := "meter-status-changed".
Definition RelationJoined : Kind := "relation-joined".
Definition RelationChanged : Kind := "relation-changed".
Definition RelationDeparted : Kind := "relation-departed".
Definition RelationBroken : Kind := "relation-broken".

Definition IsRelation (k : Kind) : bool :=
  bool_decide (k ∈ [RelationJoined; RelationChanged; RelationDeparted; RelationBroken]).
End hooks.

Module hook.
(** [hook.Info], restricted to the fields modes.go reads. *)
Record Info := mkInfo {
    Kind : hooks.Kind;
    RelationId : Z;
    RemoteUnit : string;
  }.
#[global] Instance Info_eq_dec : EqDecision Info.
Proof. solve_decision. Defined.
End hook.

(** ** worker/uniter/operation: the persisted operation state *)

Module operation.
(** [operation.Kind] and [operation.Step] are open (string) types in Go:
    ModeContinue has a [default:] branch for a kind it does not know.
    [OtherKind] and [OtherStep] stand for every value that is none of
    the declared constants. *)
Inductive Kind :=
  | Install | RunHook | RunAction | Upgrade | Continue
  | OtherKind (name : string).

Inductive Step :=
  | Queued | Pending | Done
  | OtherStep (name : string).

#[global] Instance Kind_eq_dec : EqDecision Kind.
Proof. solve_decision. Defined.
#[global] Instance Step_eq_dec : EqDecision Step.
Proof. solve_decision. Defined.

(** [Hook], [ActionId] and [CharmURL] are pointers in Go. *)
Record State := mkState {
    Kind_ : Kind;
    Step_ : Step;
    Hook : option hook.Info;
    ActionId : option string;
    CharmURL : option charm.URL;
    Leader : bool;
    Started : bool;
    CollectMetricsTime : Z;
  }.
#[global] Instance State_eq_dec : EqDecision State.
Proof. solve_decision. Defined.
End operation.

(** ** apiserver/params *)

Module params.
Inductive Status :=
  | StatusInstalling | StatusStopping | StatusActive | StatusError.

(** [params.ResolvedMode] is a string type; [ResolvedOther] is any value
    that is neither of the two constants ModeHookError switches on. *)
Inductive ResolvedMode :=
  | ResolvedRetryHooks | ResolvedNoHooks
  | ResolvedOther (name : string).

#[global] Instance Status_eq_dec : EqDecision Status.
Proof. solve_decision. Defined.
#[global] Instance ResolvedMode_eq_dec : EqDecision ResolvedMode.
Proof. solve_decision. Defined.
End params.

(** ** Errors (github.com/juju/errors, tomb, worker, operation) *)

Inductive FmtArg :=
| ArgKind (k : operation.Kind)
| ArgState (st : operation.State)
| ArgResolved (rm : params.ResolvedMode).

Inductive error :=
| tomb_ErrDying
| worker_ErrTerminateAgent
| operation_ErrCannotAcceptLeadership
| operation_ErrHookFailed
| errExternal (msg : string)              (* any other error of a collaborator *)
| errFormatted (format : string) (args : list FmtArg)
| errTraced (e : error)
| errAnnotated (e : error) (context : string).

#[global] Instance FmtArg_eq_dec : EqDecision FmtArg.
Proof. solve_decision. Defined.
#[global] Instance error_eq_dec : EqDecision error.
Proof. solve_decision. Defined.

Module errors.
Definition Errorf (format : string) (args : list FmtArg) : error :=
    errFormatted format args.

Definition Trace (e : error) : error := errTraced e.

(** [errors.Annotatef(nil, ...)] is nil. *)
Definition Annotatef (e : option error) (context : string) : option error :=
    match e with
    | None => None
    | Some e' => Some (errAnnotated e' context)
    end.

(** [errors.Cause] strips traces and annotations; [Cause(nil)] is nil. *)
Fixpoint cause (e : error) : error :=
    match e with
    | errTraced e' => cause e'
    | errAnnotated e' _ => cause e'
    | _ => e
    end.

Definition Cause (e : option error) : option error := cause <$> e.
End errors.


(** ** Operation creators (worker/uniter/op_plumbing.go)

    A [creator] is a closure that builds one operation from the operation
    factory.  The creators are kept symbolic: one constructor per creator
    function modes.go calls, with the arguments it captures.  [nilCreator]
    is the zero value of [var creator creator]. *)

Inductive creator :=
| nilCreator
| newInstallOp (curl : option charm.URL)
| newUpgradeOp (curl : option charm.URL)
| newRevertUpgradeOp (curl : option charm.URL)
| newResolvedUpgradeOp (curl : option charm.URL)
| newRunHookOp (hookInfo : hook.Info)
| newSimpleRunHookOp (kind : hooks.Kind)
| newRetryHookOp (hookInfo : hook.Info)
| newSkipHookOp (hookInfo : hook.Info)
| newActionOp (actionId : string)
| newAcceptLeadershipOp
| newResignLeadershipOp
| newUpdateRelationsOp (ids : list Z)
| newUpdateStorageOp (tags : list string).

#[global] Instance creator_eq_dec : EqDecision creator.
Proof. solve_decision. Defined.

(** ** Channels and the values received from them

    One [Chan] per channel expression that occurs in a [select] of
    modes.go, and one [Event] per value that can be received from it. *)

Inductive Chan :=
| tomb_Dying              (* u.tomb.Dying() *)
| f_UnitDying             (* u.f.UnitDying() *)
| f_UpgradeEvents         (* u.f.UpgradeEvents() *)
| f_RelationsEvents       (* u.f.RelationsEvents() *)
| f_ActionEvents          (* u.f.ActionEvents() *)
| f_StorageEvents         (* u.f.StorageEvents() *)
| f_ConfigEvents          (* u.f.ConfigEvents() *)
| f_MeterStatusEvents     (* u.f.MeterStatusEvents() *)
| f_LeaderSettingsEvents  (* u.f.LeaderSettingsEvents() *)
| f_ResolvedEvents        (* u.f.ResolvedEvents() *)
| collectMetricsSignal    (* u.collectMetricsAt(...) *)
| relations_Hooks         (* u.relations.Hooks() *)
| storage_Hooks           (* u.storage.Hooks() *)
| leaderElectedChan       (* leaderElected: u.leadershipTracker.WaitLeader().Ready() *)
| leaderDeposedChan       (* leaderDeposed: u.leadershipTracker.WaitMinion().Ready() *)
| w_Changes.              (* w.Changes() of the unit watcher *)

#[global] Instance Chan_eq_dec : EqDecision Chan.
Proof. solve_decision. Defined.

Inductive Event :=
| TombDying
| UnitDying
| UpgradeEvent (curl : option charm.URL)
| RelationsEvent (ids : list Z)
| ActionEvent (actionId : string)
| StorageEvent (tags : list string)
| ConfigEvent
| MeterStatusEvent
| LeaderSettingsEvent
| ResolvedEvent (rm : params.ResolvedMode)
| CollectMetricsSignal
| RelationHook (hookInfo : hook.Info)
| StorageHook (hookInfo : hook.Info)
| LeaderElected
| LeaderDeposed
| UnitChange (ok : bool).

#[global] Instance Event_eq_dec : EqDecision Event.
Proof. solve_decision. Defined.

Definition chan_of (ev : Event) : Chan :=
  match ev with
  | TombDying => tomb_Dying
  | UnitDying => f_UnitDying
  | UpgradeEvent _ => f_UpgradeEvents
  | RelationsEvent _ => f_RelationsEvents
  | ActionEvent _ => f_ActionEvents
  | StorageEvent _ => f_StorageEvents
  | ConfigEvent => f_ConfigEvents
  | MeterStatusEvent => f_MeterStatusEvents
  | LeaderSettingsEvent => f_LeaderSettingsEvents
  | ResolvedEvent _ => f_ResolvedEvents
  | CollectMetricsSignal => collectMetricsSignal
  | RelationHook _ => relations_Hooks
  | StorageHook _ => storage_Hooks
  | LeaderElected => leaderElectedChan
  | LeaderDeposed => leaderDeposedChan
  | UnitChange _ => w_Changes
  end.

(** ** Status data ([map[string]interface{}]) *)

Inductive StatusValue :=
| VInt (n : Z)
| VString (s : string).

#[global] Instance StatusValue_eq_dec : EqDecision StatusValue.
Proof. solve_decision. Defined.

Abbreviation StatusData := (gmap string StatusValue).

(** ** What a run of a mode does to the outside: the calls it makes that
    the properties below speak about, in order. *)

Inductive Call :=
| CallRunOperation (c : creator)
| CallSetAgentStatus (status : params.Status) (info : string) (data : StatusData)
| CallWantLeaderSettingsEvents (sendEvents : bool)
| CallReceive (ev : Event).

#[global] Instance Call_eq_dec : EqDecision Call.
Proof. solve_decision. Defined.

(** The creators handed to [u.runOperation], oldest first. *)
Fixpoint operations (t : list Call) : list creator :=
  match t with
  | [] => []
  | CallRunOperation c :: t' => c :: operations t'
  | _ :: t' => operations t'
  end.

(** The events consumed by the selects, oldest first. *)
Fixpoint received (t : list Call) : list Event :=
  match t with
  | [] => []
  | CallReceive ev :: t' => ev :: received t'
  | _ :: t' => received t'
  end.

(** ** The collaborators of the uniter

    The objects a [*Uniter] holds and modes.go calls into, as one interface
    over the state [E] of everything outside modes.go.  A call takes the
    outside state and gives its results with the outside state after it.

    A [select] is served by three of them: [ext_ready] lists the
    communications that can proceed when the uniter's goroutine reaches a
    select, [ext_choice] is the run-time's pick among those the select
    waits for (Go chooses uniformly among the cases that can proceed), and
    [ext_receive] is the outside after the receive. *)

Class Collaborators (E : Type) := {
  (* u.operationState(), u.runOperation(creator) and the uniter's flags *)
  ext_operationState : E → operation.State;
  ext_runOperation : creator → E → option error * E;
  ext_ranConfigChanged : E → bool;
  ext_ranLeaderSettingsChanged : E → bool;
  ext_initializeMetricsCollector : E → option error * E;
  ext_collectMetricsAt : Z → E → E;
  (* u.leadershipTracker *)
  ext_ClaimLeader_Wait : E → bool * E;
  ext_WaitMinion_Ready : E → E;
  ext_WaitLeader_Ready : E → E;
  (* u.unit and its watcher *)
  ext_SetAgentStatus : params.Status → string → StatusData → E → option error * E;
  ext_Watch : E → option error * E;
  ext_watcher_Stop : E → E;
  ext_watcher_EnsureErr : E → error;
  ext_Refresh : E → option error * E;
  ext_HasSubordinates : E → (bool * option error) * E;
  ext_EnsureDead : E → option error * E;
  ext_DestroyAllSubordinates : E → option error * E;
  (* u.deployer *)
  ext_Fix : E → option error * E;
  (* u.f, the event filter *)
  ext_WantResolvedEvent : E → E;
  ext_WantUpgradeEvent : bool → E → E;
  (* u.relations *)
  ext_StartHooks : E → E;
  ext_StopHooks : E → option error * E;
  ext_SetDying : E → option error * E;
  ext_GetInfo_len : E → nat;
  ext_relations_Name : Z → E → string * option error;
  (* the channels *)
  ext_ready : E → list Event;
  ext_choice : E → nat;
  ext_receive : Event → E → E;
}.

(** The uniter as modes.go sees it.

    [leaderElection] is [featureflag.Enabled(feature.LeaderElection)]: the
    flags are read from the process environment once, so no call changes
    it.

    Modelled from the spec: the filter's leader-settings subscription
    (worker/uniter/filter is not among the sources).  The spec's event
    source contract makes a subscription toggle take effect before the
    next wait: [wantLeaderSettings] holds what the last
    [WantLeaderSettingsEvents] call asked for, and a leader-settings event
    can be received only while it is set. *)

Record Uniter (E : Type) := mkUniter {
  leaderElection : bool;
  wantLeaderSettings : bool;
  outside : E;
  calls : list Call;
}.
Arguments mkUniter {E}.
Arguments leaderElection {E}.
Arguments wantLeaderSettings {E}.
Arguments outside {E}.
Arguments calls {E}.

(** ** The monad of a running mode

    A Go function body either returns, panics (a nil dereference), or is
    parked for ever in a [select] none of whose cases can proceed.  The
    [for] loops of modes.go are unrolled up to a bound. *)

Inductive Result (A : Type) :=
| Returned (a : A)
| Panicked
| Blocked
| OutOfFuel.
Arguments Returned {A}.
Arguments Panicked {A}.
Arguments Blocked {A}.
Arguments OutOfFuel {A}.

Definition M (E A : Type) : Type := Uniter E → Result A * Uniter E.

Definition ret {E A} (a : A) : M E A := λ u, (Returned a, u).

Definition bind {E A B} (m : M E A) (k : A → M E B) : M E B :=
  λ u, match m u with
       | (Returned a, u') => k a u'
       | (Panicked, u') => (Panicked, u')
       | (Blocked, u') => (Blocked, u')
       | (OutOfFuel, u') => (OutOfFuel, u')
       end.

Definition panic {E A} : M E A := λ u, (Panicked, u).
Definition outOfFuel {E A} : M E A := λ u, (OutOfFuel, u).

Notation "x <- m ;; k" := (bind m (λ x, k))
  (at level 100, m at next level, right associativity).
Notation "m ;; k" := (bind m (λ _, k))
  (at level 100, right associativity).

(** Dereferencing a pointer: a nil pointer panics. *)
Definition deref {E A} (p : option A) : M E A :=
  match p with
  | Some a => ret a
  | None => panic
  end.

(** [for { body }] over the loop's local variables [S]: the body either
    goes round again with new locals or returns from the function. *)
Fixpoint forLoop {E S R} (body : S → M E (S + R)) (fuel : nat) (s : S) : M E R :=
  match fuel with
  | O => outOfFuel
  | S fuel' =>
      r <- body s ;;
      match r with
      | inl s' => forLoop body fuel' s'
      | inr res => ret res
      end
  end.

(** ** Modes

    A [Mode] is a Go function value.  The named functions and the closures
    [ModeInstalling], [ModeUpgrading] and [ModeConflicted] build are the
    only Mode values of the program, so a Mode is identified by the
    function and the charm URL its closure captured. *)

Inductive Mode :=
| mContinue
| mInstalling (curl : option charm.URL)
| mUpgrading (curl : option charm.URL)
| mTerminating
| mAbide
| mHookError
| mConflicted (curl : option charm.URL).

#[global] Instance Mode_eq_dec : EqDecision Mode.
Proof. solve_decision. Defined.

(** The two results [(next Mode, err error)] of a Mode function. *)
Definition ModeResult : Type := option Mode * option error.

(** [fmt.Sprintf("%s", curl)] for a [*charm.URL]. *)
Definition Sprintf_s (curl : option charm.URL) : string :=
  match curl with
  | Some s => s
  | None => "<nil>"
  end.

(** [fmt.Sprintf("%q", s)] is [strconv.Quote(s)]: the string between
    double quotes, with a backslash before every double quote and
    backslash in it, the printable ASCII characters as they are, the
    escapes \a \b \f \n \r \t \v for these control characters, and \x
    with two lower-case hexadecimal digits for the other ones.

    Every byte below 0x7f is rendered here as Go renders it.  From 0x7f
    on, what Go writes depends on its version (for DEL) and, after UTF-8
    decoding, on the Unicode tables that say which characters are
    printable; these are not modelled, and such a byte is rendered the
    way Go renders a byte that is not valid UTF-8, with \x.  [quotable]
    delimits the strings on which [Sprintf_q] is Go's rendering: what is
    stated below about a status message is stated for them. *)
Definition lowerhex (n : N) : Ascii.ascii :=
  match String.get (N.to_nat n) "0123456789abcdef" with
  | Some c => c
  | None => Ascii.ascii_of_nat 48
  end.

Definition quoteByte (c : Ascii.ascii) : string :=
  let n := Ascii.N_of_ascii c in
  let backslash := String (Ascii.ascii_of_nat 92) EmptyString in
  if ((n =? 34) || (n =? 92))%N then backslash ++ String c EmptyString
  else if ((32 <=? n) && (n <? 127))%N then String c EmptyString
  else match n with
       | 7%N => backslash ++ "a"
       | 8%N => backslash ++ "b"
       | 12%N => backslash ++ "f"
       | 10%N => backslash ++ "n"
       | 13%N => backslash ++ "r"
       | 9%N => backslash ++ "t"
       | 11%N => backslash ++ "v"
       | _ => backslash ++ "x"
              ++ String (lowerhex (n / 16)) (String (lowerhex (n mod 16)) EmptyString)
       end.

Fixpoint quoteBytes (s : string) : string :=
  match s with
  | EmptyString => EmptyString
  | String c s' => quoteByte c ++ quoteBytes s'
  end.

Definition Sprintf_q (s : string) : string :=
  let q := String (Ascii.ascii_of_nat 34) EmptyString in
  q ++ quoteBytes s ++ q.

Fixpoint quotable (s : string) : bool :=
  match s with
  | EmptyString => true
  | String c s' => (Ascii.N_of_ascii c <? 127)%N && quotable s'
  end.

Section Modes.
Context {E : Type} `{Collaborators E}.

Definition setOutside (e : E) (u : Uniter E) : Uniter E :=
  mkUniter (leaderElection u) (wantLeaderSettings u) e (calls u).

Definition logCall (c : Call) (u : Uniter E) : Uniter E :=
  mkUniter (leaderElection u) (wantLeaderSettings u) (outside u) (calls u ++ [c]).

(** A call into a collaborator. *)
Definition extCall {A} (f : E → A * E) : M E A :=
  λ u, let '(a, e') := f (outside u) in (Returned a, setOutside e' u).

Definition extDo (f : E → E) : M E unit :=
  λ u, (Returned tt, setOutside (f (outside u)) u).

Definition extGet {A} (f : E → A) : M E A :=
  λ u, (Returned (f (outside u)), u).

Definition record (c : Call) : M E unit :=
  λ u, (Returned tt, logCall c u).

Definition featureflag_Enabled_LeaderElection : M E bool :=
  λ u, (Returned (leaderElection u), u).

Definition u_operationState : M E operation.State := extGet ext_operationState.
Definition u_ranConfigChanged : M E bool := extGet ext_ranConfigChanged.
Definition u_ranLeaderSettingsChanged : M E bool := extGet ext_ranLeaderSettingsChanged.

Definition u_runOperation (c : creator) : M E (option error) :=
  record (CallRunOperation c) ;; extCall (ext_runOperation c).

Definition u_initializeMetricsCollector : M E (option error) :=
  extCall ext_initializeMetricsCollector.
Definition u_collectMetricsAt (lastCollectMetrics : Z) : M E unit :=
  extDo (ext_collectMetricsAt lastCollectMetrics).

Definition u_leadershipTracker_ClaimLeader_Wait : M E bool := extCall ext_ClaimLeader_Wait.
Definition u_leadershipTracker_WaitMinion_Ready : M E unit := extDo ext_WaitMinion_Ready.
Definition u_leadershipTracker_WaitLeader_Ready : M E unit := extDo ext_WaitLeader_Ready.

Definition u_unit_SetAgentStatus (status : params.Status) (info : string)
    (data : StatusData) : M E (option error) :=
  record (CallSetAgentStatus status info data) ;;
  extCall (ext_SetAgentStatus status info data).
Definition u_unit_Watch : M E (option error) := extCall ext_Watch.
Definition watcher_Stop : M E unit := extDo ext_watcher_Stop.
Definition watcher_EnsureErr : M E error := extGet ext_watcher_EnsureErr.
Definition u_unit_Refresh : M E (option error) := extCall ext_Refresh.
Definition u_unit_HasSubordinates : M E (bool * option error) := extCall ext_HasSubordinates.
Definition u_unit_EnsureDead : M E (option error) := extCall ext_EnsureDead.
Definition u_unit_DestroyAllSubordinates : M E (option error) :=
  extCall ext_DestroyAllSubordinates.

Definition u_deployer_Fix : M E (option error) := extCall ext_Fix.

Definition u_f_WantResolvedEvent : M E unit := extDo ext_WantResolvedEvent.
Definition u_f_WantUpgradeEvent (mustForce : bool) : M E unit :=
  extDo (ext_WantUpgradeEvent mustForce).
Definition u_f_WantLeaderSettingsEvents (sendEvents : bool) : M E unit :=
  λ u, (Returned tt,
        logCall (CallWantLeaderSettingsEvents sendEvents)
          (mkUniter (leaderElection u) sendEvents (outside u) (calls u))).

Definition u_relations_StartHooks : M E unit := extDo ext_StartHooks.
Definition u_relations_StopHooks : M E (option error) := extCall ext_StopHooks.
Definition u_relations_SetDying : M E (option error) := extCall ext_SetDying.
Definition u_relations_GetInfo_len : M E nat := extGet ext_GetInfo_len.
Definition u_relations_Name (id : Z) : M E (string * option error) :=
  extGet (ext_relations_Name id).

(** *** select

    A channel can deliver when the filter offers on it: every channel but
    the leader-settings one, which is offered only while subscribed. *)
Definition offered (u : Uniter E) (ch : Chan) : bool :=
  match ch with
  | f_LeaderSettingsEvents => wantLeaderSettings u
  | _ => true
  end.

(** The communications of [cases] that can proceed now. *)
Definition enabled (cases : list Chan) (u : Uniter E) : list Event :=
  filter (λ ev, chan_of ev ∈ cases ∧ offered u (chan_of ev) = true)
         (ext_ready (outside u)).

Definition chosen (cases : list Chan) (u : Uniter E) : option Event :=
  let en := enabled cases u in
  en !! (ext_choice (outside u) `mod` length en)%nat.

(** [select { case <-c1: ... case <-cn: ... }]: blocks while no case can
    proceed, otherwise receives from one the run-time picks. *)
Definition select (cases : list Chan) : M E Event :=
  λ u, match chosen cases u with
       | None => (Blocked, u)
       | Some ev => (Returned ev, logCall (CallReceive ev) (setOutside (ext_receive ev (outside u)) u))
       end.

(** The same with a [default:] case: never blocks. *)
Definition selectDefault (cases : list Chan) : M E (option Event) :=
  λ u, match chosen cases u with
       | None => (Returned None, u)
       | Some ev => (Returned (Some ev), logCall (CallReceive ev) (setOutside (ext_receive ev (outside u)) u))
       end.

(** A received event for which the select has no case cannot happen
    ([select] only delivers from [cases]); the match branches for them
    are this. *)
Definition noSuchCase {A} : M E A := λ u, (Blocked, u).

(** *** modeContext, continueAfter *)

(** [defer modeContext(name, &err)()]: on the way out the error result is
    annotated with the mode's name (logging is not modelled). *)
Definition modeContext (name : string) (body : M E ModeResult) : M E ModeResult :=
  r <- body ;;
  ret (r.1, errors.Annotatef r.2 name).

Definition continueAfter (c : creator) : M E ModeResult :=
  err <- u_runOperation c ;;
  match err with
  | Some e => ret (None, Some (errors.Trace e))
  | None => ret (Some mContinue, None)
  end.

(** *** ModeInstalling, ModeUpgrading *)

Definition ModeInstalling (curl : option charm.URL) : ModeResult :=
  (Some (mInstalling curl), None).

Definition ModeInstalling_func (curl : option charm.URL) : M E ModeResult :=
  modeContext ("ModeInstalling " ++ Sprintf_s curl) (
    err <- u_unit_SetAgentStatus params.StatusInstalling "" ∅ ;;
    match err with
    | Some e => ret (None, Some (errors.Trace e))
    | None => continueAfter (newInstallOp curl)
    end).

Definition ModeUpgrading (curl : option charm.URL) : Mode := mUpgrading curl.

Definition ModeUpgrading_func (curl : option charm.URL) : M E ModeResult :=
  modeContext ("ModeUpgrading " ++ Sprintf_s curl) (
    continueAfter (newUpgradeOp curl)).

(** *** ModeContinue *)

Definition ModeContinue : M E ModeResult :=
  modeContext "ModeContinue" (
    opState <- u_operationState ;;
    (* Resume interrupted deployment operations. *)
    if decide (operation.Kind_ opState = operation.Install) then
      ret (ModeInstalling (operation.CharmURL opState))
    else if decide (operation.Kind_ opState = operation.Upgrade) then
      ret (Some (ModeUpgrading (operation.CharmURL opState)), None)
    else
    err <- u_initializeMetricsCollector ;;
    match err with
    | Some e => ret (None, Some (errors.Trace e))
    | None =>
    flag <- featureflag_Enabled_LeaderElection ;;
    (* [Some r]: the leadership block returned [r] *)
    returned <-
      (if flag then
         isLeader <- u_leadershipTracker_ClaimLeader_Wait ;;
         if decide (isLeader = operation.Leader opState) then ret None
         else
           let creator := if isLeader then newAcceptLeadershipOp
                          else newResignLeadershipOp in
           err <- u_runOperation creator ;;
           match err with
           | None => ret (Some (Some mContinue, None))
           | Some e =>
               if decide (errors.cause e ≠ operation_ErrCannotAcceptLeadership)
               then ret (Some (None, Some (errors.Trace e)))
               else ret None
           end
       else ret None) ;;
    match returned with
    | Some r => ret r
    | None =>
    (* [inl creator]: the switch fell through to [continueAfter] *)
    sw <-
      match operation.Kind_ opState with
      | operation.RunAction =>
          hookInfo <- deref (operation.Hook opState) ;;
          ret (inl (newSkipHookOp hookInfo))
      | operation.RunHook =>
          match operation.Step_ opState with
          | operation.Pending =>
              _ <- deref (operation.Hook opState) ;;
              ret (inr (Some mHookError, None))
          | operation.Queued =>
              hookInfo <- deref (operation.Hook opState) ;;
              ret (inl (newRunHookOp hookInfo))
          | operation.Done =>
              hookInfo <- deref (operation.Hook opState) ;;
              ret (inl (newSkipHookOp hookInfo))
          | _ => ret (inl nilCreator)
          end
      | operation.Continue =>
          hookInfo <- deref (operation.Hook opState) ;;
          if decide (hook.Kind hookInfo = hooks.Stop)
          then ret (inr (Some mTerminating, None))
          else ret (inr (Some mAbide, None))
      | k =>
          ret (inr (None, Some (errors.Errorf "unknown operation kind %v" [ArgKind k])))
      end ;;
    match sw with
    | inr r => ret r
    | inl creator => continueAfter creator
    end
    end
    end).

(** *** ModeTerminating *)

Definition ModeTerminating_cases : list Chan :=
  [tomb_Dying; f_ActionEvents; w_Changes].

(** One pass of the [for { select ... }] of ModeTerminating. *)
Definition ModeTerminating_body (_ : unit) : M E (unit + ModeResult) :=
  ev <- select ModeTerminating_cases ;;
  match ev with
  | TombDying => ret (inr (None, Some tomb_ErrDying))
  | ActionEvent actionId =>
      err <- u_runOperation (newActionOp actionId) ;;
      match err with
      | Some e => ret (inr (None, Some (errors.Trace e)))
      | None => ret (inl tt)
      end
  | UnitChange ok =>
      if negb ok then
        e <- watcher_EnsureErr ;; ret (inr (None, Some e))
      else
      err <- u_unit_Refresh ;;
      match err with
      | Some e => ret (inr (None, Some (errors.Trace e)))
      | None =>
      subs <- u_unit_HasSubordinates ;;
      let '(hasSubs, err) := subs in
      match err with
      | Some e => ret (inr (None, Some (errors.Trace e)))
      | None =>
      if (hasSubs : bool) then ret (inl tt)
      else
      err <- u_unit_EnsureDead ;;
      match err with
      | Some e => ret (inr (None, Some (errors.Trace e)))
      | None => ret (inr (None, Some worker_ErrTerminateAgent))
      end
      end
      end
  | _ => noSuchCase
  end.

Definition ModeTerminating (fuel : nat) : M E ModeResult :=
  modeContext "ModeTerminating" (
    err <- u_unit_SetAgentStatus params.StatusStopping "" ∅ ;;
    match err with
    | Some e => ret (None, Some (errors.Trace e))
    | None =>
    err <- u_unit_Watch ;;
    match err with
    | Some e => ret (None, Some (errors.Trace e))
    | None =>
    r <- forLoop ModeTerminating_body fuel tt ;;
    (* defer watcher.Stop(w, &u.tomb) *)
    watcher_Stop ;;
    ret r
    end
    end).

(** *** modeAbideDyingLoop *)

Definition modeAbideDyingLoop_cases : list Chan :=
  [tomb_Dying; f_ActionEvents; f_ConfigEvents; f_LeaderSettingsEvents; relations_Hooks].

(** One pass of the [for] loop of modeAbideDyingLoop. *)
Definition modeAbideDyingLoop_body (_ : unit) : M E (unit + ModeResult) :=
  n <- u_relations_GetInfo_len ;;
  if decide (n = 0%nat) then
    r <- continueAfter (newSimpleRunHookOp hooks.Stop) ;; ret (inr r)
  else
  ev <- select modeAbideDyingLoop_cases ;;
  sel <-
    match ev with
    | TombDying => ret (inr (None, Some tomb_ErrDying))
    | ActionEvent actionId => ret (inl (newActionOp actionId))
    | ConfigEvent => ret (inl (newSimpleRunHookOp hooks.ConfigChanged))
    | LeaderSettingsEvent => ret (inl (newSimpleRunHookOp "leader-settings-changed"))
    | RelationHook hookInfo => ret (inl (newRunHookOp hookInfo))
    | _ => noSuchCase
    end ;;
  match sel with
  | inr r => ret (inr r)
  | inl creator =>
      err <- u_runOperation creator ;;
      match err with
      | Some e => ret (inr (None, Some (errors.Trace e)))
      | None => ret (inl tt)
      end
  end.

Definition modeAbideDyingLoop (fuel : nat) : M E ModeResult :=
  err <- u_unit_Refresh ;;
  match err with
  | Some e => ret (None, Some (errors.Trace e))
  | None =>
  err <- u_unit_DestroyAllSubordinates ;;
  match err with
  | Some e => ret (None, Some (errors.Trace e))
  | None =>
  err <- u_relations_SetDying ;;
  match err with
  | Some e => ret (None, Some (errors.Trace e))
  | None =>
  flag <- featureflag_Enabled_LeaderElection ;;
  returned <-
    (if flag then
       st <- u_operationState ;;
       if operation.Leader st then
         err <- u_runOperation newResignLeadershipOp ;;
         match err with
         | Some e => ret (Some (None, Some (errors.Trace e)))
         | None => ret None
         end
       else ret None
     else ret None) ;;
  match returned with
  | Some r => ret r
  | None => forLoop modeAbideDyingLoop_body fuel tt
  end
  end
  end
  end.

(** *** modeAbideAliveLoop

    The loop's locals are the two leadership channels; [true] is an armed
    channel, [false] the nil channel, on which a select never receives. *)

Definition modeAbideAliveLoop_cases (leaderElected leaderDeposed : bool) : list Chan :=
  [tomb_Dying; f_UnitDying; f_UpgradeEvents; f_RelationsEvents; f_ActionEvents;
   f_StorageEvents; f_ConfigEvents; f_MeterStatusEvents; collectMetricsSignal;
   relations_Hooks; storage_Hooks]
  ++ (if leaderElected then [leaderElectedChan] else [])
  ++ (if leaderDeposed then [leaderDeposedChan] else [])
  ++ [f_LeaderSettingsEvents].

Definition modeAbideAliveLoop_body (fuel : nat) (locals : bool * bool)
    : M E (bool * bool + ModeResult) :=
  let '(leaderElected, leaderDeposed) := locals in
  flag <- featureflag_Enabled_LeaderElection ;;
  locals <-
    (if flag then
       if negb leaderElected && negb leaderDeposed then
         st <- u_operationState ;;
         if operation.Leader st then
           u_leadershipTracker_WaitMinion_Ready ;; ret (leaderElected, true)
         else
           u_leadershipTracker_WaitLeader_Ready ;; ret (true, leaderDeposed)
       else ret (leaderElected, leaderDeposed)
     else ret (leaderElected, leaderDeposed)) ;;
  let '(leaderElected, leaderDeposed) := locals in
  st <- u_operationState ;;
  u_collectMetricsAt (operation.CollectMetricsTime st) ;;
  ev <- select (modeAbideAliveLoop_cases leaderElected leaderDeposed) ;;
  (* [inl (creator, locals)]: the select chose an operation *)
  sel <-
    match ev with
    | TombDying => ret (inr (None, Some tomb_ErrDying))
    | UnitDying => r <- modeAbideDyingLoop fuel ;; ret (inr r)
    | UpgradeEvent curl => ret (inr (Some (ModeUpgrading curl), None))
    | RelationsEvent ids => ret (inl (newUpdateRelationsOp ids, locals))
    | ActionEvent actionId => ret (inl (newActionOp actionId, locals))
    | StorageEvent tags => ret (inl (newUpdateStorageOp tags, locals))
    | ConfigEvent => ret (inl (newSimpleRunHookOp hooks.ConfigChanged, locals))
    | MeterStatusEvent => ret (inl (newSimpleRunHookOp hooks.MeterStatusChanged, locals))
    | CollectMetricsSignal => ret (inl (newSimpleRunHookOp hooks.CollectMetrics, locals))
    | RelationHook hookInfo => ret (inl (newRunHookOp hookInfo, locals))
    | StorageHook hookInfo => ret (inl (newRunHookOp hookInfo, locals))
    | LeaderElected => ret (inl (newAcceptLeadershipOp, (false, leaderDeposed)))
    | LeaderDeposed => ret (inl (newResignLeadershipOp, (leaderElected, false)))
    | LeaderSettingsEvent =>
        ret (inl (newSimpleRunHookOp "leader-settings-changed", locals))
    | _ => noSuchCase
    end ;;
  match sel with
  | inr r => ret (inr r)
  | inl (creator, locals) =>
      err <- u_runOperation creator ;;
      match err with
      | Some e => ret (inr (None, Some (errors.Trace e)))
      | None => ret (inl locals)
      end
  end.

Definition modeAbideAliveLoop (fuel : nat) : M E ModeResult :=
  forLoop (modeAbideAliveLoop_body fuel) fuel (false, false).

(** *** ModeAbide *)

Definition ModeAbide (fuel : nat) : M E ModeResult :=
  modeContext "ModeAbide" (
    opState <- u_operationState ;;
    if decide (operation.Kind_ opState ≠ operation.Continue) then
      ret (None, Some (errors.Errorf "insane uniter state: %#v" [ArgState opState]))
    else
    err <- u_deployer_Fix ;;
    match err with
    | Some e => ret (None, Some (errors.Trace e))
    | None =>
    flag <- featureflag_Enabled_LeaderElection ;;
    returned <-
      (if flag then
         u_f_WantLeaderSettingsEvents (negb (operation.Leader opState)) ;;
         ran <- u_ranLeaderSettingsChanged ;;
         if negb (operation.Leader opState) && negb ran then
           err <- u_runOperation (newSimpleRunHookOp "leader-settings-changed") ;;
           match err with
           | Some e => ret (Some (None, Some (errors.Trace e)))
           | None => ret None
           end
         else ret None
       else
         u_f_WantLeaderSettingsEvents false ;; ret None) ;;
    match returned with
    | Some r => ret r
    | None =>
    ranConfigChanged <- u_ranConfigChanged ;;
    if negb ranConfigChanged then
      continueAfter (newSimpleRunHookOp hooks.ConfigChanged)
    else if negb (operation.Started opState) then
      continueAfter (newSimpleRunHookOp hooks.Start)
    else
    err <- u_unit_SetAgentStatus params.StatusActive "" ∅ ;;
    match err with
    | Some e => ret (None, Some (errors.Trace e))
    | None =>
    u_f_WantUpgradeEvent false ;;
    u_relations_StartHooks ;;
    r <- (dying <- selectDefault [f_UnitDying] ;;
          match dying with
          | Some _ => modeAbideDyingLoop fuel
          | None => modeAbideAliveLoop fuel
          end) ;;
    (* the deferred func: StopHooks' error is returned unless one is on
       its way out already *)
    e <- u_relations_StopHooks ;;
    match e, r.2 with
    | Some e', None => ret (r.1, Some e')
    | _, _ => ret r
    end
    end
    end
    end).

(** *** ModeHookError *)

Definition ModeHookError_cases (leaderDeposed : bool) : list Chan :=
  [tomb_Dying; f_UpgradeEvents; f_ResolvedEvents]
  ++ (if leaderDeposed then [leaderDeposedChan] else []).

(** One pass of the [for] loop of ModeHookError; the loop's local is the
    [leaderDeposed] channel (armed or nil). *)
Definition ModeHookError_body (hookInfo : hook.Info) (statusMessage : string)
    (statusData : StatusData) (leaderDeposed : bool) : M E (bool + ModeResult) :=
  err <- u_unit_SetAgentStatus params.StatusError statusMessage statusData ;;
  match err with
  | Some e => ret (inr (None, Some (errors.Trace e)))
  | None =>
  ev <- select (ModeHookError_cases leaderDeposed) ;;
  match ev with
  | TombDying => ret (inr (None, Some tomb_ErrDying))
  | UpgradeEvent curl => ret (inr (Some (ModeUpgrading curl), None))
  | ResolvedEvent rm =>
      sw <-
        match rm with
        | params.ResolvedRetryHooks => ret (inl (newRetryHookOp hookInfo))
        | params.ResolvedNoHooks => ret (inl (newSkipHookOp hookInfo))
        | _ => ret (inr (None, Some (errors.Errorf "unknown resolved mode %q" [ArgResolved rm])))
        end ;;
      match sw with
      | inr r => ret (inr r)
      | inl creator =>
          err <- u_runOperation creator ;;
          if decide (errors.Cause err = Some operation_ErrHookFailed) then
            ret (inl leaderDeposed)
          else
            match err with
            | Some e => ret (inr (None, Some (errors.Trace e)))
            | None => ret (inr (Some mContinue, None))
            end
      end
  | LeaderDeposed =>
      err <- u_runOperation newResignLeadershipOp ;;
      match err with
      | Some e => ret (inr (None, Some (errors.Trace e)))
      | None => ret (inl false)
      end
  | _ => noSuchCase
  end
  end.

Definition ModeHookError (fuel : nat) : M E ModeResult :=
  modeContext "ModeHookError" (
    opState <- u_operationState ;;
    if decide (operation.Kind_ opState ≠ operation.RunHook
               ∨ operation.Step_ opState ≠ operation.Pending) then
      st <- u_operationState ;;
      ret (None, Some (errors.Errorf "insane uniter state: %#v" [ArgState st]))
    else
    (* Create error information for status. *)
    hookInfo <- deref (operation.Hook opState) ;;
    let hookName : string := hook.Kind hookInfo in
    let statusData : StatusData := ∅ in
    info <-
      (if hooks.IsRelation (hook.Kind hookInfo) then
         let statusData := <["relation-id" := VInt (hook.RelationId hookInfo)]> statusData in
         let statusData :=
           if decide (hook.RemoteUnit hookInfo ≠ "")
           then <["remote-unit" := VString (hook.RemoteUnit hookInfo)]> statusData
           else statusData in
         named <- u_relations_Name (hook.RelationId hookInfo) ;;
         let '(relationName, err) := named in
         match err with
         | Some e => ret (inr (None, Some (errors.Trace e)))
         | None => ret (inl (statusData, relationName ++ "-" ++ hook.Kind hookInfo))
         end
       else ret (inl (statusData, hookName))) ;;
    match info with
    | inr r => ret r
    | inl (statusData, hookName) =>
    let statusData := <["hook" := VString hookName]> statusData in
    let statusMessage := "hook failed: " ++ Sprintf_q hookName in
    (* Run the select loop. *)
    u_f_WantResolvedEvent ;;
    u_f_WantUpgradeEvent true ;;
    flag <- featureflag_Enabled_LeaderElection ;;
    leaderDeposed <-
      (if flag then
         if operation.Leader opState then
           u_leadershipTracker_WaitMinion_Ready ;; ret true
         else ret false
       else ret false) ;;
    forLoop (ModeHookError_body hookInfo statusMessage statusData) fuel leaderDeposed
    end).

(** *** ModeConflicted *)

Definition ModeConflicted (curl : option charm.URL) : Mode := mConflicted curl.

Definition ModeConflicted_cases : list Chan :=
  [tomb_Dying; f_UpgradeEvents; f_ResolvedEvents].

Definition ModeConflicted_func (curl : option charm.URL) : M E ModeResult :=
  modeContext "ModeConflicted" (
    err <- u_unit_SetAgentStatus params.StatusError "upgrade failed" ∅ ;;
    match err with
    | Some e => ret (None, Some (errors.Trace e))
    | None =>
    u_f_WantResolvedEvent ;;
    u_f_WantUpgradeEvent true ;;
    ev <- select ModeConflicted_cases ;;
    sel <-
      match ev with
      | TombDying => ret (inr (None, Some tomb_ErrDying))
      | UpgradeEvent curl' => ret (inl (newRevertUpgradeOp curl'))
      | ResolvedEvent _ => ret (inl (newResolvedUpgradeOp curl))
      | _ => noSuchCase
      end ;;
    match sel with
    | inr r => ret r
    | inl creator => continueAfter creator
    end
    end).

(** *** Calling a Mode value *)

Definition callMode (fuel : nat) (m : Mode) : M E ModeResult :=
  match m with
  | mContinue => ModeContinue
  | mInstalling curl => ModeInstalling_func curl
  | mUpgrading curl => ModeUpgrading_func curl
  | mTerminating => ModeTerminating fuel
  | mAbide => ModeAbide fuel
  | mHookError => ModeHookError fuel
  | mConflicted curl => ModeConflicted_func curl
  end.

End Modes.

(** ** A scripted outside world

    An implementation of the collaborators that answers from a script, to
    run the modes on concrete inputs.  [opResults] are the errors of the
    successive [runOperation] calls (nil once the script is used up),
    [readySets] the communications that can proceed at the successive
    receives.

    Modelled from the spec: the operation executor's commit (the
    operation package is not among the sources).  A hook operation that
    succeeds leaves [Kind=Continue] with the hook recorded, an accept or
    resign leadership operation that succeeds sets [Leader], a failed
    operation leaves the state as it was. *)

Record Script := mkScript {
  opState0 : operation.State;
  ranConfigChanged0 : bool;
  ranLeaderSettingsChanged0 : bool;
  claimLeader0 : bool;
  metricsErr : option error;
  statusErr : option error;
  opResults : list (option error);
  readySets : list (list Event);
  choice0 : nat;
  relationsLeft : nat;
}.

Definition withState (st : operation.State) (s : Script) : Script :=
  mkScript st (ranConfigChanged0 s) (ranLeaderSettingsChanged0 s) (claimLeader0 s)
    (metricsErr s) (statusErr s) (opResults s) (readySets s) (choice0 s) (relationsLeft s).

Definition afterHook (hi : hook.Info) (st : operation.State) : operation.State :=
  operation.mkState operation.Continue operation.Pending (Some hi) None None
    (operation.Leader st) (operation.Started st) (operation.CollectMetricsTime st).

Definition setLeader (b : bool) (st : operation.State) : operation.State :=
  operation.mkState (operation.Kind_ st) (operation.Step_ st) (operation.Hook st)
    (operation.ActionId st) (operation.CharmURL st) b (operation.Started st)
    (operation.CollectMetricsTime st).

Definition commit (c : creator) (st : operation.State) : operation.State :=
  match c with
  | newRunHookOp hi | newRetryHookOp hi | newSkipHookOp hi => afterHook hi st
  | newSimpleRunHookOp k => afterHook (hook.mkInfo k 0 "") st
  | newAcceptLeadershipOp => setLeader true st
  | newResignLeadershipOp => setLeader false st
  | _ => st
  end.

Definition brokenRelation (c : creator) : bool :=
  match c with
  | newRunHookOp hi => bool_decide (hook.Kind hi = hooks.RelationBroken)
  | _ => false
  end.

Definition script_runOperation (c : creator) (s : Script) : option error * Script :=
  let err := default None (head (opResults s)) in
  let st := match err with None => commit c (opState0 s) | Some _ => opState0 s end in
  let left := match err with
              | None => if brokenRelation c then pred (relationsLeft s) else relationsLeft s
              | Some _ => relationsLeft s
              end in
  (err, mkScript st (ranConfigChanged0 s) (ranLeaderSettingsChanged0 s) (claimLeader0 s)
          (metricsErr s) (statusErr s) (tail (opResults s)) (readySets s) (choice0 s) left).

Definition script_receive (ev : Event) (s : Script) : Script :=
  mkScript (opState0 s) (ranConfigChanged0 s) (ranLeaderSettingsChanged0 s) (claimLeader0 s)
    (metricsErr s) (statusErr s) (opResults s) (tail (readySets s)) (choice0 s)
    (relationsLeft s).

#[global] Instance script_collaborators : Collaborators Script := {|
  ext_operationState := opState0;
  ext_runOperation := script_runOperation;
  ext_ranConfigChanged := ranConfigChanged0;
  ext_ranLeaderSettingsChanged := ranLeaderSettingsChanged0;
  ext_initializeMetricsCollector := λ s, (metricsErr s, s);
  ext_collectMetricsAt := λ _ s, s;
  ext_ClaimLeader_Wait := λ s, (claimLeader0 s, s);
  ext_WaitMinion_Ready := λ s, s;
  ext_WaitLeader_Ready := λ s, s;
  ext_SetAgentStatus := λ _ _ _ s, (statusErr s, s);
  ext_Watch := λ s, (None, s);
  ext_watcher_Stop := λ s, s;
  ext_watcher_EnsureErr := λ _, errExternal "watcher stopped";
  ext_Refresh := λ s, (None, s);
  ext_HasSubordinates := λ s, ((false, None), s);
  ext_EnsureDead := λ s, (None, s);
  ext_DestroyAllSubordinates := λ s, (None, s);
  ext_Fix := λ s, (None, s);
  ext_WantResolvedEvent := λ s, s;
  ext_WantUpgradeEvent := λ _ s, s;
  ext_StartHooks := λ s, s;
  ext_StopHooks := λ s, (None, s);
  ext_SetDying := λ s, (None, s);
  ext_GetInfo_len := relationsLeft;
  ext_relations_Name := λ _ _, ("db", None);
  ext_ready := λ s, default [] (head (readySets s));
  ext_choice := choice0;
  ext_receive := script_receive;
|}.

(** The state [{Kind: k, Step: s, Hook: h, CharmURL: curl, Leader: l}]. *)
Definition stateOf (k : operation.Kind) (s : operation.Step) (h : option hook.Info)
    (curl : option charm.URL) (l : bool) : operation.State :=
  operation.mkState k s h None curl l true 0.

(** A quiet script around a state: the tracker agrees with [Leader],
    nothing fails, nothing is ready. *)
Definition quiet (st : operation.State) : Script :=
  mkScript st true true (operation.Leader st) None None [] [] 0 0.

Definition uniterOf (flag : bool) (s : Script) : Uniter Script :=
  mkUniter flag false s [].

(** Calling a monadic function [n] times in a row, whatever it returns. *)
Fixpoint invokeTimes {E A} (n : nat) (m : M E A) (u : Uniter E)
    : list (Result A) * Uniter E :=
  match n with
  | O => ([], u)
  | S n' => let '(r, u') := m u in
            let '(rs, u'') := invokeTimes n' m u' in
            (r :: rs, u'')
  end.

(** ** Vocabulary of the properties *)

Local Open Scope list_scope.

Section Vocabulary.
Context {E : Type} `{Collaborators E}.

(** The creator ModeContinue's leadership block runs for a claim result. *)
Definition leadershipOp (isLeader : bool) : creator :=
  if isLeader then newAcceptLeadershipOp else newResignLeadershipOp.

Definition isLeadershipOp (c : creator) : bool :=
  match c with
  | newAcceptLeadershipOp | newResignLeadershipOp => true
  | _ => false
  end.

(** [reachesSwitch st u u1]: a call of ModeContinue that read the state
    [st] in the uniter [u] gets to its [switch opState.Kind] in the uniter
    [u1].  That is: the metrics collector was initialised, and the
    leadership block did not return — the flag is off, or the tracker's
    claim equals [st.Leader], or the leadership operation failed with
    ErrCannotAcceptLeadership as its cause. *)
Inductive reachesSwitch (st : operation.State) (u : Uniter E) : Uniter E → Prop :=
| reaches_flag_off e1 :
    ext_initializeMetricsCollector (outside u) = (None, e1) →
    leaderElection u = false →
    reachesSwitch st u (setOutside e1 u)
| reaches_up_to_date e1 e2 :
    ext_initializeMetricsCollector (outside u) = (None, e1) →
    leaderElection u = true →
    ext_ClaimLeader_Wait e1 = (operation.Leader st, e2) →
    reachesSwitch st u (setOutside e2 u)
| reaches_cannot_accept e1 isLeader e2 err e3 :
    ext_initializeMetricsCollector (outside u) = (None, e1) →
    leaderElection u = true →
    ext_ClaimLeader_Wait e1 = (isLeader, e2) →
    isLeader ≠ operation.Leader st →
    ext_runOperation (leadershipOp isLeader) e2 = (Some err, e3) →
    errors.cause err = operation_ErrCannotAcceptLeadership →
    reachesSwitch st u
      (setOutside e3 (logCall (CallRunOperation (leadershipOp isLeader)) u)).

(** The [switch opState.Kind] of ModeContinue with the [continueAfter]
    that follows it (lines 77 to 106), on its own: what a call does once
    it has reached the switch. *)
Definition ModeContinue_switch (opState : operation.State) : M E ModeResult :=
  sw <-
    match operation.Kind_ opState with
    | operation.RunAction =>
        hookInfo <- deref (operation.Hook opState) ;;
        ret (inl (newSkipHookOp hookInfo))
    | operation.RunHook =>
        match operation.Step_ opState with
        | operation.Pending =>
            _ <- deref (operation.Hook opState) ;;
            ret (inr (Some mHookError, None))
        | operation.Queued =>
            hookInfo <- deref (operation.Hook opState) ;;
            ret (inl (newRunHookOp hookInfo))
        | operation.Done =>
            hookInfo <- deref (operation.Hook opState) ;;
            ret (inl (newSkipHookOp hookInfo))
        | _ => ret (inl nilCreator)
        end
    | operation.Continue =>
        hookInfo <- deref (operation.Hook opState) ;;
        if decide (hook.Kind hookInfo = hooks.Stop)
        then ret (inr (Some mTerminating, None))
        else ret (inr (Some mAbide, None))
    | k =>
        ret (inr (None, Some (errors.Errorf "unknown operation kind %v" [ArgKind k])))
    end ;;
  match sw with
  | inr r => ret r
  | inl creator => continueAfter creator
  end.

(** The calls made between the uniter [u] and the later uniter [u']. *)
Definition callsSince (u u' : Uniter E) : list Call :=
  drop (length (calls u)) (calls u').

(** The uniter after [u.runOperation(c)] in [u], and the error it gave. *)
Definition afterOperation (c : creator) (u : Uniter E) : Uniter E :=
  setOutside (ext_runOperation c (outside u)).2 (logCall (CallRunOperation c) u).

Definition operationError (c : creator) (u : Uniter E) : option error :=
  (ext_runOperation c (outside u)).1.

(** What a mode named [name] returns when it ends in [continueAfter] and
    the operation gave [err]. *)
Definition continuedAfter (name : string) (err : option error) : ModeResult :=
  match err with
  | None => (Some mContinue, None)
  | Some e => (None, Some (errAnnotated (errors.Trace e) name))
  end.

End Vocabulary.

(** ** Concrete inputs *)

Definition cs_wordpress_3 : option charm.URL := Some "cs:trusty/wordpress-3".

Definition installing_input : Uniter Script :=
  uniterOf true (quiet (stateOf operation.Install operation.Pending None cs_wordpress_3 false)).

Definition hook_install : hook.Info := hook.mkInfo hooks.Install 0 "".
Definition hook_config_changed : hook.Info := hook.mkInfo hooks.ConfigChanged 0 "".
Definition hook_stop : hook.Info := hook.mkInfo hooks.Stop 0 "".

(** A failed install hook awaits resolution; the unit believes it leads,
    the tracker says it does not; every operation succeeds. *)
Definition pending_deposed_input : Uniter Script :=
  uniterOf true
    (mkScript (stateOf operation.RunHook operation.Pending (Some hook_install) None true)
       true true false None None [] [] 0 0).

(** The same failed hook, in a quiet world where an action request and
    then a change of the unit arrive. *)
Definition pending_terminating_input : Uniter Script :=
  uniterOf false
    (mkScript (stateOf operation.RunHook operation.Pending (Some hook_install) None false)
       true true false None None [] [[ActionEvent "42"]; [UnitChange true]] 0 0).

(** The same failed hook, in a quiet world. *)
Definition pending_quiet_input : Uniter Script :=
  uniterOf true (quiet (stateOf operation.RunHook operation.Pending (Some hook_install) None true)).

(** A queued config-changed hook; the operation succeeds. *)
Definition queued_input : Uniter Script :=
  uniterOf true
    (quiet (stateOf operation.RunHook operation.Queued (Some hook_config_changed) None false)).

(** A state of a kind ModeContinue does not know; the unit believes it
    leads, the tracker says it does not; every operation succeeds. *)
Definition unknown_kind_deposed_input : Uniter Script :=
  uniterOf true
    (mkScript (stateOf (operation.OtherKind "bogus") operation.Pending None None true)
       true true false None None [] [] 0 0).

(** A RunHook state with a step that is none of the three. *)
Definition unknown_step_input : Uniter Script :=
  uniterOf false
    (quiet (stateOf operation.RunHook (operation.OtherStep "") (Some hook_install) None false)).

(** A RunHook state awaiting resolution that records no hook. *)
Definition pending_no_hook_input : Uniter Script :=
  uniterOf false (quiet (stateOf operation.RunHook operation.Pending None None false)).

(** The last hook was config-changed; the flag is off, and the tracker
    would say the unit leads while the persisted state says it does not. *)
Definition flag_off_elected_input : Uniter Script :=
  uniterOf false
    (mkScript (stateOf operation.Continue operation.Pending (Some hook_config_changed) None false)
       true true true None None [] [] 0 0).

(** The same with the flag on, and a metrics collector that cannot be
    initialised. *)
Definition metrics_fail_input : Uniter Script :=
  uniterOf true
    (mkScript (stateOf operation.Continue operation.Pending (Some hook_config_changed) None false)
       true true true (Some (errExternal "no metrics")) None [] [] 0 0).

(** The same with the flag on and every operation succeeding. *)
Definition elected_input : Uniter Script :=
  uniterOf true
    (mkScript (stateOf operation.Continue operation.Pending (Some hook_config_changed) None false)
       true true true None None [] [] 0 0).

Section HookErrorVocabulary.
Context {E : Type} `{Collaborators E}.

(** What a pass of ModeHookError's loop gives after the operation chosen
    for a resolution event ended with [err]: another pass when the cause
    is ErrHookFailed, otherwise the return from the mode. *)
Definition resolvedWith (leaderDeposed : bool) (err : option error) : bool + ModeResult :=
  if decide (errors.Cause err = Some operation_ErrHookFailed) then inl leaderDeposed
  else match err with
       | Some e => inr (None, Some (errors.Trace e))
       | None => inr (Some mContinue, None)
       end.

(** The uniter after a select received [ev] in [u]. *)
Definition afterReceive (ev : Event) (u : Uniter E) : Uniter E :=
  logCall (CallReceive ev) (setOutside (ext_receive ev (outside u)) u).

(** The uniter after [u.unit.SetAgentStatus(status, info, data)] in [u]. *)
Definition afterStatus (status : params.Status) (info : string) (data : StatusData)
    (u : Uniter E) : Uniter E :=
  setOutside (ext_SetAgentStatus status info data (outside u)).2
    (logCall (CallSetAgentStatus status info data) u).

End HookErrorVocabulary.

(** The install hook failed; the user asks for a retry, the retry fails
    again, the user asks to skip the hook. *)
Definition install_failed_input : Uniter Script :=
  uniterOf false
    (mkScript (stateOf operation.RunHook operation.Pending (Some hook_install) None false)
       true true false None None [Some operation_ErrHookFailed; None]
       [[ResolvedEvent params.ResolvedRetryHooks]; [ResolvedEvent params.ResolvedNoHooks]] 0 0).

(** The status message and data ModeHookError builds for a hook that is
    not a relation hook. *)
Definition hookFailedMessage (hookName : string) : string :=
  String.append "hook failed: " (Sprintf_q hookName).

Definition hookFailedData (hookName : string) : StatusData :=
  <["hook" := VString hookName]> ∅.

(** A Kind=Continue state that records no hook, in a quiet world. *)
Definition continue_no_hook_input : Uniter Script :=
  uniterOf false (quiet (stateOf operation.Continue operation.Pending None None false)).

(** The last hook was the stop hook, in a quiet world. *)
Definition stopped_input : Uniter Script :=
  uniterOf true (quiet (stateOf operation.Continue operation.Pending (Some hook_stop) None false)).

(** The operation the dying loop runs for a received event: none for the
    cancellation (and for events its select has no case for). *)
Definition dyingOperation (ev : Event) : option creator :=
  match ev with
  | ActionEvent actionId => Some (newActionOp actionId)
  | ConfigEvent => Some (newSimpleRunHookOp hooks.ConfigChanged)
  | LeaderSettingsEvent => Some (newSimpleRunHookOp "leader-settings-changed")
  | RelationHook hookInfo => Some (newRunHookOp hookInfo)
  | _ => None
  end.

(** What a pass of a loop gives after its operation ended with [err]:
    another pass on success, the traced error otherwise. *)
Definition passAfter {S : Type} (s : S) (err : option error) : S + ModeResult :=
  match err with
  | None => inl s
  | Some e => inr (None, Some (errors.Trace e))
  end.

(** What [continueAfter] returns after its operation ended with [err]. *)
Definition continueAfterResult (err : option error) : ModeResult :=
  match err with
  | None => (Some mContinue, None)
  | Some e => (None, Some (errors.Trace e))
  end.

Definition relation_broken_db : hook.Info := hook.mkInfo hooks.RelationBroken 0 "".

(** A dying unit with one relation left, when the uniter is being
    stopped. *)
Definition dying_cancelled_input : Uniter Script :=
  uniterOf false
    (mkScript (stateOf operation.Continue operation.Pending (Some hook_config_changed) None false)
       true true false None None [] [[TombDying]] 0 1).

(** A dying unit with no relation left, whose stop hook fails. *)
Definition dying_stop_fails_input : Uniter Script :=
  uniterOf false
    (mkScript (stateOf operation.Continue operation.Pending (Some hook_config_changed) None false)
       true true false None None [Some (errExternal "stop failed")] [] 0 0).

(** A dying unit with one relation left, whose relation-broken hook is
    delivered and succeeds. *)
Definition dying_input : Uniter Script :=
  uniterOf false
    (mkScript (stateOf operation.Continue operation.Pending (Some hook_config_changed) None false)
       true true false None None [] [[RelationHook relation_broken_db]] 0 1).

(** The operation ModeConflicted runs for a received event: none for the
    cancellation (and for events its select has no case for). *)
Definition conflictedOperation (curl : option charm.URL) (ev : Event) : option creator :=
  match ev with
  | UpgradeEvent curl' => Some (newRevertUpgradeOp curl')
  | ResolvedEvent _ => Some (newResolvedUpgradeOp curl)
  | _ => None
  end.

Definition cs_foo_3 : option charm.URL := Some "cs:foo-3".
Definition cs_foo_4 : option charm.URL := Some "cs:foo-4".

(** An upgrade to cs:foo-3 is in conflict; a forced upgrade to cs:foo-4
    arrives. *)
Definition conflicted_forced_input : Uniter Script :=
  uniterOf false
    (mkScript (stateOf operation.Upgrade operation.Pending None cs_foo_3 false)
       true true false None None [] [[UpgradeEvent cs_foo_4]] 0 0).

(** The same conflict, when the uniter is being stopped. *)
Definition conflicted_cancelled_input : Uniter Script :=
  uniterOf false
    (mkScript (stateOf operation.Upgrade operation.Pending None cs_foo_3 false)
       true true false None None [] [[TombDying]] 0 0).

Section CancellationVocabulary.
Context {E : Type}.

(** Since [u0], no select has received the cancellation. *)
Definition notCancelled (u0 u : Uniter E) : Prop :=
  ∃ l, calls u = calls u0 ++ l ∧ TombDying ∉ received l.

(** Since [u0], the cancellation has been received once, and that was the
    last call. *)
Definition justCancelled (u0 u : Uniter E) : Prop :=
  ∃ l, calls u = calls u0 ++ l ++ [CallReceive TombDying] ∧ TombDying ∉ received l.

(** The error is fatal with the dying error as its cause. *)
Definition dyingError (err : option error) : Prop :=
  ∃ e, err = Some e ∧ errors.cause e = tomb_ErrDying.



End CancellationVocabulary.



Section FlagVocabulary.
Context {E : Type}.

(** A call that has nothing to do with leadership: not an accept or
    resign operation, not a receive from a leadership wait. *)
Definition noLeadershipCall (c : Call) : bool :=
  match c with
  | CallRunOperation op => negb (isLeadershipOp op)
  | CallReceive LeaderElected | CallReceive LeaderDeposed => false
  | _ => true
  end.

(** A call that has nothing to do with leader settings either: not the
    leader-settings-changed hook, not a receive of a leader-settings
    event, not a subscription to them. *)
Definition noLeaderSettingsCall (c : Call) : bool :=
  match c with
  | CallRunOperation op =>
      bool_decide (op ≠ newSimpleRunHookOp "leader-settings-changed")
  | CallReceive LeaderSettingsEvent => false
  | CallWantLeaderSettingsEvents sendEvents => negb sendEvents
  | _ => true
  end.

Definition flagOffCall (strict : bool) (c : Call) : bool :=
  noLeadershipCall c && (if strict then noLeaderSettingsCall c else true).

(** [flagOff unsubscribed strict u0 u]: the flag is off in [u], every call
    made since [u0] has nothing to do with leadership (nor, when [strict],
    with leader settings), and, when [unsubscribed], the filter is not
    asked for leader-settings events. *)
Definition flagOff (unsubscribed strict : bool) (u0 u : Uniter E) : Prop :=
  leaderElection u = false
  ∧ (unsubscribed = true → wantLeaderSettings u = false)
  ∧ ∃ l, calls u = calls u0 ++ l ∧ Forall (λ c, flagOffCall strict c = true) l.

End FlagVocabulary.

(** The steady state with the flag off: the unit is started, its config
    hook has run; a leader-settings event, a leadership gain and a config
    change can proceed, then the cancellation. *)
Definition abide_flag_off_input : Uniter Script :=
  mkUniter false true
    (mkScript (stateOf operation.Continue operation.Pending (Some hook_config_changed) None false)
       true false true None None []
       [[LeaderSettingsEvent; LeaderElected; ConfigEvent]; [TombDying]] 0 0)
    [].

(** ** Vocabulary of the further properties *)

(** The modes a mode can hand over to. *)
Definition mayFollow (m next : Mode) : bool :=
  match m, next with
  | mContinue, mConflicted _ => false
  | mContinue, _ => true
  | (mInstalling _ | mUpgrading _ | mConflicted _), mContinue => true
  | (mAbide | mHookError), (mContinue | mUpgrading _) => true
  | _, _ => false
  end.

(** The name a mode passes to [modeContext]. *)
Definition modeName (m : Mode) : string :=
  match m with
  | mContinue => "ModeContinue"
  | mInstalling curl => String.append "ModeInstalling " (Sprintf_s curl)
  | mUpgrading curl => String.append "ModeUpgrading " (Sprintf_s curl)
  | mTerminating => "ModeTerminating"
  | mAbide => "ModeAbide"
  | mHookError => "ModeHookError"
  | mConflicted _ => "ModeConflicted"
  end.

Definition followsFrom {E : Type} (m : Mode) (r : Result ModeResult) (_ : Uniter E) : Prop :=
  match r with
  | Returned (Some next, _) => mayFollow m next = true
  | _ => True
  end.

(** Exactly one of the two results of a mode function is nil. *)
Definition exclusive (r : ModeResult) : Prop :=
  match r with
  | (Some _, None) | (None, Some _) => True
  | _ => False
  end.

Definition returnsExclusive {E : Type} (r : Result ModeResult) (_ : Uniter E) : Prop :=
  match r with
  | Returned res => exclusive res
  | _ => True
  end.

(** The scripted world, with relations whose hooks cannot be stopped. *)
Definition stopHooksFail : Collaborators Script := {|
  ext_operationState := opState0;
  ext_runOperation := script_runOperation;
  ext_ranConfigChanged := ranConfigChanged0;
  ext_ranLeaderSettingsChanged := ranLeaderSettingsChanged0;
  ext_initializeMetricsCollector := λ s, (metricsErr s, s);
  ext_collectMetricsAt := λ _ s, s;
  ext_ClaimLeader_Wait := λ s, (claimLeader0 s, s);
  ext_WaitMinion_Ready := λ s, s;
  ext_WaitLeader_Ready := λ s, s;
  ext_SetAgentStatus := λ _ _ _ s, (statusErr s, s);
  ext_Watch := λ s, (None, s);
  ext_watcher_Stop := λ s, s;
  ext_watcher_EnsureErr := λ _, errExternal "watcher stopped";
  ext_Refresh := λ s, (None, s);
  ext_HasSubordinates := λ s, ((false, None), s);
  ext_EnsureDead := λ s, (None, s);
  ext_DestroyAllSubordinates := λ s, (None, s);
  ext_Fix := λ s, (None, s);
  ext_WantResolvedEvent := λ s, s;
  ext_WantUpgradeEvent := λ _ s, s;
  ext_StartHooks := λ s, s;
  ext_StopHooks := λ s, (Some (errExternal "cannot stop hooks"), s);
  ext_SetDying := λ s, (None, s);
  ext_GetInfo_len := relationsLeft;
  ext_relations_Name := λ _ _, ("db", None);
  ext_ready := λ s, default [] (head (readySets s));
  ext_choice := choice0;
  ext_receive := script_receive;
|}.

(** The steady state of a started unit to which an upgrade request
    arrives. *)
Definition abide_upgrade_input : Uniter Script :=
  uniterOf false
    (mkScript (stateOf operation.Continue operation.Pending (Some hook_config_changed) None false)
       true true false None None [] [[UpgradeEvent cs_foo_4]] 0 0).

(** An action was interrupted while the config-changed hook was the last
    one recorded. *)
Definition action_interrupted_input : Uniter Script :=
  uniterOf false
    (quiet (operation.mkState operation.RunAction operation.Pending (Some hook_config_changed)
              (Some "action-7") None false true 0)).

(** A fresh unit about to install cs:foo-3, whose status can be set. *)
Definition install_input : Uniter Script :=
  uniterOf false (quiet (stateOf operation.Install operation.Pending None cs_foo_3 false)).

(** How many resign-leadership operations a list of calls runs. *)
Definition resignations (l : list Call) : nat :=
  length (filter (λ op, op = newResignLeadershipOp) (operations l)).

(** Since [u0], exactly [n] resign-leadership operations have been run. *)
Definition resigned {E : Type} (n : nat) (u0 u : Uniter E) : Prop :=
  ∃ l, calls u = calls u0 ++ l ∧ resignations l = n.

(** A failed install hook of a unit that believes it leads; leadership is
    lost twice over, then the uniter is stopped. *)
Definition hook_error_deposed_input : Uniter Script :=
  uniterOf true
    (mkScript (stateOf operation.RunHook operation.Pending (Some hook_install) None true)
       true true true None None []
       [[LeaderDeposed]; [LeaderDeposed; TombDying]] 0 0).

(** The status data ModeHookError builds for a relation hook. *)
Definition relationHookData (hookInfo : hook.Info) (hookName : string) : StatusData :=
  let statusData : StatusData := <["relation-id" := VInt (hook.RelationId hookInfo)]> ∅ in
  let statusData :=
    if decide (hook.RemoteUnit hookInfo ≠ "")
    then <["remote-unit" := VString (hook.RemoteUnit hookInfo)]> statusData
    else statusData in
  <["hook" := VString hookName]> statusData.

Definition relation_changed_db : hook.Info := hook.mkInfo hooks.RelationChanged 3 "mysql/0".

(** The relation-changed hook of relation 3 with mysql/0 failed. *)
Definition relation_failed_input : Uniter Script :=
  uniterOf false
    (mkScript (stateOf operation.RunHook operation.Pending (Some relation_changed_db) None false)
       true true false None None [] [[TombDying]] 0 1).

(** Since [u0], every call made satisfies [P]. *)
Definition callsAll {E : Type} (P : Call → bool) (u0 u : Uniter E) : Prop :=
  ∃ l, calls u = calls u0 ++ l ∧ Forall (λ c, P c = true) l.

(** The calls ModeAbide makes before a unit has started: it settles the
    leader-settings subscription and runs hooks of its own choosing. *)
Definition startupCall (c : Call) : bool :=
  match c with
  | CallWantLeaderSettingsEvents _ => true
  | CallRunOperation (newSimpleRunHookOp _) => true
  | _ => false
  end.

(** A unit whose start hook has not run yet; its config-changed hook
    has. *)
Definition not_started_input : Uniter Script :=
  uniterOf false
    (mkScript (operation.mkState operation.Continue operation.Pending (Some hook_config_changed)
                 None None false false 0)
       true true false None None [] [[ConfigEvent]] 0 0).

(** What a dying unit still does: it receives the cancellation, actions,
    config changes, leader-settings changes and relation hooks, and runs
    the operations for them, the resignation and the stop hook. *)
Definition dyingCall (c : Call) : bool :=
  match c with
  | CallReceive (TombDying | ActionEvent _ | ConfigEvent | LeaderSettingsEvent
                | RelationHook _) => true
  | CallRunOperation (newResignLeadershipOp | newActionOp _ | newSimpleRunHookOp _
                     | newRunHookOp _) => true
  | _ => false
  end.

Section DyingVocabulary.
Context {E : Type}.

(** Since [u0], no unit-dying notification has been received. *)
Definition alivePhase (u0 u : Uniter E) : Prop :=
  ∃ l, calls u = calls u0 ++ l ∧ UnitDying ∉ received l.

(** Since [u0], the unit-dying notification has been received, and every
    call after it is one a dying unit makes. *)
Definition dyingPhase (u0 u : Uniter E) : Prop :=
  ∃ l1 l2, calls u = calls u0 ++ l1 ++ CallReceive UnitDying :: l2
           ∧ (UnitDying ∉ received l1)
           ∧ Forall (λ c, dyingCall c = true) l2.

End DyingVocabulary.

(** A started unit in its steady state: a config change arrives, then
    the unit is marked dying while an upgrade request is pending; its one
    relation is then broken. *)
Definition abide_then_dying_input : Uniter Script :=
  uniterOf false
    (mkScript (stateOf operation.Continue operation.Pending (Some hook_config_changed) None false)
       true true false None None []
       [[ConfigEvent]; [UnitDying]; [UpgradeEvent cs_foo_4; RelationHook relation_broken_db]]
       0 1).

(** The operation the alive loop runs for a received event: none for the
    cancellation, the unit-dying notification and an upgrade request,
    which make it return (and none for events its select has no case
    for). *)
Definition aliveOperation (ev : Event) : option creator :=
  match ev with
  | RelationsEvent ids => Some (newUpdateRelationsOp ids)
  | ActionEvent actionId => Some (newActionOp actionId)
  | StorageEvent tags => Some (newUpdateStorageOp tags)
  | ConfigEvent => Some (newSimpleRunHookOp hooks.ConfigChanged)
  | MeterStatusEvent => Some (newSimpleRunHookOp hooks.MeterStatusChanged)
  | CollectMetricsSignal => Some (newSimpleRunHookOp hooks.CollectMetrics)
  | RelationHook hookInfo => Some (newRunHookOp hookInfo)
  | StorageHook hookInfo => Some (newRunHookOp hookInfo)
  | LeaderElected => Some newAcceptLeadershipOp
  | LeaderDeposed => Some newResignLeadershipOp
  | LeaderSettingsEvent => Some (newSimpleRunHookOp "leader-settings-changed")
  | _ => None
  end.

(** A list of calls in which events are served one at a time: it is a
    sequence of pairs, the receipt of an event and then the run of the
    operation for that event. *)
Fixpoint served (l : list Call) : bool :=
  match l with
  | [] => true
  | CallReceive ev :: l' =>
      match l' with
      | CallRunOperation op :: l'' =>
          bool_decide (aliveOperation ev = Some op) && served l''
      | _ => false
      end
  | _ => false
  end.

(** How the calls of the alive loop end: with nothing more, with the
    receipt of the cancellation, with the receipt of an upgrade request,
    or with the receipt of the unit-dying notification and whatever the
    dying loop does. *)
Definition aliveTail (tail : list Call) : Prop :=
  tail = []
  ∨ tail = [CallReceive TombDying]
  ∨ (∃ curl, tail = [CallReceive (UpgradeEvent curl)])
  ∨ (∃ rest, tail = CallReceive UnitDying :: rest).

Section AliveVocabulary.
Context {E : Type}.

Definition servedSince (u0 u : Uniter E) : Prop :=
  ∃ l, calls u = calls u0 ++ l ∧ served l = true.

Definition aliveTrace (u0 u : Uniter E) : Prop :=
  ∃ l tail, calls u = calls u0 ++ l ++ tail ∧ served l = true ∧ aliveTail tail.

End AliveVocabulary.

(** The steady state of a leading unit: a relation changes, an action is
    requested, leadership is lost, an upgrade is requested. *)
Definition abide_busy_input : Uniter Script :=
  uniterOf true
    (mkScript (stateOf operation.Continue operation.Pending (Some hook_config_changed) None true)
       true true true None None []
       [[RelationsEvent [1%Z]]; [ActionEvent "42"]; [LeaderDeposed]; [UpgradeEvent cs_foo_4]]
       0 1).


(** What ModeTerminating does once the stopping status is set: it
    receives the cancellation, actions and changes of the unit, and runs
    actions. *)
Definition terminatingCall (c : Call) : bool :=
  match c with
  | CallReceive (TombDying | ActionEvent _ | UnitChange _) => true
  | CallRunOperation (newActionOp _) => true
  | _ => false
  end.

(** The run of an operation. *)
Definition isRunOperation (c : Call) : bool :=
  match c with
  | CallRunOperation _ => true
  | _ => false
  end.

(** A dying unit that believes it leads, with no relation left. *)
Definition dying_leader_input : Uniter Script :=
  uniterOf true
    (mkScript (stateOf operation.Continue operation.Pending (Some hook_config_changed) None true)
       true true true None None [] [] 0 0).

(** What ModeHookError calls for the failed hook [hookInfo]: it sets
    statuses, receives, and runs only the retry or the skip of that hook,
    or a resignation. *)
Definition hookErrorCall (hookInfo : hook.Info) (c : Call) : bool :=
  match c with
  | CallRunOperation op =>
      bool_decide (op ∈ [newRetryHookOp hookInfo; newSkipHookOp hookInfo;
                         newResignLeadershipOp])
  | CallWantLeaderSettingsEvents _ => false
  | _ => true
  end.

(** Any call. *)
Definition anyCall (_ : Call) : bool := true.

(** The steady state of a unit that does not lead and has not yet run
    the leader-settings-changed hook. *)
Definition abide_minion_input : Uniter Script :=
  uniterOf true
    (mkScript (stateOf operation.Continue operation.Pending (Some hook_config_changed) None false)
       true false false None None [] [[TombDying]] 0 0).

(** ** Vocabulary of the passes of the loops *)

(** The collaborators [C] with another persisted operation state:
    [u.operationState()] answers [f], everything else is as in [C]. *)
Definition withOperationState {E : Type} (C : Collaborators E) (f : E → operation.State)
    : Collaborators E := {|
  ext_operationState := f;
  ext_runOperation := @ext_runOperation E C;
  ext_ranConfigChanged := @ext_ranConfigChanged E C;
  ext_ranLeaderSettingsChanged := @ext_ranLeaderSettingsChanged E C;
  ext_initializeMetricsCollector := @ext_initializeMetricsCollector E C;
  ext_collectMetricsAt := @ext_collectMetricsAt E C;
  ext_ClaimLeader_Wait := @ext_ClaimLeader_Wait E C;
  ext_WaitMinion_Ready := @ext_WaitMinion_Ready E C;
  ext_WaitLeader_Ready := @ext_WaitLeader_Ready E C;
  ext_SetAgentStatus := @ext_SetAgentStatus E C;
  ext_Watch := @ext_Watch E C;
  ext_watcher_Stop := @ext_watcher_Stop E C;
  ext_watcher_EnsureErr := @ext_watcher_EnsureErr E C;
  ext_Refresh := @ext_Refresh E C;
  ext_HasSubordinates := @ext_HasSubordinates E C;
  ext_EnsureDead := @ext_EnsureDead E C;
  ext_DestroyAllSubordinates := @ext_DestroyAllSubordinates E C;
  ext_Fix := @ext_Fix E C;
  ext_WantResolvedEvent := @ext_WantResolvedEvent E C;
  ext_WantUpgradeEvent := @ext_WantUpgradeEvent E C;
  ext_StartHooks := @ext_StartHooks E C;
  ext_StopHooks := @ext_StopHooks E C;
  ext_SetDying := @ext_SetDying E C;
  ext_GetInfo_len := @ext_GetInfo_len E C;
  ext_relations_Name := @ext_relations_Name E C;
  ext_ready := @ext_ready E C;
  ext_choice := @ext_choice E C;
  ext_receive := @ext_receive E C;
|}.

(** [passes body s0 u0 k s u]: the loop [for { body }] entered with the
    locals [s0] in the uniter [u0] has gone round [k] times and is at the
    head of its next pass, with the locals [s] in the uniter [u]. *)
Inductive passes {E L R : Type} (body : L → M E (L + R)) (s0 : L) (u0 : Uniter E)
    : nat → L → Uniter E → Prop :=
| passes_O : passes body s0 u0 0 s0 u0
| passes_S k s u s' u' :
    passes body s0 u0 k s u →
    body s u = (Returned (inl s'), u') →
    passes body s0 u0 (S k) s' u'.

Section PassVocabulary.
Context {E : Type} `{Collaborators E}.

(** The executor's side of a hook operation that ModeContinue runs: when
    the operation [c], run in the outside state [e], succeeds, the state
    it has persisted has Kind=Continue.  (The executor is not part of
    modes.go; the persisted state is its to write.) *)
Definition commitsContinue (c : creator) (e : E) : Prop :=
  (ext_runOperation c e).1 = None →
  operation.Kind_ (ext_operationState (ext_runOperation c e).2) = operation.Continue.

(** The name ModeHookError gives the failed hook in the status: the hook's
    kind, after the relation's name for a relation hook; none when the
    relation's name cannot be found. *)
Definition failedHookName (hookInfo : hook.Info) (e : E) : option string :=
  if hooks.IsRelation (hook.Kind hookInfo) then
    match ext_relations_Name (hook.RelationId hookInfo) e with
    | (relationName, None) =>
        Some (String.append relationName (String.append "-" (hook.Kind hookInfo)))
    | (_, Some _) => None
    end
  else Some (hook.Kind hookInfo).

(** The status data it builds for that hook under that name. *)
Definition failedHookData (hookInfo : hook.Info) (hookName : string) : StatusData :=
  if hooks.IsRelation (hook.Kind hookInfo) then relationHookData hookInfo hookName
  else hookFailedData hookName.

(** How ModeHookError, called in [u], enters its loop: with the
    leader-deposed wait armed when the flag is on and the unit leads, and
    in the uniter left by the two subscriptions and the arming. *)
Definition hookErrorArmed (u : Uniter E) : bool :=
  leaderElection u && operation.Leader (ext_operationState (outside u)).

Definition hookErrorStart (u : Uniter E) : Uniter E :=
  let e1 := ext_WantUpgradeEvent true (ext_WantResolvedEvent (outside u)) in
  setOutside (if hookErrorArmed u then ext_WaitMinion_Ready e1 else e1) u.

(** [entersDyingLoop u u1]: modeAbideDyingLoop, called in [u], gets to its
    [for] loop in the uniter [u1].  That is: the unit was refreshed, its
    subordinates destroyed and the relations set dying without error, and
    the resignation block did not return: the flag is off or the unit
    does not lead, or the resign-leadership operation succeeded. *)
Inductive entersDyingLoop (u : Uniter E) : Uniter E → Prop :=
| enters_not_leading e1 e2 e3 :
    ext_Refresh (outside u) = (None, e1) →
    ext_DestroyAllSubordinates e1 = (None, e2) →
    ext_SetDying e2 = (None, e3) →
    leaderElection u && operation.Leader (ext_operationState e3) = false →
    entersDyingLoop u (setOutside e3 u)
| enters_resigned e1 e2 e3 e4 :
    ext_Refresh (outside u) = (None, e1) →
    ext_DestroyAllSubordinates e1 = (None, e2) →
    ext_SetDying e2 = (None, e3) →
    leaderElection u = true →
    operation.Leader (ext_operationState e3) = true →
    ext_runOperation newResignLeadershipOp e3 = (None, e4) →
    entersDyingLoop u
      (setOutside e4 (logCall (CallRunOperation newResignLeadershipOp) (setOutside e3 u))).

End PassVocabulary.

(** The hook an operation runs, for the creators that run one
    ([newSimpleRunHookOp(kind)] runs the hook [hook.Info{Kind: kind}]). *)
Definition hookRun (c : creator) : option hooks.Kind :=
  match c with
  | newRunHookOp hookInfo => Some (hook.Kind hookInfo)
  | newSimpleRunHookOp kind => Some kind
  | newRetryHookOp hookInfo => Some (hook.Kind hookInfo)
  | _ => None
  end.

Definition runsStopHook (c : creator) : bool :=
  bool_decide (hookRun c = Some hooks.Stop).

(** A failed install hook awaits resolution and the filter still sends
    leader-settings events; the flag is off. *)
Definition pending_subscribed_input : Uniter Script :=
  mkUniter false true
    (quiet (stateOf operation.RunHook operation.Pending (Some hook_install) None false)) [].

Section ParkedVocabulary.
Context {E : Type} `{Collaborators E}.
End ParkedVocabulary.


(** The hooks a list of calls runs through [newRunHookOp] are hooks it
    has received from the relations or the storage, and it retries
    none. *)
Definition fedHooks (l : list Call) : Prop :=
  ∀ op, op ∈ operations l →
    match op with
    | newRunHookOp hookInfo =>
        RelationHook hookInfo ∈ received l ∨ StorageHook hookInfo ∈ received l
    | newRetryHookOp _ => False
    | _ => True
    end.

Definition fedSince {E : Type} (u0 u : Uniter E) : Prop :=
  ∃ l, calls u = calls u0 ++ l ∧ fedHooks l.

(** A call that runs no hook handed over by a feed. *)
Definition ownCall (c : Call) : Prop :=
  match c with
  | CallRunOperation (newRunHookOp _ | newRetryHookOp _) => False
  | _ => True
  end.

(** The scripted world, with a deployment that cannot be fixed. *)
Definition fixFails : Collaborators Script := {|
  ext_operationState := opState0;
  ext_runOperation := script_runOperation;
  ext_ranConfigChanged := ranConfigChanged0;
  ext_ranLeaderSettingsChanged := ranLeaderSettingsChanged0;
  ext_initializeMetricsCollector := λ s, (metricsErr s, s);
  ext_collectMetricsAt := λ _ s, s;
  ext_ClaimLeader_Wait := λ s, (claimLeader0 s, s);
  ext_WaitMinion_Ready := λ s, s;
  ext_WaitLeader_Ready := λ s, s;
  ext_SetAgentStatus := λ _ _ _ s, (statusErr s, s);
  ext_Watch := λ s, (None, s);
  ext_watcher_Stop := λ s, s;
  ext_watcher_EnsureErr := λ _, errExternal "watcher stopped";
  ext_Refresh := λ s, (None, s);
  ext_HasSubordinates := λ s, ((false, None), s);
  ext_EnsureDead := λ s, (None, s);
  ext_DestroyAllSubordinates := λ s, (None, s);
  ext_Fix := λ s, (Some (errExternal "cannot fix the deployment"), s);
  ext_WantResolvedEvent := λ s, s;
  ext_WantUpgradeEvent := λ _ s, s;
  ext_StartHooks := λ s, s;
  ext_StopHooks := λ s, (None, s);
  ext_SetDying := λ s, (None, s);
  ext_GetInfo_len := relationsLeft;
  ext_relations_Name := λ _ _, ("db", None);
  ext_ready := λ s, default [] (head (readySets s));
  ext_choice := choice0;
  ext_receive := script_receive;
|}.

(** * Properties *)

Section Resumption.
Context {E : Type} `{Collaborators E}.

(** ** C1 *)

(** C1.  On a state with Kind=Install, ModeContinue returns the Installing
    mode for the persisted charm URL, and on a state with Kind=Upgrade
    the Upgrading mode for it; no call is made and the uniter is left as
    it was, so calling ModeContinue any number of times in a row gives
    the same mode each time. *)
Theorem ModeContinue_resumes_install_upgrade (u : Uniter E) (n : nat) :
  let st := ext_operationState (outside u) in
  let next := if decide (operation.Kind_ st = operation.Install)
              then mInstalling (operation.CharmURL st)
              else mUpgrading (operation.CharmURL st) in
  operation.Kind_ st = operation.Install ∨ operation.Kind_ st = operation.Upgrade →
  ModeContinue u = (Returned (Some next, None), u)
  ∧ invokeTimes n ModeContinue u = (replicate n (Returned (Some next, None)), u).
Proof.
  intros st next Hk.
  assert (Hone : ModeContinue u = (Returned (Some next, None), u)).
  { unfold ModeContinue, modeContext, bind, u_operationState, extGet. simpl.
    fold st. subst next.
    destruct (decide (operation.Kind_ st = operation.Install)) as [Hi|Hi]; [reflexivity|].
    destruct Hk as [Hk|Hk]; [contradiction|].
    destruct (decide (operation.Kind_ st = operation.Upgrade)); [reflexivity|contradiction]. }
  split; [exact Hone|].
  induction n as [|n IH]; simpl; [reflexivity|].
  rewrite Hone, IH. reflexivity.
Qed.

End Resumption.

Lemma ModeContinue_resumes_install_upgrade_witness :
  ModeContinue installing_input
    = (Returned (Some (mInstalling cs_wordpress_3), None), installing_input)
  ∧ invokeTimes 4 ModeContinue installing_input
    = (replicate 4 (Returned (Some (mInstalling cs_wordpress_3), None)), installing_input).
Proof.
  exact (ModeContinue_resumes_install_upgrade installing_input 4 (or_introl eq_refl)).
Defined.

(** ** Shared lemmas on ModeContinue *)

Section ContinueLemmas.
Context {E : Type} `{Collaborators E}.

Lemma ModeContinue_reaches_switch (u u1 : Uniter E) :
  let st := ext_operationState (outside u) in
  operation.Kind_ st ≠ operation.Install →
  operation.Kind_ st ≠ operation.Upgrade →
  reachesSwitch st u u1 →
  ModeContinue u = modeContext "ModeContinue" (ModeContinue_switch st) u1.
Proof.
  intros st Hi Hu Hr.
  unfold ModeContinue, ModeContinue_switch, modeContext at 1.
  unfold bind at 1. unfold bind at 1.
  unfold u_operationState, extGet. fold st.
  destruct (decide (operation.Kind_ st = operation.Install)); [contradiction|].
  destruct (decide (operation.Kind_ st = operation.Upgrade)); [contradiction|].
  destruct Hr as [e1 Hm Hf | e1 e2 Hm Hf Hc | e1 b e2 err e3 Hm Hf Hc Hne Hop Hcause].
  - unfold bind at 1. unfold u_initializeMetricsCollector, extCall. rewrite Hm.
    unfold bind at 1. unfold featureflag_Enabled_LeaderElection. simpl. rewrite Hf.
    reflexivity.
  - unfold bind at 1. unfold u_initializeMetricsCollector, extCall. rewrite Hm.
    unfold bind at 1. unfold featureflag_Enabled_LeaderElection. simpl. rewrite Hf.
    unfold bind at 1. unfold bind at 1. unfold u_leadershipTracker_ClaimLeader_Wait, extCall.
    simpl. rewrite Hc.
    destruct (decide (operation.Leader st = operation.Leader st)); [|congruence].
    reflexivity.
  - unfold bind at 1. unfold u_initializeMetricsCollector, extCall. rewrite Hm.
    unfold bind at 1. unfold featureflag_Enabled_LeaderElection. simpl. rewrite Hf.
    unfold bind at 1. unfold bind at 1. unfold u_leadershipTracker_ClaimLeader_Wait, extCall.
    simpl. rewrite Hc.
    destruct (decide (b = operation.Leader st)); [contradiction|].
    unfold u_runOperation, record, extCall, bind. simpl.
    fold (leadershipOp b). rewrite Hop.
    destruct (decide (errors.cause err ≠ operation_ErrCannotAcceptLeadership)); [contradiction|].
    reflexivity.
Qed.

End ContinueLemmas.

(** ** A weakest-precondition calculus for the mode monad

    [wp m Q u]: running [m] in [u] ends in a result and a uniter that
    satisfy [Q], whichever way it ends. *)

Section WP.
Context {E : Type} `{Collaborators E}.

Definition wp {A} (m : M E A) (Q : Result A → Uniter E → Prop) (u : Uniter E) : Prop :=
  Q (m u).1 (m u).2.

(** The postcondition of the first half of a bind. *)
Definition wpBind {A B} (k : A → M E B) (Q : Result B → Uniter E → Prop)
    (r : Result A) (u : Uniter E) : Prop :=
  match r with
  | Returned a => wp (k a) Q u
  | Panicked => Q Panicked u
  | Blocked => Q Blocked u
  | OutOfFuel => Q OutOfFuel u
  end.

Lemma wp_ret {A} (a : A) Q u : Q (Returned a) u → wp (ret a) Q u.
Proof. exact id. Qed.

Lemma wp_bind {A B} (m : M E A) (k : A → M E B) Q u :
  wp m (wpBind k Q) u → wp (bind m k) Q u.
Proof.
  unfold wp, wpBind, bind. destruct (m u) as [[a| | |] u']; simpl; auto.
Qed.

Lemma wp_mono {A} (m : M E A) (Q Q' : Result A → Uniter E → Prop) u :
  (∀ r u', Q r u' → Q' r u') → wp m Q u → wp m Q' u.
Proof. unfold wp. auto. Qed.

Lemma wp_panic {A} (Q : Result A → Uniter E → Prop) u : Q Panicked u → wp panic Q u.
Proof. exact id. Qed.

Lemma wp_noSuchCase {A} (Q : Result A → Uniter E → Prop) u :
  Q Blocked u → wp noSuchCase Q u.
Proof. exact id. Qed.

Lemma wp_deref {A} (p : option A) Q u :
  (∀ a, p = Some a → Q (Returned a) u) → (p = None → Q Panicked u) → wp (deref p) Q u.
Proof. destruct p; unfold wp; simpl; auto. Qed.

Lemma wp_extCall {A} (f : E → A * E) Q u :
  (∀ a e', f (outside u) = (a, e') → Q (Returned a) (setOutside e' u)) →
  wp (extCall f) Q u.
Proof. unfold wp, extCall. destruct (f (outside u)) eqn:Hf. simpl. auto. Qed.

Lemma wp_extDo (f : E → E) Q u :
  Q (Returned tt) (setOutside (f (outside u)) u) → wp (extDo f) Q u.
Proof. exact id. Qed.

Lemma wp_extGet {A} (f : E → A) Q u :
  Q (Returned (f (outside u))) u → wp (extGet f) Q u.
Proof. exact id. Qed.

Lemma wp_record c Q u : Q (Returned tt) (logCall c u) → wp (record c) Q u.
Proof. exact id. Qed.

Lemma wp_featureflag Q u :
  Q (Returned (leaderElection u)) u → wp featureflag_Enabled_LeaderElection Q u.
Proof. exact id. Qed.

Lemma wp_WantLeaderSettingsEvents b Q u :
  Q (Returned tt) (logCall (CallWantLeaderSettingsEvents b)
                     (mkUniter (leaderElection u) b (outside u) (calls u))) →
  wp (u_f_WantLeaderSettingsEvents b) Q u.
Proof. exact id. Qed.

Lemma wp_runOperation c Q u :
  (∀ err e', ext_runOperation c (outside u) = (err, e') →
     Q (Returned err) (setOutside e' (logCall (CallRunOperation c) u))) →
  wp (u_runOperation c) Q u.
Proof.
  intros HQ. unfold wp, u_runOperation, bind, record, extCall. simpl.
  destruct (ext_runOperation c (outside u)) eqn:Hf. simpl. auto.
Qed.

Lemma wp_SetAgentStatus st info data Q u :
  (∀ err e', ext_SetAgentStatus st info data (outside u) = (err, e') →
     Q (Returned err) (setOutside e' (logCall (CallSetAgentStatus st info data) u))) →
  wp (u_unit_SetAgentStatus st info data) Q u.
Proof.
  intros HQ. unfold wp, u_unit_SetAgentStatus, bind, record, extCall. simpl.
  destruct (ext_SetAgentStatus st info data (outside u)) eqn:Hf. simpl. auto.
Qed.

Lemma chosen_enabled cases u ev : chosen cases u = Some ev → ev ∈ enabled cases u.
Proof. unfold chosen. intros Hl. eapply list_elem_of_lookup_2, Hl. Qed.

Lemma enabled_spec cases u ev :
  ev ∈ enabled cases u ↔
  (chan_of ev ∈ cases ∧ offered u (chan_of ev) = true) ∧ ev ∈ ext_ready (outside u).
Proof. unfold enabled. rewrite list_elem_of_filter. tauto. Qed.

Lemma wp_select cases Q u :
  (chosen cases u = None → Q Blocked u) →
  (∀ ev, chosen cases u = Some ev →
     Q (Returned ev) (logCall (CallReceive ev) (setOutside (ext_receive ev (outside u)) u))) →
  wp (select cases) Q u.
Proof. unfold wp, select. destruct (chosen cases u); simpl; auto. Qed.

Lemma wp_selectDefault cases Q u :
  (chosen cases u = None → Q (Returned None) u) →
  (∀ ev, chosen cases u = Some ev →
     Q (Returned (Some ev))
       (logCall (CallReceive ev) (setOutside (ext_receive ev (outside u)) u))) →
  wp (selectDefault cases) Q u.
Proof. unfold wp, selectDefault. destruct (chosen cases u); simpl; auto. Qed.

(** The loop rule: [J] holds of the locals and the uniter at the head of
    every pass. *)
Lemma wp_forLoop {S R} (body : S → M E (S + R)) (J : S → Uniter E → Prop)
    (Q : Result R → Uniter E → Prop) :
  (∀ s u, J s u → Q OutOfFuel u) →
  (∀ s u, J s u →
     wp (body s) (λ r u', match r with
                          | Returned (inl s') => J s' u'
                          | Returned (inr res) => Q (Returned res) u'
                          | Panicked => Q Panicked u'
                          | Blocked => Q Blocked u'
                          | OutOfFuel => Q OutOfFuel u'
                          end) u) →
  ∀ fuel s u, J s u → wp (forLoop body fuel s) Q u.
Proof.
  intros Hfuel Hbody fuel. induction fuel as [|fuel IH]; intros s u HJ; simpl.
  - apply (Hfuel s u HJ).
  - apply wp_bind. eapply wp_mono; [|apply (Hbody s u HJ)].
    intros r u' Hr. destruct r as [[s'|res]| | |]; simpl; auto.
Qed.

End WP.

(** ** The passes of a loop *)

Section Passes.
Context {E : Type} `{Collaborators E}.

(** A loop that has gone round [k] times goes on as the loop entered at
    the head of its next pass. *)
Lemma forLoop_passes {L R} (body : L → M E (L + R)) (s0 : L) (u0 : Uniter E)
    (k : nat) (s : L) (u : Uniter E) :
  passes body s0 u0 k s u →
  ∀ n, forLoop body (k + n) s0 u0 = forLoop body n s u.
Proof.
  induction 1 as [|k s u s' u' _ IH Hbody]; intros n; [reflexivity|].
  replace (S k + n)%nat with (k + S n)%nat by lia.
  rewrite IH. simpl. unfold bind. rewrite Hbody. reflexivity.
Qed.

Lemma modeContext_ext (name : string) (m m' : M E ModeResult) (u u' : Uniter E) :
  m u = m' u' → modeContext name m u = modeContext name m' u'.
Proof. intros Heq. unfold modeContext, bind. rewrite Heq. reflexivity. Qed.

(** One pass of a loop that is the body of a mode. *)
Lemma modeContext_forLoop_step {L} (name : string) (body : L → M E (L + ModeResult))
    (n : nat) (s : L) (u : Uniter E) (x : L + ModeResult) (u' : Uniter E) :
  body s u = (Returned x, u') →
  modeContext name (forLoop body (S n) s) u
  = match x with
    | inl s' => modeContext name (forLoop body n s') u'
    | inr r => (Returned (r.1, errors.Annotatef r.2 name), u')
    end.
Proof.
  intros Hb. unfold modeContext. simpl forLoop. unfold bind. rewrite Hb.
  destruct x; reflexivity.
Qed.

Lemma modeContext_state (name : string) (body : M E ModeResult) (u : Uniter E) :
  (modeContext name body u).2 = (body u).2.
Proof. unfold modeContext, bind. destruct (body u) as [[r| | |] u']; reflexivity. Qed.

End Passes.

(** ** Stepping through a mode *)

Ltac wp_prim :=
  unfold u_unit_Watch, u_unit_Refresh, u_unit_HasSubordinates, u_unit_EnsureDead,
    u_unit_DestroyAllSubordinates, u_deployer_Fix, u_relations_StopHooks,
    u_relations_SetDying, u_initializeMetricsCollector,
    u_leadershipTracker_ClaimLeader_Wait, u_operationState, u_ranConfigChanged,
    u_ranLeaderSettingsChanged, u_relations_GetInfo_len, u_relations_Name,
    watcher_EnsureErr, watcher_Stop, u_collectMetricsAt,
    u_leadershipTracker_WaitMinion_Ready, u_leadershipTracker_WaitLeader_Ready,
    u_f_WantResolvedEvent, u_f_WantUpgradeEvent, u_relations_StartHooks.

Ltac wp_step :=
  lazymatch goal with
  | |- wp (bind _ _) _ _ => apply wp_bind
  | |- wp (ret _) _ _ => apply wp_ret
  | |- wp panic _ _ => apply wp_panic
  | |- wp noSuchCase _ _ => apply wp_noSuchCase
  | |- wp (modeContext _ _) _ _ => unfold modeContext
  | |- wp (continueAfter _) _ _ => unfold continueAfter
  | |- wp (u_runOperation _) _ _ => apply wp_runOperation; intros ? ? ?
  | |- wp (u_unit_SetAgentStatus _ _ _) _ _ => apply wp_SetAgentStatus; intros ? ? ?
  | |- wp (u_f_WantLeaderSettingsEvents _) _ _ => apply wp_WantLeaderSettingsEvents
  | |- wp featureflag_Enabled_LeaderElection _ _ => apply wp_featureflag
  | |- wp (extCall _) _ _ => apply wp_extCall; intros ? ? ?
  | |- wp (extDo _) _ _ => apply wp_extDo
  | |- wp (extGet _) _ _ => apply wp_extGet
  | |- wp (deref _) _ _ => apply wp_deref; [intros ? ?|intros ?]
  | |- wp (select _) _ _ => apply wp_select; [intros ?|intros ? ?]
  | |- wp (selectDefault _) _ _ => apply wp_selectDefault; [intros ?|intros ? ?]
  | |- wp (if ?b then _ else _) _ _ => destruct b eqn:?
  | |- wp (match ?x with _ => _ end) _ _ => destruct x eqn:?
  | |- wp (let '(_, _) := ?x in _) _ _ => destruct x eqn:?
  | |- wpBind _ _ _ _ => cbn beta iota delta [wpBind]
  | |- wp _ _ _ => progress wp_prim
  end.

Ltac wp_go := repeat wp_step.

(** ** C2 *)

Section Containment.
Context {E : Type} {C : Collaborators E}.

Lemma ModeAbide_rejects (u : Uniter E) (fuel : nat) :
  let st := ext_operationState (outside u) in
  operation.Kind_ st ≠ operation.Continue →
  ModeAbide fuel u
  = (Returned (None, Some (errAnnotated
                (errors.Errorf "insane uniter state: %#v" [ArgState st]) "ModeAbide")), u).
Proof.
  intros st Hk.
  unfold ModeAbide, modeContext, bind, u_operationState, extGet. simpl. fold st.
  destruct (decide (operation.Kind_ st ≠ operation.Continue)); [reflexivity|contradiction].
Qed.

Lemma ModeTerminating_sets_status_first (u : Uniter E) (fuel : nat) :
  ∃ rest, calls (ModeTerminating fuel u).2
          = calls u ++ CallSetAgentStatus params.StatusStopping "" ∅ :: rest.
Proof.
  pose (J := λ u' : Uniter E, ∃ rest,
            calls u' = calls u ++ CallSetAgentStatus params.StatusStopping "" ∅ :: rest).
  change (wp (ModeTerminating fuel) (λ _ u', J u') u).
  unfold ModeTerminating.
  wp_step. wp_step. wp_step. wp_step. wp_step.
  assert (Hbase : J (setOutside e' (logCall (CallSetAgentStatus params.StatusStopping "" ∅) u)))
    by (exists []; reflexivity).
  revert Hbase. generalize (setOutside e' (logCall (CallSetAgentStatus params.StatusStopping "" ∅) u)).
  intros u1 Hbase.
  destruct err; wp_go; try exact Hbase.
  eapply wp_mono; [|apply (wp_forLoop ModeTerminating_body (λ _ u', J u') (λ _ u', J u'))].
  - intros r u' Hr. destruct r; wp_go; exact Hr.
  - auto.
  - intros [] u2 [rest Hrest]. unfold ModeTerminating_body, J.
    wp_go; simpl; rewrite ?Hrest, <- ?app_assoc; simpl; eauto.
  - simpl. exact Hbase.
Qed.

(** C2 (amended).  On a state with Kind=RunHook and Step=Pending that
    records its hook, a call of ModeContinue that reaches its switch
    returns the HookError mode in the uniter it reached the switch with
    (no further call is made), and ModeAbide returns a fatal error without
    making any call.  ModeTerminating does not check the operation state:
    its run is the same whatever u.operationState() answers, and in every
    state the first call it makes sets the agent status to stopping. *)
Theorem hook_error_containment (u u1 : Uniter E) (fuel : nat) (hookInfo : hook.Info) :
  let st := ext_operationState (outside u) in
  operation.Kind_ st = operation.RunHook →
  operation.Step_ st = operation.Pending →
  operation.Hook st = Some hookInfo →
  (reachesSwitch st u u1 → ModeContinue u = (Returned (Some mHookError, None), u1))
  ∧ (∃ e, ModeAbide fuel u = (Returned (None, Some e), u))
  ∧ (∀ f, @ModeTerminating E (withOperationState C f) fuel u = ModeTerminating fuel u)
  ∧ (∃ rest, calls (ModeTerminating fuel u).2
             = calls u ++ CallSetAgentStatus params.StatusStopping "" ∅ :: rest).
Proof.
  intros st Hk Hs Hh. split; [|split; [|split]].
  - intros Hr. rewrite (ModeContinue_reaches_switch u u1); [|fold st; congruence..|exact Hr].
    fold st. unfold ModeContinue_switch, modeContext, bind. rewrite Hk, Hs, Hh. reflexivity.
  - eexists. apply ModeAbide_rejects. fold st. congruence.
  - intros f. reflexivity.
  - apply ModeTerminating_sets_status_first.
Qed.

End Containment.

Lemma hook_error_containment_witness :
  ModeContinue pending_quiet_input = (Returned (Some mHookError, None), pending_quiet_input)
  ∧ (∃ e, ModeAbide 3 pending_quiet_input = (Returned (None, Some e), pending_quiet_input))
  ∧ @ModeTerminating Script
      (withOperationState script_collaborators
         (λ _, stateOf operation.Continue operation.Pending (Some hook_stop) None false))
      3 pending_quiet_input
    = ModeTerminating 3 pending_quiet_input
  ∧ (∃ rest, calls (ModeTerminating 3 pending_quiet_input).2
             = calls pending_quiet_input
               ++ CallSetAgentStatus params.StatusStopping "" ∅ :: rest).
Proof.
  pose proof (hook_error_containment pending_quiet_input pending_quiet_input 3 hook_install)
    as W.
  cbv zeta in W. destruct W as (Hc & Ha & Hi & Ht); [reflexivity..|].
  split; [|split; [exact Ha|split; [apply Hi|exact Ht]]].
  apply Hc.
  eapply (reaches_up_to_date _ pending_quiet_input); reflexivity.
Defined.

(** The claim as first stated fails: with the leader-election flag on and
    a tracker that disagrees with the persisted Leader, ModeContinue on a
    RunHook+Pending state runs a resign-leadership operation and returns
    ModeContinue; and ModeTerminating, called on a RunHook+Pending state,
    runs an action operation and marks the unit dead instead of rejecting
    the state. *)
Lemma hook_error_containment_counterexample :
  let st := ext_operationState (outside pending_deposed_input) in
  let st' := ext_operationState (outside pending_terminating_input) in
  (operation.Kind_ st = operation.RunHook ∧ operation.Step_ st = operation.Pending)
  ∧ (ModeContinue pending_deposed_input).1 = Returned (Some mContinue, None)
  ∧ operations (calls (ModeContinue pending_deposed_input).2) = [newResignLeadershipOp]
  ∧ (operation.Kind_ st' = operation.RunHook ∧ operation.Step_ st' = operation.Pending)
  ∧ (ModeTerminating 2 pending_terminating_input).1
    = Returned (None, Some (errAnnotated worker_ErrTerminateAgent "ModeTerminating"))
  ∧ operations (calls (ModeTerminating 2 pending_terminating_input).2) = [newActionOp "42"].
Proof. vm_compute. repeat split; reflexivity. Qed.

(** ** C3 *)

Section Dispatch.
Context {E : Type} `{Collaborators E}.

Lemma callsSince_afterOperation (c : creator) (u : Uniter E) :
  callsSince u (afterOperation c u) = [CallRunOperation c].
Proof. unfold callsSince, afterOperation. simpl. apply drop_app_length. Qed.

Lemma continueAfter_eq (c : creator) (u : Uniter E) (name : string) :
  modeContext name (continueAfter c) u
  = (Returned (continuedAfter name (operationError c u)), afterOperation c u).
Proof.
  unfold modeContext, continueAfter, u_runOperation, record, extCall,
    continuedAfter, operationError, afterOperation, bind. simpl.
  destruct (ext_runOperation c (outside u)) as [[e|] e']; reflexivity.
Qed.

(** C3 (amended).  On a state with Kind=RunHook that records its hook, a
    call of ModeContinue that reaches its switch dispatches by Step:
    Pending returns the HookError mode and makes no further call; Queued
    makes exactly one further call, the run-hook operation for the
    persisted hook, and Done exactly one, the skip-hook operation for it.
    In both, when the operation succeeds ModeContinue is returned and the
    persisted state is the one the executor committed for the operation,
    so Kind=Continue when the executor commits that; when it fails its
    traced error is returned.  A call that reaches the switch on a state
    whose Kind is none of the declared ones returns the fatal
    unknown-operation-kind error. *)
Theorem ModeContinue_dispatches_by_step (u u1 : Uniter E) (hookInfo : hook.Info) :
  let st := ext_operationState (outside u) in
  let ran c := ModeContinue u
               = (Returned (continuedAfter "ModeContinue" (operationError c u1)),
                  afterOperation c u1)
               ∧ callsSince u1 (ModeContinue u).2 = [CallRunOperation c]
               ∧ (operationError c u1 = None → commitsContinue c (outside u1) →
                  (ModeContinue u).1 = Returned (Some mContinue, None)
                  ∧ operation.Kind_ (ext_operationState (outside (ModeContinue u).2))
                    = operation.Continue) in
  reachesSwitch st u u1 →
  (operation.Kind_ st = operation.RunHook → operation.Hook st = Some hookInfo →
   match operation.Step_ st with
   | operation.Pending => ModeContinue u = (Returned (Some mHookError, None), u1)
   | operation.Queued => ran (newRunHookOp hookInfo)
   | operation.Done => ran (newSkipHookOp hookInfo)
   | operation.OtherStep _ => True
   end)
  ∧ (∀ name, operation.Kind_ st = operation.OtherKind name →
       ModeContinue u
       = (Returned (None, Some (errAnnotated
            (errors.Errorf "unknown operation kind %v" [ArgKind (operation.OtherKind name)])
            "ModeContinue")), u1)).
Proof.
  intros st ran Hr. split.
  - intros Hk Hh.
    assert (Hran : ∀ c,
      modeContext "ModeContinue" (ModeContinue_switch st) u1
      = modeContext "ModeContinue" (continueAfter c) u1 →
      ModeContinue u = modeContext "ModeContinue" (ModeContinue_switch st) u1 → ran c).
    { intros c Hsw Hmc. unfold ran. rewrite Hmc, Hsw, continueAfter_eq.
      split; [reflexivity|]. split; [apply callsSince_afterOperation|].
      intros Herr Hcommit. rewrite Herr. split; [reflexivity|].
      apply Hcommit. exact Herr. }
    pose proof (ModeContinue_reaches_switch u u1) as Hmc. cbv zeta in Hmc. fold st in Hmc.
    specialize (Hmc ltac:(congruence) ltac:(congruence) Hr).
    destruct (operation.Step_ st) eqn:Hstep.
    + apply Hran; [|exact Hmc]. unfold ModeContinue_switch. rewrite Hk, Hstep, Hh. reflexivity.
    + rewrite Hmc. unfold ModeContinue_switch. rewrite Hk, Hstep, Hh. reflexivity.
    + apply Hran; [|exact Hmc]. unfold ModeContinue_switch. rewrite Hk, Hstep, Hh. reflexivity.
    + exact I.
  - intros name Hk.
    rewrite (ModeContinue_reaches_switch u u1); [|fold st; congruence..|exact Hr].
    fold st. unfold ModeContinue_switch. rewrite Hk. reflexivity.
Qed.

End Dispatch.

Lemma ModeContinue_dispatches_by_step_witness :
  (ModeContinue queued_input
   = (Returned (Some mContinue, None),
      afterOperation (newRunHookOp hook_config_changed) queued_input)
   ∧ callsSince queued_input (ModeContinue queued_input).2
     = [CallRunOperation (newRunHookOp hook_config_changed)])
  ∧ (ModeContinue queued_input).1 = Returned (Some mContinue, None)
  ∧ operation.Kind_ (ext_operationState (outside (ModeContinue queued_input).2))
    = operation.Continue.
Proof.
  pose proof (ModeContinue_dispatches_by_step queued_input queued_input hook_config_changed)
    as W.
  cbv zeta in W. destruct W as [W _].
  { eapply (reaches_up_to_date _ queued_input); reflexivity. }
  assert (Hk : operation.Kind_ (ext_operationState (outside queued_input)) = operation.RunHook)
    by reflexivity.
  assert (Hh : operation.Hook (ext_operationState (outside queued_input))
               = Some hook_config_changed) by reflexivity.
  destruct (W Hk Hh) as (W1 & W2 & W3).
  split; [split; [exact W1|exact W2]|].
  apply W3; [reflexivity|]. intros _. reflexivity.
Defined.

(** The claim as first stated fails.  With the leader-election flag on
    and a tracker that disagrees with the persisted Leader, ModeContinue
    on a RunHook+Pending state runs a resign-leadership operation and
    returns ModeContinue, not HookError; on a state of an unknown kind it
    does the same instead of returning a fatal error.  On a RunHook state
    whose step is none of the three it returns no error of its own: it
    hands the nil creator to runOperation.  On a RunHook+Pending state
    that records no hook it panics. *)
Lemma ModeContinue_dispatches_by_step_counterexample :
  (operation.Kind_ (ext_operationState (outside pending_deposed_input)) = operation.RunHook
   ∧ operation.Step_ (ext_operationState (outside pending_deposed_input)) = operation.Pending
   ∧ (ModeContinue pending_deposed_input).1 = Returned (Some mContinue, None)
   ∧ operations (calls (ModeContinue pending_deposed_input).2) = [newResignLeadershipOp])
  ∧ (operation.Kind_ (ext_operationState (outside unknown_kind_deposed_input))
     = operation.OtherKind "bogus"
     ∧ (ModeContinue unknown_kind_deposed_input).1 = Returned (Some mContinue, None))
  ∧ (operation.Kind_ (ext_operationState (outside unknown_step_input)) = operation.RunHook
     ∧ operations (calls (ModeContinue unknown_step_input).2) = [nilCreator])
  ∧ (operation.Kind_ (ext_operationState (outside pending_no_hook_input)) = operation.RunHook
     ∧ (ModeContinue pending_no_hook_input).1 = Panicked).
Proof. vm_compute. repeat split; reflexivity. Qed.

(** ** C4 *)

Section Leadership.
Context {E : Type} `{Collaborators E}.

Lemma callsSince_app (u u' : Uniter E) (l : list Call) :
  calls u' = calls u ++ l → callsSince u u' = l.
Proof. unfold callsSince. intros ->. apply drop_app_length. Qed.

Lemma operations_app (l1 l2 : list Call) :
  operations (l1 ++ l2) = operations l1 ++ operations l2.
Proof.
  induction l1 as [|c l1 IH]; simpl; [reflexivity|].
  destruct c; simpl; rewrite IH; reflexivity.
Qed.

(** The switch of ModeContinue runs no leadership operation. *)
Lemma ModeContinue_switch_no_leadership (st : operation.State) (name : string) (u : Uniter E) :
  ∃ l, calls (modeContext name (ModeContinue_switch st) u).2 = calls u ++ l
       ∧ filter (λ c, isLeadershipOp c = true) (operations l) = [].
Proof.
  change (wp (modeContext name (ModeContinue_switch st))
            (λ _ u', ∃ l, calls u' = calls u ++ l
                          ∧ filter (λ c, isLeadershipOp c = true) (operations l) = []) u).
  unfold ModeContinue_switch.
  wp_go; simpl;
    solve [ exists []; rewrite app_nil_r; split; reflexivity
          | eexists [_]; split; reflexivity ].
Qed.

(** C4 (amended).  On a ModeContinue pass whose state has a Kind other
    than Install and Upgrade, with the LeaderElection flag enabled and the
    metrics collector initialised: if the tracker's claim differs from the
    persisted Leader, the pass runs exactly one leadership operation,
    accept-leadership when the claim is true and resign-leadership when it
    is false.  When that operation succeeds, ModeContinue is returned and
    nothing else is called; when it fails with a cause other than
    ErrCannotAcceptLeadership, its traced error is returned and nothing
    else is called; when it fails with that cause, the pass goes on with
    the switch on Kind and Step, which runs no leadership operation. *)
Theorem ModeContinue_reconciles_leadership (u : Uniter E) (e1 e2 e3 : E)
    (isLeader : bool) (err : option error) :
  let st := ext_operationState (outside u) in
  let c := if isLeader then newAcceptLeadershipOp else newResignLeadershipOp in
  let u3 := setOutside e3 (logCall (CallRunOperation c) u) in
  operation.Kind_ st ≠ operation.Install →
  operation.Kind_ st ≠ operation.Upgrade →
  leaderElection u = true →
  ext_initializeMetricsCollector (outside u) = (None, e1) →
  ext_ClaimLeader_Wait e1 = (isLeader, e2) →
  isLeader ≠ operation.Leader st →
  ext_runOperation c e2 = (err, e3) →
  filter (λ c, isLeadershipOp c = true) (operations (callsSince u (ModeContinue u).2)) = [c]
  ∧ match err with
    | None => ModeContinue u = (Returned (Some mContinue, None), u3)
    | Some e =>
        if decide (errors.cause e = operation_ErrCannotAcceptLeadership)
        then ModeContinue u = modeContext "ModeContinue" (ModeContinue_switch st) u3
        else ModeContinue u
             = (Returned (None, Some (errAnnotated (errors.Trace e) "ModeContinue")), u3)
    end.
Proof.
  intros st c u3 Hi Hu Hf Hm Hc Hne Hop.
  assert (Hrun : match err with
    | None => ModeContinue u = (Returned (Some mContinue, None), u3)
    | Some e =>
        if decide (errors.cause e = operation_ErrCannotAcceptLeadership)
        then ModeContinue u = modeContext "ModeContinue" (ModeContinue_switch st) u3
        else ModeContinue u
             = (Returned (None, Some (errAnnotated (errors.Trace e) "ModeContinue")), u3)
    end).
  { destruct err as [e|].
    - destruct (decide (errors.cause e = operation_ErrCannotAcceptLeadership)) as [Hcause|Hcause].
      + apply ModeContinue_reaches_switch; [exact Hi|exact Hu|].
        eapply reaches_cannot_accept; eauto.
      + unfold ModeContinue, modeContext, u_operationState, extGet,
          u_initializeMetricsCollector, u_leadershipTracker_ClaimLeader_Wait,
          featureflag_Enabled_LeaderElection, u_runOperation, record, extCall, bind.
        simpl. fold st.
        destruct (decide (operation.Kind_ st = operation.Install)); [contradiction|].
        destruct (decide (operation.Kind_ st = operation.Upgrade)); [contradiction|].
        rewrite Hm. simpl. rewrite Hf. simpl. rewrite Hc.
        destruct (decide (isLeader = operation.Leader st)); [contradiction|].
        cbn [outside setOutside]. fold c. rewrite Hop.
        destruct (decide (errors.cause e ≠ operation_ErrCannotAcceptLeadership));
          [reflexivity|contradiction].
    - unfold ModeContinue, modeContext, u_operationState, extGet,
        u_initializeMetricsCollector, u_leadershipTracker_ClaimLeader_Wait,
        featureflag_Enabled_LeaderElection, u_runOperation, record, extCall, bind.
      simpl. fold st.
      destruct (decide (operation.Kind_ st = operation.Install)); [contradiction|].
      destruct (decide (operation.Kind_ st = operation.Upgrade)); [contradiction|].
      rewrite Hm. simpl. rewrite Hf. simpl. rewrite Hc.
      destruct (decide (isLeader = operation.Leader st)); [contradiction|].
      cbn [outside setOutside]. fold c. rewrite Hop. reflexivity. }
  split; [|exact Hrun].
  assert (Hc3 : filter (λ c, isLeadershipOp c = true) (operations [CallRunOperation c]) = [c])
    by (subst c; destruct isLeader; reflexivity).
  destruct err as [e|].
  - destruct (decide (errors.cause e = operation_ErrCannotAcceptLeadership)).
    + rewrite Hrun.
      destruct (ModeContinue_switch_no_leadership st "ModeContinue" u3) as (l & Hl & Hnone).
      rewrite (callsSince_app u _ ([CallRunOperation c] ++ l)).
      * rewrite operations_app, filter_app, Hc3, Hnone. reflexivity.
      * rewrite Hl. subst u3. simpl. rewrite <- app_assoc. reflexivity.
    + rewrite Hrun. simpl. rewrite (callsSince_app u u3 [CallRunOperation c]) by reflexivity.
      exact Hc3.
  - rewrite Hrun. simpl. rewrite (callsSince_app u u3 [CallRunOperation c]) by reflexivity.
    exact Hc3.
Qed.

End Leadership.

Lemma ModeContinue_reconciles_leadership_witness :
  filter (λ c, isLeadershipOp c = true)
    (operations (callsSince elected_input (ModeContinue elected_input).2))
  = [newAcceptLeadershipOp]
  ∧ ModeContinue elected_input
    = (Returned (Some mContinue, None),
       setOutside (script_runOperation newAcceptLeadershipOp (outside elected_input)).2
         (logCall (CallRunOperation newAcceptLeadershipOp) elected_input)).
Proof.
  pose proof (ModeContinue_reconciles_leadership elected_input
                (outside elected_input) (outside elected_input)
                (script_runOperation newAcceptLeadershipOp (outside elected_input)).2
                true None) as W.
  cbv zeta in W.
  apply W; try reflexivity; discriminate.
Defined.

(** The claim as first stated fails: with the LeaderElection flag
    disabled, a pass on a Kind=Continue state whose tracker would claim
    leadership while the persisted Leader is false runs no operation at
    all and returns the Abide mode; and with the flag enabled, a pass
    whose metrics collector cannot be initialised returns that error
    before any leadership operation. *)
Lemma ModeContinue_reconciles_leadership_counterexample :
  (operation.Kind_ (ext_operationState (outside flag_off_elected_input)) = operation.Continue
   ∧ (ext_ClaimLeader_Wait (outside flag_off_elected_input)).1
     ≠ operation.Leader (ext_operationState (outside flag_off_elected_input))
   ∧ ModeContinue flag_off_elected_input
     = (Returned (Some mAbide, None), flag_off_elected_input))
  ∧ ((ext_ClaimLeader_Wait (outside metrics_fail_input)).1
     ≠ operation.Leader (ext_operationState (outside metrics_fail_input))
     ∧ ModeContinue metrics_fail_input
       = (Returned (None, Some (errAnnotated (errors.Trace (errExternal "no metrics"))
                                  "ModeContinue")), metrics_fail_input)).
Proof. vm_compute. repeat split; try reflexivity; discriminate. Qed.

(** ** C5 *)

Section HookError.
Context {E : Type} `{Collaborators E}.

(** One pass of the loop of ModeHookError in which the status is set and
    the select receives a resolution event. *)
Lemma ModeHookError_body_resolved (hookInfo : hook.Info) (msg : string) (data : StatusData)
    (leaderDeposed : bool) (u : Uniter E) (rm : params.ResolvedMode) :
  let u1 := afterStatus params.StatusError msg data u in
  let u2 := afterReceive (ResolvedEvent rm) u1 in
  (ext_SetAgentStatus params.StatusError msg data (outside u)).1 = None →
  chosen (ModeHookError_cases leaderDeposed) u1 = Some (ResolvedEvent rm) →
  ModeHookError_body hookInfo msg data leaderDeposed u
  = match rm with
    | params.ResolvedRetryHooks =>
        (Returned (resolvedWith leaderDeposed (operationError (newRetryHookOp hookInfo) u2)),
         afterOperation (newRetryHookOp hookInfo) u2)
    | params.ResolvedNoHooks =>
        (Returned (resolvedWith leaderDeposed (operationError (newSkipHookOp hookInfo) u2)),
         afterOperation (newSkipHookOp hookInfo) u2)
    | params.ResolvedOther _ =>
        (Returned (inr (None, Some (errors.Errorf "unknown resolved mode %q" [ArgResolved rm]))),
         u2)
    end.
Proof.
  intros u1 u2 Hst Hsel.
  unfold ModeHookError_body, u_unit_SetAgentStatus, u_runOperation, record, extCall, select.
  unfold bind at 1. unfold bind at 1. simpl.
  subst u2 u1. unfold afterStatus, afterReceive in *.
  destruct (ext_SetAgentStatus params.StatusError msg data (outside u)) as [serr e1] eqn:Hs.
  simpl in Hst. subst serr. simpl in Hsel |- *.
  unfold bind at 1. rewrite Hsel.
  unfold resolvedWith, operationError, afterOperation.
  destruct rm; unfold bind; simpl.
  - destruct (ext_runOperation (newRetryHookOp hookInfo) _) as [err e3]. simpl.
    destruct (decide (errors.Cause err = Some operation_ErrHookFailed)); [reflexivity|].
    destruct err; reflexivity.
  - destruct (ext_runOperation (newSkipHookOp hookInfo) _) as [err e3]. simpl.
    destruct (decide (errors.Cause err = Some operation_ErrHookFailed)); [reflexivity|].
    destruct err; reflexivity.
  - reflexivity.
Qed.

(** Every pass of the loop starts by setting the error status. *)
Lemma ModeHookError_pass_sets_status (hookInfo : hook.Info) (msg : string) (data : StatusData)
    (leaderDeposed : bool) (fuel : nat) (u : Uniter E) :
  ∃ rest, calls (forLoop (ModeHookError_body hookInfo msg data) (S fuel) leaderDeposed u).2
          = calls u ++ CallSetAgentStatus params.StatusError msg data :: rest.
Proof.
  pose (J := λ u' : Uniter E, ∃ rest,
            calls u' = calls u ++ CallSetAgentStatus params.StatusError msg data :: rest).
  assert (Hloop : ∀ n ld u', J u' →
            wp (forLoop (ModeHookError_body hookInfo msg data) n ld) (λ _ u'', J u'') u').
  { intros n ld u' HJ.
    apply (wp_forLoop (ModeHookError_body hookInfo msg data) (λ _ u'', J u'') (λ _ u'', J u''));
      [auto| |exact HJ].
    intros s u2 [rest Hrest]. unfold ModeHookError_body, J.
    wp_go; simpl; rewrite ?Hrest, <- ?app_assoc; simpl; eauto. }
  change (wp (forLoop (ModeHookError_body hookInfo msg data) (S fuel) leaderDeposed)
            (λ _ u', J u') u).
  simpl forLoop. unfold ModeHookError_body at 1.
  wp_step. wp_step. wp_step.
  assert (Hbase : J (setOutside e' (logCall (CallSetAgentStatus params.StatusError msg data) u)))
    by (exists []; reflexivity).
  revert Hbase.
  generalize (setOutside e' (logCall (CallSetAgentStatus params.StatusError msg data) u)).
  intros u1 Hbase.
  assert (Hstep : ∀ c (u' : Uniter E), J u' → J (setOutside c u')) by (intros ? ? HJ; exact HJ).
  assert (Hlog : ∀ c (u' : Uniter E), J u' → J (logCall c u')).
  { intros c u' [rest Hrest]. unfold J. simpl. rewrite Hrest, <- app_assoc. simpl. eauto. }
  wp_go; try (apply Hloop); repeat (first [apply Hstep | apply Hlog]); try exact Hbase.
Qed.

End HookError.

Section HookErrorMode.
Context {E : Type} `{Collaborators E}.

(** ModeHookError, on a RunHook+Pending state whose hook is not a
    relation hook: it subscribes to resolved and upgrade events, arms the
    leader-deposed wait when the flag is on and the unit leads, and enters
    its loop. *)
Lemma ModeHookError_enters_loop (fuel : nat) (u : Uniter E) (hookInfo : hook.Info) :
  let st := ext_operationState (outside u) in
  let armed := leaderElection u && operation.Leader st in
  let e1 := ext_WantUpgradeEvent true (ext_WantResolvedEvent (outside u)) in
  let e2 := if armed then ext_WaitMinion_Ready e1 else e1 in
  operation.Kind_ st = operation.RunHook →
  operation.Step_ st = operation.Pending →
  operation.Hook st = Some hookInfo →
  hooks.IsRelation (hook.Kind hookInfo) = false →
  ModeHookError fuel u
  = modeContext "ModeHookError"
      (forLoop (ModeHookError_body hookInfo (hookFailedMessage (hook.Kind hookInfo))
                  (hookFailedData (hook.Kind hookInfo))) fuel armed)
      (setOutside e2 u).
Proof.
  intros st armed e1 e2 Hk Hs Hh Hrel.
  unfold ModeHookError, modeContext, hookFailedMessage, hookFailedData,
    u_operationState, extGet, u_f_WantResolvedEvent, u_f_WantUpgradeEvent, extDo,
    featureflag_Enabled_LeaderElection, u_leadershipTracker_WaitMinion_Ready, bind.
  cbn [ret deref]. fold st.
  destruct (decide (operation.Kind_ st ≠ operation.RunHook
                    ∨ operation.Step_ st ≠ operation.Pending)) as [[Hn|Hn]|_];
    [congruence..|].
  rewrite Hh. cbn [ret deref]. rewrite Hrel.
  subst armed e2 e1.
  destruct (leaderElection u) eqn:Hf; [destruct (operation.Leader st) eqn:Hl|];
    cbn [ret extDo andb leaderElection setOutside outside fst snd];
    rewrite ?Hf; reflexivity.
Qed.

(** ModeHookError on a RunHook+Pending state whose hook is a relation
    hook and whose relation has a name: the loop it enters. *)
Lemma ModeHookError_enters_loop_relation (fuel : nat) (u : Uniter E) (hookInfo : hook.Info)
    (relationName : string) :
  let st := ext_operationState (outside u) in
  let armed := leaderElection u && operation.Leader st in
  let e1 := ext_WantUpgradeEvent true (ext_WantResolvedEvent (outside u)) in
  let e2 := if armed then ext_WaitMinion_Ready e1 else e1 in
  let hookName := String.append relationName (String.append "-" (hook.Kind hookInfo)) in
  operation.Kind_ st = operation.RunHook →
  operation.Step_ st = operation.Pending →
  operation.Hook st = Some hookInfo →
  hooks.IsRelation (hook.Kind hookInfo) = true →
  ext_relations_Name (hook.RelationId hookInfo) (outside u) = (relationName, None) →
  ModeHookError fuel u
  = modeContext "ModeHookError"
      (forLoop (ModeHookError_body hookInfo (hookFailedMessage hookName)
                  (relationHookData hookInfo hookName)) fuel armed)
      (setOutside e2 u).
Proof.
  intros st armed e1 e2 hookName Hk Hs Hh Hrel Hname.
  unfold ModeHookError, modeContext, hookFailedMessage, relationHookData,
    u_operationState, u_relations_Name, extGet, u_f_WantResolvedEvent, u_f_WantUpgradeEvent,
    extDo, featureflag_Enabled_LeaderElection, u_leadershipTracker_WaitMinion_Ready, bind.
  cbn [ret deref]. fold st.
  destruct (decide (operation.Kind_ st ≠ operation.RunHook
                    ∨ operation.Step_ st ≠ operation.Pending)) as [[Hn|Hn]|_];
    [congruence..|].
  rewrite Hh. cbn [ret deref]. rewrite Hrel, Hname.
  subst armed e2 e1 hookName.
  destruct (leaderElection u) eqn:Hf; [destruct (operation.Leader st) eqn:Hl|];
    cbn [ret extDo andb leaderElection setOutside outside fst snd];
    rewrite ?Hf; reflexivity.
Qed.

(** ModeHookError, on a RunHook+Pending state that records the failed
    hook and for which the hook's name is found, is its loop: it
    subscribes to resolved and upgrade events, arms the leader-deposed
    wait when the flag is on and the unit leads, and enters the loop. *)
Lemma ModeHookError_enters_loop_named (fuel : nat) (u : Uniter E) (hookInfo : hook.Info)
    (hookName : string) :
  let st := ext_operationState (outside u) in
  operation.Kind_ st = operation.RunHook →
  operation.Step_ st = operation.Pending →
  operation.Hook st = Some hookInfo →
  failedHookName hookInfo (outside u) = Some hookName →
  ModeHookError fuel u
  = modeContext "ModeHookError"
      (forLoop (ModeHookError_body hookInfo (hookFailedMessage hookName)
                  (failedHookData hookInfo hookName)) fuel (hookErrorArmed u))
      (hookErrorStart u).
Proof.
  intros st Hk Hs Hh Hname. unfold failedHookName in Hname. unfold failedHookData.
  destruct (hooks.IsRelation (hook.Kind hookInfo)) eqn:Hrel.
  - destruct (ext_relations_Name (hook.RelationId hookInfo) (outside u))
      as [relationName [e|]] eqn:Hn; [discriminate Hname|].
    injection Hname as <-.
    apply (ModeHookError_enters_loop_relation fuel u hookInfo relationName Hk Hs Hh Hrel Hn).
  - injection Hname as <-.
    apply (ModeHookError_enters_loop fuel u hookInfo Hk Hs Hh Hrel).
Qed.

(** The mode at the head of a pass of its loop. *)
Lemma ModeHookError_at_pass (u0 u : Uniter E) (hookInfo : hook.Info) (hookName : string)
    (k : nat) (ld : bool) :
  let st := ext_operationState (outside u0) in
  let body := ModeHookError_body hookInfo (hookFailedMessage hookName)
                (failedHookData hookInfo hookName) in
  operation.Kind_ st = operation.RunHook →
  operation.Step_ st = operation.Pending →
  operation.Hook st = Some hookInfo →
  failedHookName hookInfo (outside u0) = Some hookName →
  passes body (hookErrorArmed u0) (hookErrorStart u0) k ld u →
  ∀ n, ModeHookError (k + n) u0 = modeContext "ModeHookError" (forLoop body n ld) u.
Proof.
  intros st body Hk Hs Hh Hname Hp n.
  rewrite (ModeHookError_enters_loop_named (k + n) u0 hookInfo hookName Hk Hs Hh Hname).
  apply modeContext_ext. apply (forLoop_passes _ _ _ _ _ _ Hp).
Qed.

(** C5.  In ModeHookError, called on a RunHook+Pending state that records
    the failed hook, at any pass of its loop: once the error status is
    set, a resolution event with the retry value runs exactly one
    operation, the retry of the failed hook, one with the no-hooks value
    exactly one, the skip of it, and any other value returns a fatal
    error without running one.  If the operation fails with ErrHookFailed
    as its cause the mode stays: it is at the head of its next pass, in
    the uniter the operation left, and that pass starts by setting the
    same error status; any other failure is returned as a fatal error; on
    success the mode returns ModeContinue. *)
Theorem ModeHookError_resolution (u0 u : Uniter E) (hookInfo : hook.Info) (hookName : string)
    (k n : nat) (ld : bool) (rm : params.ResolvedMode) :
  let st := ext_operationState (outside u0) in
  let msg := hookFailedMessage hookName in
  let data := failedHookData hookInfo hookName in
  let body := ModeHookError_body hookInfo msg data in
  let u1 := afterStatus params.StatusError msg data u in
  let u2 := afterReceive (ResolvedEvent rm) u1 in
  let ran c :=
    callsSince u (afterOperation c u2)
    = [CallSetAgentStatus params.StatusError msg data; CallReceive (ResolvedEvent rm);
       CallRunOperation c]
    ∧ match operationError c u2 with
      | None => ModeHookError (k + S n) u0
                = (Returned (Some mContinue, None), afterOperation c u2)
      | Some e =>
          if decide (errors.cause e = operation_ErrHookFailed)
          then passes body (hookErrorArmed u0) (hookErrorStart u0) (S k) ld
                 (afterOperation c u2)
               ∧ ∃ rest, calls (ModeHookError (k + S (S n)) u0).2
                         = calls (afterOperation c u2)
                           ++ CallSetAgentStatus params.StatusError msg data :: rest
          else ModeHookError (k + S n) u0
               = (Returned (None, Some (errAnnotated (errors.Trace e) "ModeHookError")),
                  afterOperation c u2)
      end in
  operation.Kind_ st = operation.RunHook →
  operation.Step_ st = operation.Pending →
  operation.Hook st = Some hookInfo →
  failedHookName hookInfo (outside u0) = Some hookName →
  quotable hookName = true →
  passes body (hookErrorArmed u0) (hookErrorStart u0) k ld u →
  (ext_SetAgentStatus params.StatusError msg data (outside u)).1 = None →
  chosen (ModeHookError_cases ld) u1 = Some (ResolvedEvent rm) →
  match rm with
  | params.ResolvedRetryHooks => ran (newRetryHookOp hookInfo)
  | params.ResolvedNoHooks => ran (newSkipHookOp hookInfo)
  | params.ResolvedOther _ =>
      ModeHookError (k + S n) u0
      = (Returned (None, Some (errAnnotated
                     (errors.Errorf "unknown resolved mode %q" [ArgResolved rm])
                     "ModeHookError")), u2)
  end.
Proof.
  intros st msg data body u1 u2 ran Hk Hs Hh Hname _ Hp Hst Hsel.
  assert (Hpass := ModeHookError_body_resolved hookInfo msg data ld u rm Hst Hsel).
  fold u1 u2 body in Hpass.
  assert (Hat : ∀ k' ld' u', passes body (hookErrorArmed u0) (hookErrorStart u0) k' ld' u' →
            ∀ n', ModeHookError (k' + n') u0
                  = modeContext "ModeHookError" (forLoop body n' ld') u').
  { intros k' ld' u' Hp'.
    apply (ModeHookError_at_pass u0 u' hookInfo hookName k' ld' Hk Hs Hh Hname Hp'). }
  assert (Hran : ∀ c,
    body ld u = (Returned (resolvedWith ld (operationError c u2)), afterOperation c u2) →
    ran c).
  { intros c Hc. unfold ran. split.
    { apply callsSince_app. unfold afterOperation, u2, afterReceive, u1, afterStatus. simpl.
      rewrite <- !app_assoc. reflexivity. }
    rewrite (Hat k ld u Hp (S n)), (modeContext_forLoop_step _ _ _ _ _ _ _ Hc).
    unfold resolvedWith.
    destruct (operationError c u2) as [e|] eqn:Herr; simpl.
    - destruct (decide (errors.cause e = operation_ErrHookFailed)) as [Hf|Hf].
      + assert (Hnext : passes body (hookErrorArmed u0) (hookErrorStart u0) (S k) ld
                          (afterOperation c u2)).
        { apply (passes_S body _ _ k ld u ld (afterOperation c u2) Hp).
          rewrite Hc. unfold resolvedWith. simpl.
          destruct (decide (Some (errors.cause e) = Some operation_ErrHookFailed));
            [reflexivity|congruence]. }
        split; [exact Hnext|].
        replace (k + S (S n))%nat with (S k + S n)%nat by lia.
        rewrite (Hat (S k) ld _ Hnext (S n)), modeContext_state.
        apply ModeHookError_pass_sets_status.
      + destruct (decide (Some (errors.cause e) = Some operation_ErrHookFailed));
          [congruence|reflexivity].
    - destruct (decide (None = Some operation_ErrHookFailed)); [discriminate|reflexivity]. }
  destruct rm.
  - apply Hran, Hpass.
  - apply Hran, Hpass.
  - rewrite (Hat k ld u Hp (S n)), (modeContext_forLoop_step _ _ _ _ _ _ _ Hpass).
    reflexivity.
Qed.

End HookErrorMode.

(** The install hook failed; the user asks for a retry, which fails
    again: the mode stays and sets the status again.  The user then asks
    to skip the hook: at its second pass the mode runs the skip and
    returns ModeContinue. *)
Lemma ModeHookError_resolution_witness :
  let msg := hookFailedMessage "install" in
  let data := hookFailedData "install" in
  let body := ModeHookError_body hook_install msg data in
  let u3 := afterOperation (newRetryHookOp hook_install)
              (afterReceive (ResolvedEvent params.ResolvedRetryHooks)
                 (afterStatus params.StatusError msg data install_failed_input)) in
  let u6 := afterOperation (newSkipHookOp hook_install)
              (afterReceive (ResolvedEvent params.ResolvedNoHooks)
                 (afterStatus params.StatusError msg data u3)) in
  (callsSince install_failed_input u3
   = [CallSetAgentStatus params.StatusError msg data;
      CallReceive (ResolvedEvent params.ResolvedRetryHooks);
      CallRunOperation (newRetryHookOp hook_install)]
   ∧ passes body false install_failed_input 1 false u3
   ∧ ∃ rest, calls (ModeHookError 2 install_failed_input).2
             = calls u3 ++ CallSetAgentStatus params.StatusError msg data :: rest)
  ∧ (callsSince u3 u6
     = [CallSetAgentStatus params.StatusError msg data;
        CallReceive (ResolvedEvent params.ResolvedNoHooks);
        CallRunOperation (newSkipHookOp hook_install)]
     ∧ ModeHookError 2 install_failed_input = (Returned (Some mContinue, None), u6)).
Proof.
  intros msg data body u3 u6.
  assert (Hk : operation.Kind_ (ext_operationState (outside install_failed_input))
               = operation.RunHook) by reflexivity.
  assert (Hs : operation.Step_ (ext_operationState (outside install_failed_input))
               = operation.Pending) by reflexivity.
  assert (Hh : operation.Hook (ext_operationState (outside install_failed_input))
               = Some hook_install) by reflexivity.
  assert (Hn : failedHookName hook_install (outside install_failed_input) = Some "install")
    by reflexivity.
  assert (Hq : quotable "install" = true) by reflexivity.
  pose proof (ModeHookError_resolution install_failed_input install_failed_input hook_install
                "install" 0 0 false params.ResolvedRetryHooks Hk Hs Hh Hn Hq
                (passes_O _ _ _)) as W.
  cbv zeta in W.
  assert (Hst : (ext_SetAgentStatus params.StatusError (hookFailedMessage "install")
                   (failedHookData hook_install "install")
                   (outside install_failed_input)).1 = None) by reflexivity.
  assert (Hc : chosen (ModeHookError_cases false)
                 (afterStatus params.StatusError (hookFailedMessage "install")
                    (failedHookData hook_install "install") install_failed_input)
               = Some (ResolvedEvent params.ResolvedRetryHooks)) by reflexivity.
  specialize (W Hst Hc). destruct W as (W1 & W2 & W3).
  split; [split; [exact W1|split; [exact W2|exact W3]]|].
  pose proof (ModeHookError_resolution install_failed_input u3 hook_install
                "install" 1 0 false params.ResolvedNoHooks Hk Hs Hh Hn Hq W2) as V.
  cbv zeta in V.
  assert (Hst' : (ext_SetAgentStatus params.StatusError (hookFailedMessage "install")
                    (failedHookData hook_install "install") (outside u3)).1 = None)
    by reflexivity.
  assert (Hc' : chosen (ModeHookError_cases false)
                  (afterStatus params.StatusError (hookFailedMessage "install")
                     (failedHookData hook_install "install") u3)
                = Some (ResolvedEvent params.ResolvedNoHooks)) by reflexivity.
  exact (V Hst' Hc').
Defined.

(** The whole mode on that input: the retry fails again, the mode stays
    and sets the status a second time, the hook is then skipped and the
    mode returns ModeContinue. *)
Example ModeHookError_retry_then_skip :
  (ModeHookError 5 install_failed_input).1 = Returned (Some mContinue, None)
  ∧ operations (calls (ModeHookError 5 install_failed_input).2)
    = [newRetryHookOp hook_install; newSkipHookOp hook_install]
  ∧ length (filter (λ c, c = CallSetAgentStatus params.StatusError
                               (hookFailedMessage "install") (hookFailedData "install"))
              (calls (ModeHookError 5 install_failed_input).2)) = 2%nat.
Proof. vm_compute. repeat split; reflexivity. Qed.

(** ** C6 *)

Section ContinueKind.
Context {E : Type} `{Collaborators E}.

(** ModeContinue has no loop and no select: on a state that records its
    hook it returns. *)
Lemma ModeContinue_returns (u : Uniter E) (hookInfo : hook.Info) :
  operation.Hook (ext_operationState (outside u)) = Some hookInfo →
  ∃ r, (ModeContinue u).1 = Returned r.
Proof.
  intros Hh.
  change (wp ModeContinue (λ r _, ∃ res, r = Returned res) u).
  unfold ModeContinue.
  wp_go; solve [eauto | congruence].
Qed.

(** C6 (amended).  On a state with Kind=Continue that records its last
    hook, ModeContinue returns (it neither panics nor waits), and a call
    that reaches its switch returns a next mode and no error: Terminating
    when the hook's kind is stop, Abide otherwise, in the uniter it
    reached the switch with. *)
Theorem ModeContinue_routes_continue (u u1 : Uniter E) (hookInfo : hook.Info) :
  let st := ext_operationState (outside u) in
  let next := if decide (hook.Kind hookInfo = hooks.Stop) then mTerminating else mAbide in
  operation.Kind_ st = operation.Continue →
  operation.Hook st = Some hookInfo →
  (∃ r, (ModeContinue u).1 = Returned r)
  ∧ (reachesSwitch st u u1 → ModeContinue u = (Returned (Some next, None), u1)).
Proof.
  intros st next Hk Hh. split; [eapply ModeContinue_returns, Hh|].
  intros Hr.
  rewrite (ModeContinue_reaches_switch u u1); [|fold st; congruence..|exact Hr].
  fold st. unfold ModeContinue_switch, modeContext, bind. rewrite Hk, Hh. simpl.
  subst next. destruct (decide (hook.Kind hookInfo = hooks.Stop)); reflexivity.
Qed.

End ContinueKind.

Lemma ModeContinue_routes_continue_witness :
  (∃ r, (ModeContinue stopped_input).1 = Returned r)
  ∧ ModeContinue stopped_input = (Returned (Some mTerminating, None), stopped_input).
Proof.
  pose proof (ModeContinue_routes_continue stopped_input stopped_input hook_stop) as W.
  cbv zeta in W. destruct W as [W1 W2]; [reflexivity..|].
  split; [exact W1|]. apply W2.
  eapply (reaches_up_to_date _ stopped_input); reflexivity.
Defined.

(** The claim as first stated fails.  On a Kind=Continue state that
    records no hook ModeContinue panics on the nil hook; on a
    Kind=Continue state whose metrics collector cannot be initialised it
    returns that error; and, with the flag on and a tracker that claims
    leadership the state does not record, it runs an accept-leadership
    operation and returns ModeContinue, neither Terminating nor Abide. *)
Lemma ModeContinue_routes_continue_counterexample :
  (operation.Kind_ (ext_operationState (outside continue_no_hook_input)) = operation.Continue
   ∧ operation.Hook (ext_operationState (outside continue_no_hook_input)) = None
   ∧ (ModeContinue continue_no_hook_input).1 = Panicked)
  ∧ (operation.Kind_ (ext_operationState (outside metrics_fail_input)) = operation.Continue
     ∧ (ModeContinue metrics_fail_input).1
       = Returned (None, Some (errAnnotated (errors.Trace (errExternal "no metrics"))
                                 "ModeContinue")))
  ∧ (operation.Kind_ (ext_operationState (outside elected_input)) = operation.Continue
     ∧ (ModeContinue elected_input).1 = Returned (Some mContinue, None)
     ∧ operations (calls (ModeContinue elected_input).2) = [newAcceptLeadershipOp]).
Proof. vm_compute. repeat split; reflexivity. Qed.
(** ** C7 *)

Section Dying.
Context {E : Type} `{Collaborators E}.

Lemma modeAbideDyingLoop_never_abides (fuel : nat) (u : Uniter E) :
  match (modeAbideDyingLoop fuel u).1 with
  | Returned (Some m, _) => m = mContinue
  | _ => True
  end.
Proof.
  pose (Q := λ (r : Result ModeResult) (_ : Uniter E),
          match r with Returned (Some m, _) => m = mContinue | _ => True end).
  change (wp (modeAbideDyingLoop fuel) Q u).
  unfold modeAbideDyingLoop.
  wp_go; try exact I;
    (apply (wp_forLoop modeAbideDyingLoop_body (λ _ _, True) Q); [intros; exact I| |exact I]);
    intros [] u' _; unfold modeAbideDyingLoop_body; wp_go; solve [exact I | reflexivity].
Qed.

Lemma chosen_dying_cancel (u : Uniter E) (ev : Event) :
  chosen modeAbideDyingLoop_cases u = Some ev → dyingOperation ev = None → ev = TombDying.
Proof.
  intros Hc Hop. apply chosen_enabled, enabled_spec in Hc as [[Hin _] _].
  unfold modeAbideDyingLoop_cases in Hin.
  destruct ev; try reflexivity; try discriminate Hop;
    simpl in Hin; repeat (apply elem_of_cons in Hin as [Hin|Hin]; [discriminate|]);
    apply elem_of_nil in Hin; contradiction.
Qed.

(** modeAbideDyingLoop, once it has got to its loop, is that loop. *)
Lemma modeAbideDyingLoop_enters_loop (fuel : nat) (u u1 : Uniter E) :
  entersDyingLoop u u1 →
  modeAbideDyingLoop fuel u = forLoop modeAbideDyingLoop_body fuel tt u1.
Proof.
  intros [e1 e2 e3 Hr Hd Hs Hl | e1 e2 e3 e4 Hr Hd Hs Hf Hl Hop];
    unfold modeAbideDyingLoop, u_unit_Refresh, u_unit_DestroyAllSubordinates,
      u_relations_SetDying, u_operationState, featureflag_Enabled_LeaderElection,
      u_runOperation, record, extCall, extGet, bind;
    cbn [outside setOutside logCall leaderElection fst snd ret];
    rewrite Hr; cbn [outside setOutside logCall leaderElection fst snd ret];
    rewrite Hd; cbn [outside setOutside logCall leaderElection fst snd ret];
    rewrite Hs; cbn [outside setOutside logCall leaderElection fst snd ret].
  all: change (setOutside e3 (setOutside e2 (setOutside e1 u))) with (setOutside e3 u).
  - destruct (leaderElection u); [|reflexivity].
    simpl in Hl. change (outside (setOutside e3 u)) with e3. rewrite Hl. reflexivity.
  - rewrite Hf. change (outside (setOutside e3 u)) with e3. rewrite Hl.
    change (outside (setOutside e3 u)) with e3. rewrite Hop. reflexivity.
Qed.

(** The operation the dying loop runs for an event is not the stop hook,
    as long as the relations deliver relation hooks. *)
Lemma dyingOperation_not_stop (ev : Event) (c : creator) :
  dyingOperation ev = Some c →
  (∀ hookInfo, ev = RelationHook hookInfo → hooks.IsRelation (hook.Kind hookInfo) = true) →
  runsStopHook c = false.
Proof.
  intros Hop Hrel. destruct ev; try discriminate Hop; injection Hop as <-;
    try reflexivity.
  unfold runsStopHook, hookRun. apply bool_decide_eq_false. intros Heq.
  injection Heq as Heq. specialize (Hrel hookInfo eq_refl). rewrite Heq in Hrel.
  discriminate Hrel.
Qed.

(** C7 (amended).  The dying loop never returns the Abide mode.  At any
    pass of its loop: when no relation is left, it runs exactly one
    operation, the stop hook, and returns ModeContinue if it succeeds and
    its error if it fails.  While a relation is left it waits: if the
    cancellation is received it returns the dying error and runs no
    operation; otherwise it has consumed one event (action, config
    change, leader-settings change or relation hook) and runs exactly one
    operation, the one for that event, which is not the stop hook as long
    as the relations deliver relation hooks; it goes round again if the
    operation succeeds and returns its error if it fails. *)
Theorem modeAbideDyingLoop_passes (fuel : nat) (w u0 u1 u : Uniter E) (k n : nat) :
  let stop := newSimpleRunHookOp hooks.Stop in
  let body := modeAbideDyingLoop_body in
  match (modeAbideDyingLoop fuel w).1 with
  | Returned (Some m, _) => m = mContinue
  | _ => True
  end
  ∧ (entersDyingLoop u0 u1 → passes body tt u1 k tt u →
     if decide (ext_GetInfo_len (outside u) = 0%nat) then
       modeAbideDyingLoop (k + S n) u0
       = (Returned (continueAfterResult (operationError stop u)), afterOperation stop u)
       ∧ callsSince u (afterOperation stop u) = [CallRunOperation stop]
     else
       match chosen modeAbideDyingLoop_cases u with
       | None => modeAbideDyingLoop (k + S n) u0 = (Blocked, u)
       | Some ev =>
           let u2 := afterReceive ev u in
           match dyingOperation ev with
           | None =>
               ev = TombDying
               ∧ modeAbideDyingLoop (k + S n) u0
                 = (Returned (None, Some tomb_ErrDying), u2)
               ∧ callsSince u u2 = [CallReceive ev]
           | Some c =>
               callsSince u (afterOperation c u2) = [CallReceive ev; CallRunOperation c]
               ∧ ((∀ hookInfo, ev = RelationHook hookInfo →
                     hooks.IsRelation (hook.Kind hookInfo) = true) →
                  runsStopHook c = false)
               ∧ match operationError c u2 with
                 | None => passes body tt u1 (S k) tt (afterOperation c u2)
                 | Some e =>
                     modeAbideDyingLoop (k + S n) u0
                     = (Returned (None, Some (errors.Trace e)), afterOperation c u2)
                 end
           end
       end).
Proof.
  intros stop body. subst stop. split; [apply modeAbideDyingLoop_never_abides|].
  intros Hin Hp.
  assert (Hat : modeAbideDyingLoop (k + S n) u0 = forLoop body (S n) tt u).
  { rewrite (modeAbideDyingLoop_enters_loop _ u0 u1 Hin).
    apply (forLoop_passes _ _ _ _ _ _ Hp). }
  assert (Hstep : ∀ x u', body tt u = (Returned x, u') →
            forLoop body (S n) tt u
            = match x with inl s' => forLoop body n s' u' | inr r => (Returned r, u') end).
  { intros x u' Hb. simpl forLoop. unfold bind. rewrite Hb. destruct x; reflexivity. }
  destruct (decide (ext_GetInfo_len (outside u) = 0%nat)) as [Hz|Hz].
  - assert (Hb : body tt u
                 = (Returned (inr (continueAfterResult
                      (operationError (newSimpleRunHookOp hooks.Stop) u))),
                    afterOperation (newSimpleRunHookOp hooks.Stop) u)).
    { unfold body, modeAbideDyingLoop_body, u_relations_GetInfo_len, extGet,
        continueAfter, u_runOperation, record, extCall, operationError,
        afterOperation, continueAfterResult, bind. simpl.
      destruct (decide (ext_GetInfo_len (outside u) = 0%nat)) as [_|]; [|contradiction].
      destruct (ext_runOperation _ (outside u)) as [[err|] e']; reflexivity. }
    rewrite Hat, (Hstep _ _ Hb). split; [reflexivity|]. apply callsSince_afterOperation.
  - assert (Hsel : body tt u
                   = match chosen modeAbideDyingLoop_cases u with
                     | None => (Blocked, u)
                     | Some ev =>
                         match dyingOperation ev with
                         | None =>
                             if decide (ev = TombDying)
                             then (Returned (inr (None, Some tomb_ErrDying)), afterReceive ev u)
                             else (Blocked, afterReceive ev u)
                         | Some c =>
                             (Returned (passAfter tt (operationError c (afterReceive ev u))),
                              afterOperation c (afterReceive ev u))
                         end
                     end).
    { unfold body, modeAbideDyingLoop_body, u_relations_GetInfo_len, extGet, select.
      unfold bind at 1. cbn [fst snd].
      destruct (decide (ext_GetInfo_len (outside u) = 0%nat)) as [|_]; [contradiction|].
      unfold bind at 1. unfold bind at 1.
      destruct (chosen modeAbideDyingLoop_cases u) as [ev|]; [|reflexivity].
      fold (afterReceive ev u).
      destruct ev; try reflexivity;
        unfold u_runOperation, record, extCall, bind, operationError, afterOperation,
          passAfter, dyingOperation; simpl;
        match goal with
        | |- context [ext_runOperation ?c ?e] =>
            destruct (ext_runOperation c e) as [[err|] e']
        end; reflexivity. }
    destruct (chosen modeAbideDyingLoop_cases u) as [ev|] eqn:Hc.
    + cbn zeta.
      destruct (dyingOperation ev) as [c|] eqn:Hop.
      * split; [apply callsSince_app; unfold afterOperation, afterReceive; simpl;
                rewrite <- app_assoc; reflexivity|].
        split; [apply (dyingOperation_not_stop ev c Hop)|].
        destruct (operationError c (afterReceive ev u)) as [e|] eqn:Herr.
        -- rewrite Hat, (Hstep _ _ Hsel). reflexivity.
        -- apply (passes_S body _ _ k tt u tt _ Hp). rewrite Hsel. reflexivity.
      * pose proof (chosen_dying_cancel u ev Hc Hop) as ->.
        split; [reflexivity|]. rewrite Hat, (Hstep _ _ Hsel).
        split; [reflexivity|]. apply callsSince_app. reflexivity.
    + rewrite Hat. simpl forLoop. unfold bind. rewrite Hsel. reflexivity.
Qed.

End Dying.

(** A dying unit with one relation left: at the first pass the
    relation-broken hook is received and run, and the loop goes round
    again; at the second pass no relation is left, the stop hook is run
    and ModeContinue is returned. *)
Lemma modeAbideDyingLoop_passes_witness :
  let u2 := afterReceive (RelationHook relation_broken_db) dying_input in
  let c := newRunHookOp relation_broken_db in
  let stop := newSimpleRunHookOp hooks.Stop in
  (callsSince dying_input (afterOperation c u2)
   = [CallReceive (RelationHook relation_broken_db); CallRunOperation c]
   ∧ runsStopHook c = false
   ∧ passes modeAbideDyingLoop_body tt dying_input 1 tt (afterOperation c u2))
  ∧ (modeAbideDyingLoop 2 dying_input
     = (Returned (Some mContinue, None), afterOperation stop (afterOperation c u2))
     ∧ callsSince (afterOperation c u2) (afterOperation stop (afterOperation c u2))
       = [CallRunOperation stop]).
Proof.
  intros u2 c stop.
  assert (Hin : entersDyingLoop dying_input dying_input).
  { eapply (enters_not_leading dying_input); reflexivity. }
  pose proof (modeAbideDyingLoop_passes 0 dying_input dying_input dying_input dying_input 0 0)
    as [_ W].
  specialize (W Hin (passes_O _ _ _)).
  destruct W as (W1 & W2 & W3).
  split.
  - split; [exact W1|]. split; [|exact W3].
    apply W2. intros hookInfo Heq. injection Heq as <-. reflexivity.
  - pose proof (modeAbideDyingLoop_passes 0 dying_input dying_input dying_input
                  (afterOperation c u2) 1 0) as [_ V].
    exact (V Hin W3).
Defined.

(** The whole loop on that unit: the relation-broken hook runs, then the
    stop hook, and ModeContinue is returned. *)
Example modeAbideDyingLoop_runs_stop_last :
  (modeAbideDyingLoop 3 dying_input).1 = Returned (Some mContinue, None)
  ∧ operations (calls (modeAbideDyingLoop 3 dying_input).2)
    = [newRunHookOp relation_broken_db; newSimpleRunHookOp hooks.Stop].
Proof. vm_compute. split; reflexivity. Qed.

(** The claim as first stated fails: a dying loop in which the
    cancellation is received runs no operation, neither one for an event
    nor the stop hook, and returns the dying error; and one that runs the
    stop hook returns that hook's error, not ModeContinue, when the hook
    fails. *)
Lemma modeAbideDyingLoop_passes_counterexample :
  ((modeAbideDyingLoop 1 dying_cancelled_input).1
   = Returned (None, Some tomb_ErrDying)
   ∧ operations (calls (modeAbideDyingLoop 1 dying_cancelled_input).2) = [])
  ∧ ((modeAbideDyingLoop 1 dying_stop_fails_input).1
     = Returned (None, Some (errors.Trace (errExternal "stop failed")))
     ∧ operations (calls (modeAbideDyingLoop 1 dying_stop_fails_input).2)
       = [newSimpleRunHookOp hooks.Stop]).
Proof. vm_compute. repeat split; reflexivity. Qed.

(** ** C8 *)

Section Conflicted.
Context {E : Type} `{Collaborators E}.

Lemma chosen_conflicted_cancel (curl : option charm.URL) (u : Uniter E) (ev : Event) :
  chosen ModeConflicted_cases u = Some ev → conflictedOperation curl ev = None →
  ev = TombDying.
Proof.
  intros Hc Hop. apply chosen_enabled, enabled_spec in Hc as [[Hin _] _].
  unfold ModeConflicted_cases in Hin.
  destruct ev; try reflexivity; try discriminate Hop;
    simpl in Hin; repeat (apply elem_of_cons in Hin as [Hin|Hin]; [discriminate|]);
    apply elem_of_nil in Hin; contradiction.
Qed.

(** C8 (amended).  In the Conflicted mode, once the error status is set,
    an entry whose select receives an event other than the cancellation
    runs exactly one operation: the revert-upgrade for the new URL when a
    forced-upgrade event is received, the resolved-upgrade for the mode's
    own URL when a resolution event is received; the mode returns
    ModeContinue when the operation succeeds and its error when it fails.
    An entry whose select receives the cancellation runs no operation and
    returns the dying error. *)
Theorem ModeConflicted_resolves (curl : option charm.URL) (u : Uniter E) :
  let u1 := afterStatus params.StatusError "upgrade failed" ∅ u in
  let u2 := setOutside (ext_WantUpgradeEvent true (ext_WantResolvedEvent (outside u1))) u1 in
  (ext_SetAgentStatus params.StatusError "upgrade failed" ∅ (outside u)).1 = None →
  match chosen ModeConflicted_cases u2 with
  | None => ModeConflicted_func curl u = (Blocked, u2)
  | Some ev =>
      let u3 := afterReceive ev u2 in
      match conflictedOperation curl ev with
      | None =>
          ev = TombDying
          ∧ ModeConflicted_func curl u
            = (Returned (None, Some (errAnnotated tomb_ErrDying "ModeConflicted")), u3)
          ∧ operations (callsSince u u3) = []
      | Some c =>
          ModeConflicted_func curl u
          = (Returned (continuedAfter "ModeConflicted" (operationError c u3)),
             afterOperation c u3)
          ∧ operations (callsSince u (afterOperation c u3)) = [c]
      end
  end.
Proof.
  intros u1 u2 Hst.
  assert (Hsel : ModeConflicted_func curl u
                 = match chosen ModeConflicted_cases u2 with
                   | None => (Blocked, u2)
                   | Some ev =>
                       match conflictedOperation curl ev with
                       | None =>
                           if decide (ev = TombDying)
                           then (Returned (None, Some (errAnnotated tomb_ErrDying "ModeConflicted")),
                                 afterReceive ev u2)
                           else (Blocked, afterReceive ev u2)
                       | Some c =>
                           (Returned (continuedAfter "ModeConflicted"
                                        (operationError c (afterReceive ev u2))),
                            afterOperation c (afterReceive ev u2))
                       end
                   end).
  { subst u2 u1. unfold afterStatus in *.
    unfold ModeConflicted_func, modeContext, u_unit_SetAgentStatus, record, extCall,
      u_f_WantResolvedEvent, u_f_WantUpgradeEvent, extDo, select.
    unfold bind at 1. unfold bind at 1. unfold bind at 1. cbn [fst snd outside logCall].
    destruct (ext_SetAgentStatus params.StatusError "upgrade failed" ∅ (outside u))
      as [serr e1]. simpl in Hst. subst serr. cbn [fst snd].
    unfold bind at 1. unfold bind at 1. unfold bind at 1. unfold bind at 1.
    cbn [fst snd outside setOutside logCall leaderElection wantLeaderSettings calls].
    set (U2 := setOutside (ext_WantUpgradeEvent true (ext_WantResolvedEvent e1))
                 (setOutside e1
                    (logCall (CallSetAgentStatus params.StatusError "upgrade failed" ∅) u))).
    repeat match goal with
           | |- context [chosen ModeConflicted_cases ?x] =>
               lazymatch x with
               | U2 => fail
               | _ => change x with U2
               end
           end.
    destruct (chosen ModeConflicted_cases U2) as [ev|]; [|reflexivity].
    destruct ev; try reflexivity; cbn [conflictedOperation];
      rewrite <- (continueAfter_eq _ _ "ModeConflicted"); reflexivity. }
  rewrite Hsel.
  destruct (chosen ModeConflicted_cases u2) as [ev|] eqn:Hc; [|reflexivity].
  cbn zeta.
  destruct (conflictedOperation curl ev) as [c|] eqn:Hop.
  - split; [reflexivity|].
    rewrite (callsSince_app u _ [CallSetAgentStatus params.StatusError "upgrade failed" ∅;
                                 CallReceive ev; CallRunOperation c]); [reflexivity|].
    unfold afterOperation, afterReceive, u2, u1, afterStatus. simpl.
    rewrite <- !app_assoc. reflexivity.
  - pose proof (chosen_conflicted_cancel curl u2 ev Hc Hop) as ->.
    split; [reflexivity|]. split; [reflexivity|].
    rewrite (callsSince_app u _ [CallSetAgentStatus params.StatusError "upgrade failed" ∅;
                                 CallReceive TombDying]); [reflexivity|].
    unfold afterReceive, u2, u1, afterStatus. simpl. rewrite <- !app_assoc. reflexivity.
Qed.

End Conflicted.

Lemma ModeConflicted_resolves_witness :
  (ModeConflicted_func cs_foo_3 conflicted_forced_input).1 = Returned (Some mContinue, None)
  ∧ operations (calls (ModeConflicted_func cs_foo_3 conflicted_forced_input).2)
    = [newRevertUpgradeOp cs_foo_4].
Proof.
  pose proof (ModeConflicted_resolves cs_foo_3 conflicted_forced_input) as W.
  cbv zeta in W.
  assert (Hs : (ext_SetAgentStatus params.StatusError "upgrade failed" ∅
                  (outside conflicted_forced_input)).1 = None) by reflexivity.
  specialize (W Hs).
  assert (Hc : chosen ModeConflicted_cases
                 (setOutside
                    (ext_WantUpgradeEvent true
                       (ext_WantResolvedEvent
                          (outside (afterStatus params.StatusError "upgrade failed" ∅
                                      conflicted_forced_input))))
                    (afterStatus params.StatusError "upgrade failed" ∅
                       conflicted_forced_input))
               = Some (UpgradeEvent cs_foo_4)) by reflexivity.
  rewrite Hc in W. cbn [conflictedOperation] in W. destruct W as [W1 W2].
  rewrite W1. split; reflexivity.
Defined.

(** The claim as first stated fails: an entry of the Conflicted mode in
    which the cancellation is received sets the error status, runs no
    operation at all, and returns the dying error. *)
Lemma ModeConflicted_resolves_counterexample :
  (ModeConflicted_func cs_foo_3 conflicted_cancelled_input).1
  = Returned (None, Some (errAnnotated tomb_ErrDying "ModeConflicted"))
  ∧ calls (ModeConflicted_func cs_foo_3 conflicted_cancelled_input).2
    = [CallSetAgentStatus params.StatusError "upgrade failed" ∅; CallReceive TombDying]
  ∧ operations (calls (ModeConflicted_func cs_foo_3 conflicted_cancelled_input).2) = [].
Proof. vm_compute. repeat split; reflexivity. Qed.

(** ** C9 *)

Section Cancellation.
Context {E : Type} `{Collaborators E}.

Lemma received_app (l1 l2 : list Call) : received (l1 ++ l2) = received l1 ++ received l2.
Proof.
  induction l1 as [|c l1 IH]; simpl; [reflexivity|].
  destruct c; simpl; rewrite ?IH; reflexivity.
Qed.

Lemma notCancelled_refl (u : Uniter E) : notCancelled u u.
Proof. exists []. rewrite app_nil_r. split; [reflexivity|apply not_elem_of_nil]. Qed.

Lemma notCancelled_setOutside (u0 u : Uniter E) e :
  notCancelled u0 u → notCancelled u0 (setOutside e u).
Proof. exact id. Qed.

Lemma notCancelled_want (u0 u : Uniter E) b :
  notCancelled u0 u →
  notCancelled u0 (mkUniter (leaderElection u) b (outside u) (calls u)).
Proof. exact id. Qed.

Lemma notCancelled_logCall (u0 u : Uniter E) c :
  c ≠ CallReceive TombDying → notCancelled u0 u → notCancelled u0 (logCall c u).
Proof.
  intros Hc (l & Hl & Hno). exists (l ++ [c]). simpl. rewrite Hl, app_assoc.
  split; [reflexivity|]. rewrite received_app. intros Hin.
  apply elem_of_app in Hin as [Hin|Hin]; [contradiction|].
  destruct c; simpl in Hin; try (apply elem_of_nil in Hin; contradiction).
  apply list_elem_of_singleton in Hin. subst ev. contradiction.
Qed.

Lemma justCancelled_logCall (u0 u : Uniter E) :
  notCancelled u0 u → justCancelled u0 (logCall (CallReceive TombDying) u).
Proof.
  intros (l & Hl & Hno). exists l. simpl. rewrite Hl, app_assoc. split; [reflexivity|exact Hno].
Qed.

Lemma justCancelled_setOutside (u0 u : Uniter E) e :
  justCancelled u0 u → justCancelled u0 (setOutside e u).
Proof. exact id. Qed.

Lemma dyingError_ErrDying : dyingError (Some tomb_ErrDying).
Proof. exists tomb_ErrDying. split; reflexivity. Qed.

Lemma dyingError_Annotatef err name : dyingError err → dyingError (errors.Annotatef err name).
Proof. intros (e & -> & Hc). exists (errAnnotated e name). split; [reflexivity|exact Hc]. Qed.

End Cancellation.

(** Closing a goal about the cancellation after stepping through a mode. *)
Ltac cancel_state :=
  repeat first
    [ assumption
    | apply notCancelled_refl
    | apply notCancelled_setOutside
    | apply notCancelled_want
    | apply notCancelled_logCall; [discriminate|]
    | apply justCancelled_setOutside
    | apply justCancelled_logCall ].

Ltac cancel_leaf :=
  lazymatch goal with
  | Hj : justCancelled _ _ |- _ =>
      right; split; [cancel_state|];
      eexists; split; [reflexivity|];
      first [ assumption | apply dyingError_ErrDying
            | apply dyingError_Annotatef; first [assumption | apply dyingError_ErrDying] ]
  | |- _ =>
      first
        [ left; solve [cancel_state]
        | right; split; [solve [cancel_state]|];
          eexists; split; [reflexivity|];
          first [ apply dyingError_ErrDying
                | apply dyingError_Annotatef; apply dyingError_ErrDying ] ]
  end.

(** A received event of which only the select's cases are known: it is
    one the cases allow. *)
Ltac chosen_var :=
  match goal with
  | Hc : chosen ?cs ?u = Some ?ev |- _ =>
      is_var ev;
      let Hin := fresh "Hin" in
      pose proof (proj1 (proj1 (proj1 (enabled_spec _ _ _) (chosen_enabled _ _ _ Hc)))) as Hin;
      clear Hc; destruct ev; simpl in Hin;
      try solve [ exfalso; clear -Hin;
                  repeat (apply elem_of_cons in Hin as [Hin|Hin]; [discriminate|]);
                  apply elem_of_nil in Hin; exact Hin ]
  end.



Section CancellationModes.
Context {E : Type} `{Collaborators E}.









End CancellationModes.

Section Parked.
Context {E : Type} `{Collaborators E}.



End Parked.



Section ParkedModes.
Context {E : Type} `{Collaborators E}.





End ParkedModes.

Section CancellationTheorem.
Context {E : Type} `{Collaborators E}.

Lemma elem_of_received (ev : Event) (l : list Call) :
  ev ∈ received l ↔ CallReceive ev ∈ l.
Proof.
  induction l as [|c l IH]; simpl.
  - split; intros Hin; inversion Hin.
  - destruct c; rewrite ?elem_of_cons, IH; split; intros Hin;
      try (right; exact Hin);
      try (destruct Hin as [Hin|Hin]; [discriminate|exact Hin]).
    + destruct Hin as [->|Hin]; [left; reflexivity|right; exact Hin].
    + destruct Hin as [Hin|Hin]; [left; congruence|right; exact Hin].
Qed.



End CancellationTheorem.



(** ** C10 *)

Section FlagOff.
Context {E : Type} `{Collaborators E}.

Lemma flagOff_refl (w s : bool) (u : Uniter E) :
  leaderElection u = false → (w = true → wantLeaderSettings u = false) → flagOff w s u u.
Proof.
  intros Hf Hw. split; [exact Hf|]. split; [exact Hw|].
  exists []. rewrite app_nil_r. split; [reflexivity|constructor].
Qed.

Lemma flagOff_setOutside (w s : bool) (u0 u : Uniter E) e :
  flagOff w s u0 u → flagOff w s u0 (setOutside e u).
Proof. exact id. Qed.

Lemma flagOff_logCall (w s : bool) (u0 u : Uniter E) c :
  flagOffCall s c = true → flagOff w s u0 u → flagOff w s u0 (logCall c u).
Proof.
  intros Hc (Hf & Hw & l & Hl & Hall). split; [exact Hf|]. split; [exact Hw|].
  exists (l ++ [c]). simpl. rewrite Hl, app_assoc. split; [reflexivity|].
  apply Forall_app. split; [exact Hall|]. constructor; [exact Hc|constructor].
Qed.

Lemma flagOff_unsubscribe (w w' s : bool) (u0 u : Uniter E) :
  flagOff w s u0 u →
  flagOff w' s u0
    (logCall (CallWantLeaderSettingsEvents false)
       (mkUniter (leaderElection u) false (outside u) (calls u))).
Proof.
  intros (Hf & Hw & l & Hl & Hall). split; [exact Hf|]. split; [reflexivity|].
  exists (l ++ [CallWantLeaderSettingsEvents false]). simpl. rewrite Hl, app_assoc.
  split; [reflexivity|].
  apply Forall_app. split; [exact Hall|]. constructor; [destruct s; reflexivity|constructor].
Qed.

Lemma flagOff_flag (w s : bool) (u0 u : Uniter E) : flagOff w s u0 u → leaderElection u = false.
Proof. intros (Hf & _). exact Hf. Qed.

Lemma flagOff_want (s : bool) (u0 u : Uniter E) :
  flagOff true s u0 u → wantLeaderSettings u = false.
Proof. intros (_ & Hw & _). apply Hw. reflexivity. Qed.

Lemma flagOff_weaken (s : bool) (u0 u : Uniter E) : flagOff true s u0 u → flagOff false s u0 u.
Proof. intros (Hf & _ & Hl). split; [exact Hf|]. split; [discriminate|exact Hl]. Qed.

End FlagOff.

(** The state a goal or hypothesis speaks of is a stack of steps over a
    uniter of which [flagOff] is known; these bring it down. *)
Ltac flag_state :=
  repeat first
    [ eassumption
    | lazymatch goal with
      | |- flagOff _ _ _ (setOutside _ _) => apply flagOff_setOutside
      | |- flagOff _ _ _ (logCall (CallWantLeaderSettingsEvents false) _) =>
          eapply flagOff_unsubscribe
      | |- flagOff _ _ _ (logCall _ _) => apply flagOff_logCall; [reflexivity|]
      end ].

(** The flag cannot be on. *)
Ltac flag_on_contra :=
  match goal with
  | Hon : leaderElection ?x = true, Hi : flagOff _ _ _ ?u |- _ =>
      exfalso; cbn [leaderElection setOutside logCall] in Hon;
      rewrite (flagOff_flag _ _ _ _ Hi) in Hon; discriminate Hon
  end.

(** The select cannot have received this event: its channel is not among
    the cases, or the filter does not offer it. *)
Ltac chosen_contra :=
  match goal with
  | Hc : chosen ?cs ?x = Some ?ev, Hi : flagOff _ _ _ ?u |- _ =>
      exfalso;
      let Hin := fresh "Hin" in
      let Hoff := fresh "Hoff" in
      apply chosen_enabled, enabled_spec in Hc as [[Hin Hoff] _];
      first
        [ solve [ simpl in Hin;
                  repeat (apply elem_of_cons in Hin as [Hin|Hin]; [discriminate|]);
                  apply elem_of_nil in Hin; exact Hin ]
        | cbn [chan_of offered wantLeaderSettings setOutside logCall] in Hoff;
          rewrite (flagOff_want _ _ _ Hi) in Hoff; discriminate Hoff ]
  end.

Ltac flag_close :=
  first [ flag_on_contra | solve [flag_state] | chosen_contra ].

Section FlagOffModes.
Context {E : Type} `{Collaborators E}.

Lemma modeAbideDyingLoop_flagOff (w s : bool) (u0 : Uniter E) (fuel : nat) (u : Uniter E) :
  (s = true → w = true) →
  flagOff w s u0 u → wp (modeAbideDyingLoop fuel) (λ _ u', flagOff w s u0 u') u.
Proof.
  intros Hsw Hu. unfold modeAbideDyingLoop.
  destruct s; [rewrite (Hsw eq_refl) in *|]; clear Hsw.
  all: wp_go; try flag_close.
  all: lazymatch goal with
       | |- wp _ (λ _ u', flagOff ?w' ?s' _ u') _ =>
           apply (wp_forLoop modeAbideDyingLoop_body (λ _ u', flagOff w' s' u0 u')
                    (λ _ u', flagOff w' s' u0 u')); [auto| |flag_state]
       end.
  all: intros ? ? ?; unfold modeAbideDyingLoop_body; wp_go; flag_close.
Qed.

Lemma modeAbideAliveLoop_flagOff (w s : bool) (u0 : Uniter E) (fuel : nat) (u : Uniter E) :
  (s = true → w = true) →
  flagOff w s u0 u → wp (modeAbideAliveLoop fuel) (λ _ u', flagOff w s u0 u') u.
Proof.
  intros Hsw Hu. unfold modeAbideAliveLoop.
  apply (wp_forLoop (modeAbideAliveLoop_body fuel)
           (λ locals u', locals = (false, false) ∧ flagOff w s u0 u')
           (λ _ u', flagOff w s u0 u')); [intros ? ? [_ ?]; assumption| |auto].
  intros ? ? [-> ?]. unfold modeAbideAliveLoop_body.
  destruct s; [rewrite (Hsw eq_refl) in *|]; clear Hsw.
  all: wp_go; try (split; [reflexivity|]); try flag_close.
  all: lazymatch goal with
       | Hi : flagOff ?w' ?s' _ _ |- _ =>
           eapply wp_mono;
           [|apply (modeAbideDyingLoop_flagOff w' s' u0); [intros Hx; first [reflexivity|discriminate Hx]|flag_state]]
       end.
  all: intros r ? ?; destruct r; wp_go; flag_close.
Qed.

End FlagOffModes.

Section FlagOffAbide.
Context {E : Type} `{Collaborators E}.

Lemma flagOff_relax (w : bool) (u0 u : Uniter E) : flagOff w true u0 u → flagOff w false u0 u.
Proof.
  intros (Hf & Hw & l & Hl & Hall). split; [exact Hf|]. split; [exact Hw|].
  exists l. split; [exact Hl|]. eapply Forall_impl; [exact Hall|].
  intros c Hc. unfold flagOffCall in *. apply andb_prop in Hc as [-> _]. reflexivity.
Qed.

(** With the flag off, every call ModeAbide makes has nothing to do with
    leadership or leader settings. *)
Lemma ModeAbide_flagOff (u0 : Uniter E) (fuel : nat) (u : Uniter E) :
  flagOff false true u0 u → wp (ModeAbide fuel) (λ _ u', flagOff false true u0 u') u.
Proof.
  intros Hu. unfold ModeAbide.
  wp_go; try flag_close.
  all: try chosen_var.
  all: try flag_close.
  all: lazymatch goal with
       | |- wp (modeAbideDyingLoop _) _ _ =>
           eapply wp_mono;
           [|apply (modeAbideDyingLoop_flagOff true true u0); [reflexivity|flag_state]]
       | |- wp (modeAbideAliveLoop _) _ _ =>
           eapply wp_mono;
           [|apply (modeAbideAliveLoop_flagOff true true u0); [reflexivity|flag_state]]
       end.
  all: intros r ? Hr; apply flagOff_weaken in Hr; destruct r; wp_go; flag_close.
Qed.

(** With the flag off, once ModeAbide has passed its check of the state
    and fixed the deployment, the first call it makes unsubscribes from
    leader-settings events, and they stay unsubscribed. *)
Lemma ModeAbide_unsubscribes_first (fuel : nat) (u : Uniter E) :
  leaderElection u = false →
  operation.Kind_ (ext_operationState (outside u)) = operation.Continue →
  (ext_Fix (outside u)).1 = None →
  wantLeaderSettings (ModeAbide fuel u).2 = false
  ∧ ∃ rest, callsSince u (ModeAbide fuel u).2 = CallWantLeaderSettingsEvents false :: rest.
Proof.
  intros Hf Hk Hfix.
  destruct (ext_Fix (outside u)) as [a e1] eqn:HFix. simpl in Hfix. subst a.
  pose (B := logCall (CallWantLeaderSettingsEvents false)
               (mkUniter (leaderElection u) false e1 (calls u))).
  assert (Hbase : flagOff true true B B) by (apply flagOff_refl; [exact Hf|reflexivity]).
  assert (Hwp : wp (ModeAbide fuel) (λ _ u', flagOff true true B u') u).
  { unfold ModeAbide.
    wp_go;
      try match goal with
          | Hx : ext_Fix (outside u) = (_, ?e') |- _ =>
              rewrite HFix in Hx;
              first [discriminate Hx | injection Hx as Hx; subst e']
          end;
      try discriminate; try contradiction;
      try match goal with
          | Hon : leaderElection _ = true |- _ =>
              cbn [leaderElection setOutside] in Hon; congruence
          end.
    all: try chosen_var.
    all: try flag_close.
    all: lazymatch goal with
         | |- wp (modeAbideDyingLoop _) _ _ =>
             eapply wp_mono;
             [|apply (modeAbideDyingLoop_flagOff true true B); [reflexivity|flag_state]]
         | |- wp (modeAbideAliveLoop _) _ _ =>
             eapply wp_mono;
             [|apply (modeAbideAliveLoop_flagOff true true B); [reflexivity|flag_state]]
         end.
    all: intros r ? Hr; destruct r; wp_go; flag_close. }
  destruct Hwp as (_ & Hw & l & Hl & _). split; [apply Hw; reflexivity|].
  exists l. apply callsSince_app. rewrite Hl. subst B. simpl.
  rewrite <- app_assoc. reflexivity.
Qed.

End FlagOffAbide.

Section Fed.
Context {E : Type} `{Collaborators E}.

Lemma fedSince_refl (u : Uniter E) : fedSince u u.
Proof.
  exists []. rewrite app_nil_r. split; [reflexivity|]. intros op Hin. inversion Hin.
Qed.

Lemma fedSince_setOutside (u0 u : Uniter E) e : fedSince u0 u → fedSince u0 (setOutside e u).
Proof. exact id. Qed.

Lemma fedSince_want (u0 u : Uniter E) b :
  fedSince u0 u →
  fedSince u0 (logCall (CallWantLeaderSettingsEvents b)
                 (mkUniter (leaderElection u) b (outside u) (calls u))).
Proof.
  intros (l & Hl & Hfed). exists (l ++ [CallWantLeaderSettingsEvents b]). simpl.
  rewrite Hl, app_assoc. split; [reflexivity|]. intros op Hin.
  rewrite operations_app in Hin. simpl in Hin. rewrite app_nil_r in Hin.
  specialize (Hfed op Hin). rewrite received_app. simpl. rewrite app_nil_r. exact Hfed.
Qed.

Lemma fedHooks_grows (l : list Call) (c : Call) (op : creator) :
  match op with
  | newRunHookOp hookInfo =>
      RelationHook hookInfo ∈ received l ∨ StorageHook hookInfo ∈ received l
  | newRetryHookOp _ => False
  | _ => True
  end →
  match op with
  | newRunHookOp hookInfo =>
      RelationHook hookInfo ∈ received (l ++ [c])
      ∨ StorageHook hookInfo ∈ received (l ++ [c])
  | newRetryHookOp _ => False
  | _ => True
  end.
Proof.
  destruct op; try exact id. rewrite received_app.
  intros [Hin|Hin]; [left|right]; apply elem_of_app; left; exact Hin.
Qed.

Lemma fedSince_logCall (u0 u : Uniter E) c :
  ownCall c → fedSince u0 u → fedSince u0 (logCall c u).
Proof.
  intros Hc (l & Hl & Hfed). exists (l ++ [c]). simpl. rewrite Hl, app_assoc.
  split; [reflexivity|]. intros op Hin. rewrite operations_app in Hin.
  apply elem_of_app in Hin as [Hin|Hin].
  - apply fedHooks_grows, Hfed, Hin.
  - destruct c as [op'| | |]; simpl in Hin; try (inversion Hin; fail).
    apply list_elem_of_singleton in Hin. subst op'.
    destruct op; try exact I; contradiction.
Qed.

Lemma fedSince_fed (u0 u : Uniter E) (ev : Event) (hookInfo : hook.Info) :
  ev = RelationHook hookInfo ∨ ev = StorageHook hookInfo →
  fedSince u0 u →
  fedSince u0 (logCall (CallRunOperation (newRunHookOp hookInfo)) (logCall (CallReceive ev) u)).
Proof.
  intros Hev (l & Hl & Hfed).
  exists ((l ++ [CallReceive ev]) ++ [CallRunOperation (newRunHookOp hookInfo)]). simpl.
  rewrite Hl, !app_assoc. split; [reflexivity|]. intros op Hin.
  rewrite operations_app in Hin. apply elem_of_app in Hin as [Hin|Hin].
  - apply fedHooks_grows. rewrite operations_app in Hin. simpl in Hin.
    rewrite app_nil_r in Hin. apply fedHooks_grows, Hfed, Hin.
  - simpl in Hin. apply list_elem_of_singleton in Hin. subst op.
    rewrite !received_app. simpl. rewrite app_nil_r.
    destruct Hev as [-> | ->]; [left|right]; apply elem_of_app; right; left.
Qed.

End Fed.

Ltac fed_state :=
  repeat first
    [ eassumption
    | lazymatch goal with
      | |- fedSince ?u ?u => apply fedSince_refl
      | |- fedSince _ (setOutside _ (logCall (CallReceive _) _)) =>
          apply fedSince_setOutside; apply fedSince_logCall; [exact I|]
      | |- fedSince _ (setOutside _ _) => apply fedSince_setOutside
      | |- fedSince _ (logCall (CallWantLeaderSettingsEvents _) (mkUniter _ _ _ _)) =>
          apply fedSince_want
      | |- fedSince _ (logCall (CallRunOperation (newRunHookOp _)) (logCall (CallReceive _) _)) =>
          apply fedSince_fed; [first [left; reflexivity | right; reflexivity]|]
      | |- fedSince _ (logCall _ _) => apply fedSince_logCall; [exact I|]
      end ].

Section FedModes.
Context {E : Type} `{Collaborators E}.

Lemma modeAbideDyingLoop_fed (u0 : Uniter E) (fuel : nat) (u : Uniter E) :
  fedSince u0 u → wp (modeAbideDyingLoop fuel) (λ _ u', fedSince u0 u') u.
Proof.
  intros Hu. unfold modeAbideDyingLoop. wp_go; try solve [fed_state].
  all: apply (wp_forLoop modeAbideDyingLoop_body (λ _ u', fedSince u0 u')
                (λ _ u', fedSince u0 u')); [auto| |fed_state].
  all: intros ? ? ?; unfold modeAbideDyingLoop_body; wp_go; solve [fed_state].
Qed.

Lemma modeAbideAliveLoop_fed (u0 : Uniter E) (fuel : nat) (u : Uniter E) :
  fedSince u0 u → wp (modeAbideAliveLoop fuel) (λ _ u', fedSince u0 u') u.
Proof.
  intros Hu. unfold modeAbideAliveLoop.
  apply (wp_forLoop (modeAbideAliveLoop_body fuel) (λ _ u', fedSince u0 u')
           (λ _ u', fedSince u0 u')); [auto| |exact Hu].
  intros ? ? ?. unfold modeAbideAliveLoop_body. wp_go; try solve [fed_state].
  all: eapply wp_mono; [|apply (modeAbideDyingLoop_fed u0); fed_state].
  all: intros r ? ?; destruct r; wp_go; solve [fed_state].
Qed.

Lemma ModeAbide_fed (fuel : nat) (u : Uniter E) :
  wp (ModeAbide fuel) (λ _ u', fedSince u u') u.
Proof.
  unfold ModeAbide. wp_go; try solve [fed_state].
  all: eapply wp_mono;
    [|first [ apply (modeAbideDyingLoop_fed u) | apply (modeAbideAliveLoop_fed u) ];
      fed_state].
  all: intros r ? ?; destruct r; wp_go; solve [fed_state].
Qed.

End FedModes.

Section FlagOffTheorem.
Context {E : Type} `{Collaborators E}.

Lemma callMode_flagOff (u0 : Uniter E) (fuel : nat) (m : Mode) (u : Uniter E) :
  flagOff false false u0 u → wp (callMode fuel m) (λ _ u', flagOff false false u0 u') u.
Proof.
  intros Hu. destruct m; simpl callMode.
  - unfold ModeContinue. wp_go; flag_close.
  - unfold ModeInstalling_func. wp_go; flag_close.
  - unfold ModeUpgrading_func. wp_go; flag_close.
  - unfold ModeTerminating. wp_go; try flag_close.
    eapply wp_mono;
      [|apply (wp_forLoop ModeTerminating_body (λ _ u', flagOff false false u0 u')
                 (λ _ u', flagOff false false u0 u')); [auto| |flag_state]].
    + intros r ? ?. destruct r; wp_go; flag_close.
    + intros ? ? ?. unfold ModeTerminating_body. wp_go; flag_close.
  - assert (Hs : flagOff false true u u)
      by (apply flagOff_refl; [eapply flagOff_flag, Hu|discriminate]).
    pose proof (ModeAbide_flagOff u fuel u Hs) as Ha. unfold wp in Ha |- *.
    apply flagOff_relax in Ha.
    destruct Hu as (_ & _ & l & Hl & Hall).
    destruct Ha as (Hf' & Hw' & l' & Hl' & Hall').
    split; [exact Hf'|]. split; [exact Hw'|].
    exists (l ++ l'). rewrite Hl', Hl, app_assoc. split; [reflexivity|].
    apply Forall_app. split; assumption.
  - unfold ModeHookError. wp_go; try flag_close.
    all: eapply wp_mono;
      [|apply (wp_forLoop (ModeHookError_body _ _ _)
                 (λ ld u', ld = false ∧ flagOff false false u0 u')
                 (λ _ u', flagOff false false u0 u'));
        [intros ? ? [_ ?]; assumption| |split; [reflexivity|flag_state]]].
    all: try (intros r ? ?; destruct r; wp_go; flag_close).
    all: intros ? ? [-> ?]; unfold ModeHookError_body; wp_go;
      try (split; [reflexivity|]); flag_close.
  - unfold ModeConflicted_func. wp_go; flag_close.
Qed.

Lemma Forall_operations (P : creator → Prop) (l : list Call) :
  Forall (λ c, match c with CallRunOperation op => P op | _ => True end) l →
  Forall P (operations l).
Proof.
  induction 1 as [|c l Hc _ IH]; simpl; [constructor|].
  destruct c; try exact IH. constructor; assumption.
Qed.

(** C10 (amended).  With the LeaderElection flag disabled: no mode runs
    an accept or a resign leadership operation, and none receives from a
    leadership wait (the alive loop and ModeHookError arm none, the dying
    loop does not resign); ModeContinue goes from the metrics collector
    straight to its switch, without asking the tracker; and ModeAbide
    only ever unsubscribes from leader-settings events, does so with its
    first call once it has checked the state and fixed the deployment,
    and neither receives a leader-settings event nor runs the
    leader-settings-changed hook (through no creator, as long as the
    relations and the storage hand over no hook of that kind). *)
Theorem flag_off_no_leadership (fuel : nat) (m : Mode) (u : Uniter E) :
  leaderElection u = false →
  let st := ext_operationState (outside u) in
  let since := callsSince u (callMode fuel m u).2 in
  let abide := callsSince u (ModeAbide fuel u).2 in
  (Forall (λ op, isLeadershipOp op = false) (operations since)
   ∧ (LeaderElected ∉ received since) ∧ (LeaderDeposed ∉ received since))
  ∧ (∀ e1, operation.Kind_ st ≠ operation.Install → operation.Kind_ st ≠ operation.Upgrade →
       ext_initializeMetricsCollector (outside u) = (None, e1) →
       ModeContinue u
       = modeContext "ModeContinue" (ModeContinue_switch st) (setOutside e1 u))
  ∧ ((∀ b, CallWantLeaderSettingsEvents b ∈ abide → b = false)
     ∧ (LeaderSettingsEvent ∉ received abide)
     ∧ (newSimpleRunHookOp "leader-settings-changed" ∉ operations abide)
     ∧ ((∀ hookInfo, RelationHook hookInfo ∈ received abide
                     ∨ StorageHook hookInfo ∈ received abide →
                     hook.Kind hookInfo ≠ "leader-settings-changed") →
        ∀ op, op ∈ operations abide → hookRun op ≠ Some "leader-settings-changed")
     ∧ (operation.Kind_ st = operation.Continue → (ext_Fix (outside u)).1 = None →
        wantLeaderSettings (ModeAbide fuel u).2 = false
        ∧ ∃ rest, abide = CallWantLeaderSettingsEvents false :: rest)).
Proof.
  intros Hf st since abide. split; [|split].
  - destruct (callMode_flagOff u fuel m u (flagOff_refl false false u Hf ltac:(discriminate)))
      as (_ & _ & l & Hl & Hall).
    subst since. rewrite (callsSince_app u _ l Hl).
    split; [|split].
    + apply Forall_operations. eapply Forall_impl; [exact Hall|].
      intros [op| | |] Hc; try exact I. unfold flagOffCall in Hc. simpl in Hc.
      rewrite andb_true_r in Hc. apply negb_true_iff in Hc. exact Hc.
    + intros Hin. apply elem_of_received in Hin.
      rewrite Forall_forall in Hall. specialize (Hall _ Hin). discriminate Hall.
    + intros Hin. apply elem_of_received in Hin.
      rewrite Forall_forall in Hall. specialize (Hall _ Hin). discriminate Hall.
  - intros e1 Hi Hu Hm. apply ModeContinue_reaches_switch; [exact Hi|exact Hu|].
    apply reaches_flag_off; assumption.
  - destruct (ModeAbide_flagOff u fuel u (flagOff_refl false true u Hf ltac:(discriminate)))
      as (_ & _ & l & Hl & Hall).
    destruct (ModeAbide_fed fuel u) as (l' & Hl' & Hfed).
    assert (l' = l) by (rewrite Hl in Hl'; apply app_inv_head in Hl'; congruence).
    subst l'. clear Hl'.
    subst abide. rewrite (callsSince_app u _ l Hl).
    rewrite Forall_forall in Hall.
    assert (Hhook : newSimpleRunHookOp "leader-settings-changed" ∉ operations l).
    { intros Hin.
      assert (Hcall : CallRunOperation (newSimpleRunHookOp "leader-settings-changed") ∈ l).
      { clear -Hin. induction l as [|c l IH]; simpl in Hin; [inversion Hin|].
        destruct c; try (right; apply IH; exact Hin).
        apply elem_of_cons in Hin as [<-|Hin]; [left|right; apply IH; exact Hin]. }
      specialize (Hall _ Hcall). discriminate Hall. }
    split; [|split; [|split; [|split]]].
    + intros b Hin. specialize (Hall _ Hin). unfold flagOffCall in Hall. simpl in Hall.
      apply negb_true_iff in Hall. exact Hall.
    + intros Hin. apply elem_of_received in Hin. specialize (Hall _ Hin). discriminate Hall.
    + exact Hhook.
    + intros Hfeed op Hin Hrun. specialize (Hfed op Hin).
      destruct op; try discriminate Hrun; injection Hrun as Hrun.
      * apply (Hfeed hookInfo Hfed Hrun).
      * subst kind. apply Hhook, Hin.
      * exact Hfed.
    + intros Hk Hfix.
      pose proof (ModeAbide_unsubscribes_first fuel u Hf Hk Hfix) as [Hw Hin].
      split; [exact Hw|]. rewrite (callsSince_app u _ l Hl) in Hin. exact Hin.
Qed.

End FlagOffTheorem.

Lemma flag_off_no_leadership_witness :
  (Forall (λ op, isLeadershipOp op = false)
     (operations (callsSince abide_flag_off_input (callMode 3 mAbide abide_flag_off_input).2))
   ∧ (LeaderElected ∉ received (callsSince abide_flag_off_input
                                  (callMode 3 mAbide abide_flag_off_input).2))
   ∧ (LeaderDeposed ∉ received (callsSince abide_flag_off_input
                                  (callMode 3 mAbide abide_flag_off_input).2)))
  ∧ (∀ op, op ∈ operations (callsSince abide_flag_off_input
                              (ModeAbide 3 abide_flag_off_input).2) →
           hookRun op ≠ Some "leader-settings-changed")
  ∧ wantLeaderSettings (ModeAbide 3 abide_flag_off_input).2 = false
  ∧ ∃ rest, callsSince abide_flag_off_input (ModeAbide 3 abide_flag_off_input).2
            = CallWantLeaderSettingsEvents false :: rest.
Proof.
  pose proof (flag_off_no_leadership 3 mAbide abide_flag_off_input eq_refl) as W.
  cbv zeta in W. destruct W as (W1 & _ & _ & _ & _ & W2 & W3).
  split; [exact W1|]. split; [|apply W3; reflexivity].
  apply W2. intros hookInfo Hin. exfalso. vm_compute in Hin.
  destruct Hin as [Hin|Hin];
    repeat (apply elem_of_cons in Hin as [Hin|Hin]; [discriminate Hin|]);
    apply elem_of_nil in Hin; exact Hin.
Defined.

(** The claim as first stated fails: ModeAbide does not always disable
    leader-settings events.  Called on a state that is not Kind=Continue,
    or when the deployment cannot be fixed, it returns its error before
    it gets to the subscription: the filter is left sending
    leader-settings events, and no call is made. *)
Lemma flag_off_no_leadership_counterexample :
  (leaderElection pending_subscribed_input = false
   ∧ wantLeaderSettings pending_subscribed_input = true
   ∧ wantLeaderSettings (ModeAbide 3 pending_subscribed_input).2 = true
   ∧ calls (ModeAbide 3 pending_subscribed_input).2 = [])
  ∧ (leaderElection abide_flag_off_input = false
     ∧ wantLeaderSettings abide_flag_off_input = true
     ∧ (@ModeAbide Script fixFails 3 abide_flag_off_input).1
       = Returned (None, Some (errAnnotated
                     (errors.Trace (errExternal "cannot fix the deployment")) "ModeAbide"))
     ∧ wantLeaderSettings (@ModeAbide Script fixFails 3 abide_flag_off_input).2 = true
     ∧ calls (@ModeAbide Script fixFails 3 abide_flag_off_input).2 = []).
Proof. vm_compute. repeat split; reflexivity. Qed.

(** The steady state on that input: the leader-settings event and the
    leadership gain that could proceed are never received; the config
    change is, then the cancellation. *)
Example ModeAbide_flag_off_run :
  calls (ModeAbide 3 abide_flag_off_input).2
  = [CallWantLeaderSettingsEvents false;
     CallSetAgentStatus params.StatusActive "" ∅;
     CallReceive ConfigEvent;
     CallRunOperation (newSimpleRunHookOp hooks.ConfigChanged);
     CallReceive TombDying].
Proof. vm_compute. reflexivity. Qed.

(** * Further properties of the modes *)

(** ** The transitions between modes *)

Section Transitions.
Context {E : Type} `{Collaborators E}.

Lemma modeAbideDyingLoop_follows (fuel : nat) (u : Uniter E) :
  wp (modeAbideDyingLoop fuel)
    (λ r _, match r with Returned (Some m, _) => m = mContinue | _ => True end) u.
Proof. exact (modeAbideDyingLoop_never_abides fuel u). Qed.

Lemma modeAbideAliveLoop_follows (fuel : nat) (u : Uniter E) :
  wp (modeAbideAliveLoop fuel) (followsFrom mAbide) u.
Proof.
  unfold modeAbideAliveLoop.
  apply (wp_forLoop (modeAbideAliveLoop_body fuel) (λ _ _, True) (followsFrom mAbide));
    [intros; exact I| |exact I].
  intros ? ? _. unfold modeAbideAliveLoop_body.
  wp_go; try solve [exact I | reflexivity].
  all: eapply wp_mono; [|apply modeAbideDyingLoop_follows].
  all: intros [[[next|] ?]| | |] ? Hr; simpl in *; try exact I.
  all: subst next; reflexivity.
Qed.

(** X1.  The transitions of the state machine.  ModeContinue never hands
    over to a Conflicted mode; ModeInstalling, ModeUpgrading and
    ModeConflicted hand over to ModeContinue only; ModeAbide and
    ModeHookError to ModeContinue or to an Upgrading mode only; and
    ModeTerminating never returns a next mode. *)
Theorem mode_transitions (fuel : nat) (m : Mode) (u : Uniter E) :
  match (callMode fuel m u).1 with
  | Returned (Some next, _) => mayFollow m next = true
  | _ => True
  end.
Proof.
  change (wp (callMode fuel m) (followsFrom m) u).
  destruct m; simpl callMode.
  - unfold ModeContinue. wp_go; solve [exact I | reflexivity].
  - unfold ModeInstalling_func. wp_go; solve [exact I | reflexivity].
  - unfold ModeUpgrading_func. wp_go; solve [exact I | reflexivity].
  - unfold ModeTerminating. wp_go; try solve [exact I | reflexivity].
    eapply wp_mono;
      [|apply (wp_forLoop ModeTerminating_body (λ _ _, True)
                 (λ r _, match r with Returned (Some _, _) => False | _ => True end));
        [intros; exact I| |exact I]].
    + intros [[[next|] ?]| | |] ? Hr; try contradiction; wp_go; exact I.
    + intros ? ? _. unfold ModeTerminating_body. wp_go; exact I.
  - unfold ModeAbide. wp_go; try solve [exact I | reflexivity].
    all: eapply wp_mono;
      [|first [ apply modeAbideDyingLoop_follows | apply modeAbideAliveLoop_follows ]].
    all: intros [[[next|] ?]| | |] ? Hr; simpl in Hr; try subst next;
      wp_go; solve [exact I | reflexivity | exact Hr].
  - unfold ModeHookError. wp_go; try solve [exact I | reflexivity].
    all: eapply wp_mono;
      [|apply (wp_forLoop (ModeHookError_body _ _ _) (λ _ _, True) (followsFrom mHookError));
        [intros; exact I| |exact I]].
    all: try (intros [[[next|] ?]| | |] ? Hr; simpl in Hr; wp_go;
              solve [exact I | exact Hr]).
    all: intros ? ? _; unfold ModeHookError_body; wp_go; solve [exact I | reflexivity].
  - unfold ModeConflicted_func. wp_go; solve [exact I | reflexivity].
Qed.

End Transitions.

(** ** The two results of a mode *)

Section Results.
Context {E : Type} `{Collaborators E}.

Lemma modeAbideDyingLoop_exclusive (fuel : nat) (u : Uniter E) :
  wp (modeAbideDyingLoop fuel) returnsExclusive u.
Proof.
  unfold modeAbideDyingLoop. wp_go; try exact I.
  all: apply (wp_forLoop modeAbideDyingLoop_body (λ _ _, True) returnsExclusive);
    [intros; exact I| |exact I].
  all: intros ? ? _; unfold modeAbideDyingLoop_body; wp_go; exact I.
Qed.

Lemma modeAbideAliveLoop_exclusive (fuel : nat) (u : Uniter E) :
  wp (modeAbideAliveLoop fuel) returnsExclusive u.
Proof.
  unfold modeAbideAliveLoop.
  apply (wp_forLoop (modeAbideAliveLoop_body fuel) (λ _ _, True) returnsExclusive);
    [intros; exact I| |exact I].
  intros ? ? _. unfold modeAbideAliveLoop_body. wp_go; try exact I.
  all: eapply wp_mono; [|apply modeAbideDyingLoop_exclusive].
  all: intros [[[?|] [?|]]| | |] ? Hr; simpl in Hr; try contradiction; exact I.
Qed.

(** X3.  Every mode but ModeAbide returns either a next mode or an error,
    never both and never neither. *)
Theorem mode_results_are_exclusive (fuel : nat) (m : Mode) (u : Uniter E) :
  m ≠ mAbide →
  match (callMode fuel m u).1 with
  | Returned res => exclusive res
  | _ => True
  end.
Proof.
  intros Hm. change (wp (callMode fuel m) returnsExclusive u).
  destruct m; simpl callMode; try contradiction.
  - unfold ModeContinue. wp_go; exact I.
  - unfold ModeInstalling_func. wp_go; exact I.
  - unfold ModeUpgrading_func. wp_go; exact I.
  - unfold ModeTerminating. wp_go; try exact I.
    eapply wp_mono;
      [|apply (wp_forLoop ModeTerminating_body (λ _ _, True) returnsExclusive);
        [intros; exact I| |exact I]].
    + intros [[[?|] [?|]]| | |] ? Hr; simpl in Hr; try contradiction; wp_go; exact I.
    + intros ? ? _. unfold ModeTerminating_body. wp_go; exact I.
  - unfold ModeHookError. wp_go; try exact I.
    all: eapply wp_mono;
      [|apply (wp_forLoop (ModeHookError_body _ _ _) (λ _ _, True) returnsExclusive);
        [intros; exact I| |exact I]].
    all: try (intros [[[?|] [?|]]| | |] ? Hr; simpl in Hr; try contradiction; wp_go; exact I).
    all: intros ? ? _; unfold ModeHookError_body; wp_go; exact I.
  - unfold ModeConflicted_func. wp_go; exact I.
Qed.

(** X4.  ModeAbide never returns two nil results.  When
    relations.StopHooks does not fail, it returns exactly one of a next
    mode and an error, as every other mode does: a next mode together
    with an error can only come from a failure of StopHooks on the way
    out. *)
Theorem ModeAbide_results (fuel : nat) (u : Uniter E) :
  match (ModeAbide fuel u).1 with
  | Returned (None, None) => False
  | _ => True
  end
  ∧ ((∀ e, (ext_StopHooks e).1 = None) →
     match (ModeAbide fuel u).1 with
     | Returned res => exclusive res
     | _ => True
     end).
Proof.
  split.
  - pose (Q := λ (r : Result ModeResult) (_ : Uniter E),
            match r with
            | Returned (None, None) => False
            | _ => True
            end).
    change (wp (ModeAbide fuel) Q u). unfold ModeAbide.
    wp_go; try exact I.
    all: eapply wp_mono;
      [|first [ apply modeAbideDyingLoop_exclusive | apply modeAbideAliveLoop_exclusive ]].
    all: intros [[[?|] [?|]]| | |] u2 Hr; simpl in Hr; try contradiction; wp_go; exact I.
  - intros Hstop. change (wp (ModeAbide fuel) returnsExclusive u). unfold ModeAbide.
    wp_go; try exact I.
    all: eapply wp_mono;
      [|first [ apply modeAbideDyingLoop_exclusive | apply modeAbideAliveLoop_exclusive ]].
    all: intros [[[?|] [?|]]| | |] u2 Hr; simpl in Hr; try contradiction; wp_go;
      try exact I.
    all: match goal with
         | Hs : ext_StopHooks (outside ?x) = (Some _, _) |- _ =>
             pose proof (Hstop (outside x)) as Hn; rewrite Hs in Hn; discriminate Hn
         end.
Qed.

End Results.

Lemma mode_results_are_exclusive_witness :
  match (callMode 3 mHookError install_failed_input).1 with
  | Returned res => exclusive res
  | _ => True
  end.
Proof.
  apply (mode_results_are_exclusive 3 mHookError install_failed_input). discriminate.
Defined.

Lemma ModeAbide_results_witness :
  match (ModeAbide 2 abide_upgrade_input).1 with
  | Returned res => exclusive res
  | _ => True
  end.
Proof.
  apply (ModeAbide_results 2 abide_upgrade_input). intros e. reflexivity.
Defined.

(** ModeAbide does return both: an upgrade request makes the alive loop
    return the Upgrading mode, and the relations' hooks cannot be stopped
    on the way out. *)
Example ModeAbide_returns_mode_and_error :
  (@ModeAbide Script stopHooksFail 2 abide_upgrade_input).1
  = Returned (Some (mUpgrading cs_foo_4),
              Some (errAnnotated (errExternal "cannot stop hooks") "ModeAbide")).
Proof. vm_compute. reflexivity. Qed.

(** ** Interrupted actions; installing and upgrading *)

Section MoreDispatch.
Context {E : Type} `{Collaborators E}.

(** X5.  An interrupted action is not run again.  On a state with
    Kind=RunAction that records its hook, a call of ModeContinue that
    reaches its switch makes exactly one further call, the skip-hook
    operation that recommits the recorded hook; it returns ModeContinue
    when that succeeds and the traced error when it fails.  On a
    Kind=RunAction state that records no hook the call panics. *)
Theorem ModeContinue_abandons_action (u u1 : Uniter E) :
  let st := ext_operationState (outside u) in
  operation.Kind_ st = operation.RunAction →
  reachesSwitch st u u1 →
  match operation.Hook st with
  | Some hookInfo =>
      ModeContinue u
      = (Returned (continuedAfter "ModeContinue" (operationError (newSkipHookOp hookInfo) u1)),
         afterOperation (newSkipHookOp hookInfo) u1)
      ∧ callsSince u1 (ModeContinue u).2 = [CallRunOperation (newSkipHookOp hookInfo)]
  | None => ModeContinue u = (Panicked, u1)
  end.
Proof.
  intros st Hk Hr.
  rewrite (ModeContinue_reaches_switch u u1); [|fold st; congruence..|exact Hr].
  fold st. unfold ModeContinue_switch. rewrite Hk.
  destruct (operation.Hook st) as [hookInfo|]; simpl deref.
  - change (modeContext "ModeContinue" _ u1) with
      (modeContext "ModeContinue" (continueAfter (newSkipHookOp hookInfo)) u1).
    rewrite continueAfter_eq. split; [reflexivity|]. apply callsSince_afterOperation.
  - reflexivity.
Qed.

(** X6.  ModeInstalling sets the installing status before anything else.
    If that fails it returns the traced error and runs no operation;
    otherwise it runs exactly one operation, the install of its charm
    URL, and returns ModeContinue when it succeeds and the traced error
    when it fails.  ModeUpgrading sets no status: it runs exactly one
    operation, the upgrade to its charm URL, with the same returns. *)
Theorem ModeInstalling_ModeUpgrading_run_one_operation (curl : option charm.URL)
    (u : Uniter E) :
  let u1 := afterStatus params.StatusInstalling "" ∅ u in
  let install := newInstallOp curl in
  let upgrade := newUpgradeOp curl in
  match (ext_SetAgentStatus params.StatusInstalling "" ∅ (outside u)).1 with
  | Some e =>
      ModeInstalling_func curl u
      = (Returned (None, Some (errAnnotated (errors.Trace e) (modeName (mInstalling curl)))), u1)
      ∧ callsSince u u1 = [CallSetAgentStatus params.StatusInstalling "" ∅]
  | None =>
      ModeInstalling_func curl u
      = (Returned (continuedAfter (modeName (mInstalling curl)) (operationError install u1)),
         afterOperation install u1)
      ∧ callsSince u (afterOperation install u1)
        = [CallSetAgentStatus params.StatusInstalling "" ∅; CallRunOperation install]
  end
  ∧ ModeUpgrading_func curl u
    = (Returned (continuedAfter (modeName (mUpgrading curl)) (operationError upgrade u)),
       afterOperation upgrade u)
  ∧ callsSince u (afterOperation upgrade u) = [CallRunOperation upgrade].
Proof.
  intros u1 install upgrade. split; [|split].
  - subst u1 install.
    unfold ModeInstalling_func, modeContext, continueAfter, u_unit_SetAgentStatus,
      u_runOperation, record, extCall, afterStatus, afterOperation, operationError,
      continuedAfter, modeName, bind.
    cbn [fst snd outside logCall setOutside calls leaderElection wantLeaderSettings].
    destruct (ext_SetAgentStatus params.StatusInstalling "" ∅ (outside u)) as [[e|] e1];
      cbn [fst snd outside logCall setOutside calls leaderElection wantLeaderSettings].
    + split; [reflexivity|]. apply callsSince_app. reflexivity.
    + destruct (ext_runOperation (newInstallOp curl) e1) as [[e|] e2];
        (split; [reflexivity|]); apply callsSince_app; simpl;
        rewrite <- app_assoc; reflexivity.
  - apply continueAfter_eq.
  - apply callsSince_afterOperation.
Qed.

End MoreDispatch.

Lemma ModeContinue_abandons_action_witness :
  ModeContinue action_interrupted_input
  = (Returned (Some mContinue, None),
     afterOperation (newSkipHookOp hook_config_changed) action_interrupted_input)
  ∧ callsSince action_interrupted_input (ModeContinue action_interrupted_input).2
    = [CallRunOperation (newSkipHookOp hook_config_changed)].
Proof.
  pose proof (ModeContinue_abandons_action action_interrupted_input action_interrupted_input)
    as W.
  cbv zeta in W. apply W; [reflexivity|].
  eapply (reaches_flag_off _ action_interrupted_input); reflexivity.
Defined.

(** ** Leadership loss while a hook error is pending *)

Section HookErrorResign.
Context {E : Type} `{Collaborators E}.

Lemma resignations_app (l1 l2 : list Call) :
  resignations (l1 ++ l2) = (resignations l1 + resignations l2)%nat.
Proof. unfold resignations. rewrite operations_app, filter_app, length_app. reflexivity. Qed.

Lemma resigned_refl (u : Uniter E) : resigned 0 u u.
Proof. exists []. rewrite app_nil_r. split; reflexivity. Qed.

Lemma resigned_setOutside (n : nat) (u0 u : Uniter E) e :
  resigned n u0 u → resigned n u0 (setOutside e u).
Proof. exact id. Qed.

Lemma resigned_logCall (n : nat) (u0 u : Uniter E) c :
  resignations [c] = 0%nat → resigned n u0 u → resigned n u0 (logCall c u).
Proof.
  intros Hc (l & Hl & Hn). exists (l ++ [c]). simpl. rewrite Hl, app_assoc.
  split; [reflexivity|]. rewrite resignations_app, Hc, Hn. apply Nat.add_0_r.
Qed.

Lemma resigned_resign (n : nat) (u0 u : Uniter E) :
  resigned n u0 u → resigned (S n) u0 (logCall (CallRunOperation newResignLeadershipOp) u).
Proof.
  intros (l & Hl & Hn). exists (l ++ [CallRunOperation newResignLeadershipOp]). simpl.
  rewrite Hl, app_assoc. split; [reflexivity|]. rewrite resignations_app, Hn.
  rewrite Nat.add_comm. reflexivity.
Qed.

Lemma chosen_unarmed_not_deposed (u : Uniter E) :
  chosen (ModeHookError_cases false) u ≠ Some LeaderDeposed.
Proof.
  intros Hc. apply chosen_enabled, enabled_spec in Hc as [[Hin _] _]. simpl in Hin.
  repeat (apply elem_of_cons in Hin as [Hin|Hin]; [discriminate|]).
  apply elem_of_nil in Hin. exact Hin.
Qed.

End HookErrorResign.

Ltac resigned_state :=
  repeat first
    [ eassumption
    | lazymatch goal with
      | |- resigned _ _ (setOutside _ _) => apply resigned_setOutside
      | |- resigned (S _) _ (logCall (CallRunOperation newResignLeadershipOp) _) =>
          apply resigned_resign
      | |- resigned _ _ (logCall _ _) => apply resigned_logCall; [reflexivity|]
      | |- resigned 0 ?u ?u => apply resigned_refl
      end ].

Section HookErrorResignTheorem.
Context {E : Type} `{Collaborators E}.

(** X7.  While a hook error is pending, leadership is resigned at most
    once: whatever arrives and however long the mode stays, a call of
    ModeHookError runs at most one resign-leadership operation. *)
Theorem ModeHookError_resigns_at_most_once (fuel : nat) (u : Uniter E) :
  (resignations (callsSince u (ModeHookError fuel u).2) ≤ 1)%nat.
Proof.
  pose (Q := λ (_ : Result ModeResult) (u' : Uniter E), resigned 0 u u' ∨ resigned 1 u u').
  assert (Hwp : wp (ModeHookError fuel) Q u).
  { unfold ModeHookError, Q.
    wp_go; try (left; solve [resigned_state]).
    all: eapply wp_mono;
      [|apply (wp_forLoop (ModeHookError_body _ _ _)
                 (λ (ld : bool) u', resigned 0 u u' ∨ (ld = false ∧ resigned 1 u u')) Q);
        [ intros ? ? [?|[_ ?]]; [left|right]; assumption
        |
        | left; resigned_state ]].
    all: try (intros r ? [?|?]; destruct r; wp_go;
              first [left; solve [resigned_state] | right; solve [resigned_state]]).
    all: intros ld ? [Hz|[-> Ho]]; unfold ModeHookError_body, Q; wp_go;
      try match goal with
          | Hc : chosen (ModeHookError_cases false) _ = Some LeaderDeposed |- _ =>
              exfalso; exact (chosen_unarmed_not_deposed _ Hc)
          end;
      first [ left; solve [resigned_state]
            | right; solve [resigned_state]
            | right; split; [reflexivity|]; solve [resigned_state] ]. }
  destruct Hwp as [(l & Hl & Hn)|(l & Hl & Hn)];
    rewrite (callsSince_app u _ l Hl), Hn; lia.
Qed.

End HookErrorResignTheorem.

(** Leadership is lost while the install hook awaits resolution: one
    resign operation runs; the wait is then disarmed, so the second loss
    that could still be received is not, and the cancellation is. *)
Example ModeHookError_resigns_once :
  operations (calls (ModeHookError 4 hook_error_deposed_input).2) = [newResignLeadershipOp]
  ∧ received (calls (ModeHookError 4 hook_error_deposed_input).2)
    = [LeaderDeposed; TombDying].
Proof. vm_compute. split; reflexivity. Qed.

(** ** Entering ModeHookError *)

Section HookErrorEntry.
Context {E : Type} `{Collaborators E}.

(** X8.  ModeHookError checks the state before anything else: on a state
    that is not RunHook+Pending it returns the fatal insane-state error
    and makes no call; on a RunHook+Pending state that records no hook it
    panics, having made no call. *)
Theorem ModeHookError_precondition (fuel : nat) (u : Uniter E) :
  let st := ext_operationState (outside u) in
  (operation.Kind_ st ≠ operation.RunHook ∨ operation.Step_ st ≠ operation.Pending →
   ModeHookError fuel u
   = (Returned (None, Some (errAnnotated
                  (errors.Errorf "insane uniter state: %#v" [ArgState st]) "ModeHookError")),
      u))
  ∧ (operation.Kind_ st = operation.RunHook → operation.Step_ st = operation.Pending →
     operation.Hook st = None → ModeHookError fuel u = (Panicked, u)).
Proof.
  intros st. split.
  - intros Hn.
    unfold ModeHookError, modeContext, u_operationState, extGet, bind. cbn [fst snd]. fold st.
    destruct (decide (operation.Kind_ st ≠ operation.RunHook
                      ∨ operation.Step_ st ≠ operation.Pending)); [reflexivity|contradiction].
  - intros Hk Hs Hh.
    unfold ModeHookError, modeContext, u_operationState, extGet, bind. cbn [fst snd]. fold st.
    destruct (decide (operation.Kind_ st ≠ operation.RunHook
                      ∨ operation.Step_ st ≠ operation.Pending)) as [[Hn|Hn]|_];
      [congruence..|].
    rewrite Hh. reflexivity.
Qed.

(** X9.  The status of a failed relation hook.  On a RunHook+Pending
    state whose hook is a relation hook: if the relation's name cannot be
    found, ModeHookError returns that error, traced, and makes no call;
    otherwise, for a hook name [relation-kind] made of bytes below 0x7f,
    the first call it makes sets the error status with the message
    [hook failed: ] followed by that name as %q renders it, and the
    status data hold
    that name under [hook], the relation id under [relation-id], and the
    remote unit under [remote-unit] exactly when it is not empty. *)
Theorem ModeHookError_relation_status (fuel : nat) (u : Uniter E) (hookInfo : hook.Info) :
  let st := ext_operationState (outside u) in
  let named := ext_relations_Name (hook.RelationId hookInfo) (outside u) in
  let hookName := String.append named.1 (String.append "-" (hook.Kind hookInfo)) in
  operation.Kind_ st = operation.RunHook →
  operation.Step_ st = operation.Pending →
  operation.Hook st = Some hookInfo →
  hooks.IsRelation (hook.Kind hookInfo) = true →
  match named.2 with
  | Some e =>
      ModeHookError fuel u
      = (Returned (None, Some (errAnnotated (errors.Trace e) "ModeHookError")), u)
  | None =>
      quotable hookName = true →
      ∃ data rest,
        calls (ModeHookError (S fuel) u).2
        = calls u ++ CallSetAgentStatus params.StatusError (hookFailedMessage hookName) data
                     :: rest
        ∧ data !! "hook" = Some (VString hookName)
        ∧ data !! "relation-id" = Some (VInt (hook.RelationId hookInfo))
        ∧ data !! "remote-unit"
          = (if decide (hook.RemoteUnit hookInfo = "") then None
             else Some (VString (hook.RemoteUnit hookInfo)))
  end.
Proof.
  intros st named hookName Hk Hs Hh Hrel.
  destruct named as [relationName [e|]] eqn:Hname; cbn [fst snd] in *.
  - unfold ModeHookError, modeContext, u_operationState, u_relations_Name, extGet, bind.
    cbn [ret deref fst snd]. fold st.
    destruct (decide (operation.Kind_ st ≠ operation.RunHook
                      ∨ operation.Step_ st ≠ operation.Pending)) as [[Hn|Hn]|_];
      [congruence..|].
    rewrite Hh. cbn [ret deref]. rewrite Hrel. subst named. rewrite Hname. reflexivity.
  - intros _. exists (relationHookData hookInfo hookName).
    rewrite (ModeHookError_enters_loop_relation (S fuel) u hookInfo relationName Hk Hs Hh Hrel
               Hname).
    rewrite modeContext_state.
    destruct (ModeHookError_pass_sets_status hookInfo (hookFailedMessage hookName)
                (relationHookData hookInfo hookName)
                (leaderElection u && operation.Leader st) fuel
                (setOutside
                   (if leaderElection u && operation.Leader st
                    then ext_WaitMinion_Ready
                           (ext_WantUpgradeEvent true (ext_WantResolvedEvent (outside u)))
                    else ext_WantUpgradeEvent true (ext_WantResolvedEvent (outside u))) u))
      as [rest Hrest].
    exists rest. split; [exact Hrest|].
    unfold relationHookData.
    destruct (decide (hook.RemoteUnit hookInfo ≠ "")) as [Hr|Hr];
      destruct (decide (hook.RemoteUnit hookInfo = "")) as [Hr'|Hr']; try contradiction;
      repeat split; simplify_map_eq; reflexivity.
Qed.

End HookErrorEntry.

Lemma ModeHookError_precondition_witness :
  ModeHookError 3 queued_input
  = (Returned (None, Some (errAnnotated
                 (errors.Errorf "insane uniter state: %#v"
                    [ArgState (ext_operationState (outside queued_input))]) "ModeHookError")),
     queued_input).
Proof.
  pose proof (ModeHookError_precondition 3 queued_input) as W. cbv zeta in W.
  destruct W as [W _]. apply W. right. discriminate.
Defined.

Lemma ModeHookError_relation_status_witness :
  ∃ data rest,
    calls (ModeHookError 2 relation_failed_input).2
    = calls relation_failed_input
      ++ CallSetAgentStatus params.StatusError (hookFailedMessage "db-relation-changed") data
         :: rest
    ∧ data !! "hook" = Some (VString "db-relation-changed")
    ∧ data !! "relation-id" = Some (VInt 3)
    ∧ data !! "remote-unit" = Some (VString "mysql/0").
Proof.
  pose proof (ModeHookError_relation_status 1 relation_failed_input relation_changed_db) as W.
  cbv zeta in W. apply W; reflexivity.
Defined.

(** ** ModeAbide before the unit has started *)

Section CallsAll.
Context {E : Type} `{Collaborators E}.

Lemma callsAll_refl (P : Call → bool) (u : Uniter E) : callsAll P u u.
Proof. exists []. rewrite app_nil_r. split; [reflexivity|constructor]. Qed.

Lemma callsAll_setOutside (P : Call → bool) (u0 u : Uniter E) e :
  callsAll P u0 u → callsAll P u0 (setOutside e u).
Proof. exact id. Qed.

Lemma callsAll_logCall (P : Call → bool) (u0 u : Uniter E) c :
  P c = true → callsAll P u0 u → callsAll P u0 (logCall c u).
Proof.
  intros Hc (l & Hl & Hall). exists (l ++ [c]). simpl. rewrite Hl, app_assoc.
  split; [reflexivity|]. apply Forall_app. split; [exact Hall|].
  constructor; [exact Hc|constructor].
Qed.

Lemma callsAll_want (P : Call → bool) (u0 u : Uniter E) b :
  P (CallWantLeaderSettingsEvents b) = true → callsAll P u0 u →
  callsAll P u0 (logCall (CallWantLeaderSettingsEvents b)
                   (mkUniter (leaderElection u) b (outside u) (calls u))).
Proof.
  intros Hc (l & Hl & Hall). exists (l ++ [CallWantLeaderSettingsEvents b]). simpl.
  rewrite Hl, app_assoc. split; [reflexivity|]. apply Forall_app. split; [exact Hall|].
  constructor; [exact Hc|constructor].
Qed.

End CallsAll.

Ltac calls_state :=
  repeat first
    [ eassumption
    | lazymatch goal with
      | |- callsAll _ ?u ?u => apply callsAll_refl
      | |- callsAll _ _ (setOutside _ _) => apply callsAll_setOutside
      | |- callsAll _ _ (logCall (CallWantLeaderSettingsEvents _) (mkUniter _ _ _ _)) =>
          apply callsAll_want; [reflexivity|]
      | |- callsAll _ _ (logCall _ _) => apply callsAll_logCall; [reflexivity|]
      end ].

Section BeforeStart.
Context {E : Type} `{Collaborators E}.

(** X10.  A unit that has not started is never marked active and never
    waits for events.  On a state whose Started flag is false, ModeAbide
    returns whatever the bound on its loops; the only calls it makes
    settle the leader-settings subscription and run hooks of its own
    choosing (no status is set, nothing is received); and the only mode
    it can hand over to is ModeContinue. *)
Theorem ModeAbide_before_start (fuel : nat) (u : Uniter E) :
  operation.Started (ext_operationState (outside u)) = false →
  (∃ next err, (ModeAbide fuel u).1 = Returned (next, err)
               ∧ (next = None ∨ next = Some mContinue))
  ∧ Forall (λ c, startupCall c = true) (callsSince u (ModeAbide fuel u).2).
Proof.
  intros Hst.
  pose (Q := λ (r : Result ModeResult) (u' : Uniter E),
          (∃ next err, r = Returned (next, err) ∧ (next = None ∨ next = Some mContinue))
          ∧ callsAll startupCall u u').
  assert (Hwp : wp (ModeAbide fuel) Q u).
  { unfold ModeAbide, Q.
    wp_go;
      try match goal with
          | Hx : negb (operation.Started _) = false |- _ =>
              rewrite Hst in Hx; discriminate Hx
          end;
      (split; [do 2 eexists; split; [reflexivity|]; first [left; reflexivity|right; reflexivity]
              |solve [calls_state]]). }
  destruct Hwp as [Hret (l & Hl & Hall)]. split; [exact Hret|].
  rewrite (callsSince_app u _ l Hl). exact Hall.
Qed.

End BeforeStart.

Lemma ModeAbide_before_start_witness :
  (∃ next err, (ModeAbide 0 not_started_input).1 = Returned (next, err)
               ∧ (next = None ∨ next = Some mContinue))
  ∧ Forall (λ c, startupCall c = true)
      (callsSince not_started_input (ModeAbide 0 not_started_input).2).
Proof. exact (ModeAbide_before_start 0 not_started_input eq_refl). Defined.

(** On that input ModeAbide runs the start hook and hands over to
    ModeContinue; the config change that could be received is left for
    later. *)
Example ModeAbide_runs_start :
  ModeAbide 0 not_started_input
  = (Returned (Some mContinue, None),
     afterOperation (newSimpleRunHookOp hooks.Start)
       (logCall (CallWantLeaderSettingsEvents false) not_started_input)).
Proof. vm_compute. reflexivity. Qed.

(** ** A dying unit *)

Section DyingPhase.
Context {E : Type} `{Collaborators E}.

Lemma alivePhase_refl (u : Uniter E) : alivePhase u u.
Proof. exists []. rewrite app_nil_r. split; [reflexivity|apply not_elem_of_nil]. Qed.

Lemma alivePhase_setOutside (u0 u : Uniter E) e :
  alivePhase u0 u → alivePhase u0 (setOutside e u).
Proof. exact id. Qed.

Lemma alivePhase_want (u0 u : Uniter E) b :
  alivePhase u0 u →
  alivePhase u0 (logCall (CallWantLeaderSettingsEvents b)
                   (mkUniter (leaderElection u) b (outside u) (calls u))).
Proof.
  intros (l & Hl & Hno). exists (l ++ [CallWantLeaderSettingsEvents b]). simpl.
  rewrite Hl, app_assoc. split; [reflexivity|].
  rewrite received_app. simpl. rewrite app_nil_r. exact Hno.
Qed.

Lemma alivePhase_logCall (u0 u : Uniter E) c :
  c ≠ CallReceive UnitDying → alivePhase u0 u → alivePhase u0 (logCall c u).
Proof.
  intros Hc (l & Hl & Hno). exists (l ++ [c]). simpl. rewrite Hl, app_assoc.
  split; [reflexivity|]. rewrite received_app. intros Hin.
  apply elem_of_app in Hin as [Hin|Hin]; [contradiction|].
  destruct c; simpl in Hin; try (apply elem_of_nil in Hin; contradiction).
  apply list_elem_of_singleton in Hin. subst ev. contradiction.
Qed.

Lemma dyingPhase_begins (u0 u : Uniter E) :
  alivePhase u0 u → dyingPhase u0 (logCall (CallReceive UnitDying) u).
Proof.
  intros (l & Hl & Hno). exists l, []. simpl. rewrite Hl, <- app_assoc.
  split; [reflexivity|]. split; [exact Hno|constructor].
Qed.

Lemma dyingPhase_setOutside (u0 u : Uniter E) e :
  dyingPhase u0 u → dyingPhase u0 (setOutside e u).
Proof. exact id. Qed.

Lemma dyingPhase_logCall (u0 u : Uniter E) c :
  dyingCall c = true → dyingPhase u0 u → dyingPhase u0 (logCall c u).
Proof.
  intros Hc (l1 & l2 & Hl & Hno & Hall). exists l1, (l2 ++ [c]). simpl. rewrite Hl.
  split; [rewrite <- !app_assoc; reflexivity|]. split; [exact Hno|].
  apply Forall_app. split; [exact Hall|]. constructor; [exact Hc|constructor].
Qed.

End DyingPhase.

Ltac phase_state :=
  repeat first
    [ eassumption
    | lazymatch goal with
      | |- alivePhase ?u ?u => apply alivePhase_refl
      | |- alivePhase _ (setOutside _ _) => apply alivePhase_setOutside
      | |- alivePhase _ (logCall (CallWantLeaderSettingsEvents _) (mkUniter _ _ _ _)) =>
          apply alivePhase_want
      | |- alivePhase _ (logCall _ _) => apply alivePhase_logCall; [discriminate|]
      | |- dyingPhase _ (setOutside _ _) => apply dyingPhase_setOutside
      | |- dyingPhase _ (logCall (CallReceive UnitDying) _) => apply dyingPhase_begins
      | |- dyingPhase _ (logCall _ _) => apply dyingPhase_logCall; [reflexivity|]
      end ].

(** The select cannot have received this event: its channel is not among
    the cases. *)
Ltac chosen_absurd :=
  match goal with
  | Hc : chosen ?cs ?x = Some ?ev |- _ =>
      exfalso;
      let Hin := fresh "Hin" in
      apply chosen_enabled, enabled_spec in Hc as [[Hin _] _];
      simpl in Hin;
      repeat (apply elem_of_cons in Hin as [Hin|Hin]; [discriminate|]);
      apply elem_of_nil in Hin; exact Hin
  end.

Ltac phase_close :=
  first [ left; solve [phase_state] | right; solve [phase_state] ].

Section DyingPhaseModes.
Context {E : Type} `{Collaborators E}.

Lemma modeAbideDyingLoop_dyingPhase (u0 : Uniter E) (fuel : nat) (u : Uniter E) :
  dyingPhase u0 u → wp (modeAbideDyingLoop fuel) (λ _ u', dyingPhase u0 u') u.
Proof.
  intros Hu. unfold modeAbideDyingLoop.
  wp_go; try solve [phase_state].
  all: apply (wp_forLoop modeAbideDyingLoop_body (λ _ u', dyingPhase u0 u')
                (λ _ u', dyingPhase u0 u')); [auto| |phase_state].
  all: intros ? ? ?; unfold modeAbideDyingLoop_body; wp_go;
    first [solve [phase_state] | chosen_absurd].
Qed.

Lemma modeAbideAliveLoop_phases (u0 : Uniter E) (fuel : nat) (u : Uniter E) :
  alivePhase u0 u →
  wp (modeAbideAliveLoop fuel) (λ _ u', alivePhase u0 u' ∨ dyingPhase u0 u') u.
Proof.
  intros Hu. unfold modeAbideAliveLoop.
  apply (wp_forLoop (modeAbideAliveLoop_body fuel) (λ _ u', alivePhase u0 u')
           (λ _ u', alivePhase u0 u' ∨ dyingPhase u0 u')); [intros; left; assumption| |exact Hu].
  intros ? ? ?. unfold modeAbideAliveLoop_body.
  wp_go; try solve [phase_state]; try phase_close.
  all: eapply wp_mono; [|apply (modeAbideDyingLoop_dyingPhase u0); phase_state].
  all: intros r ? ?; destruct r; wp_go; phase_close.
Qed.

(** X11.  Dying is final.  Once ModeAbide has received the unit-dying
    notification it receives it no more, and every call it makes from
    then on is one a dying unit makes: it receives only the
    cancellation, actions, config changes, leader-settings changes and
    relation hooks, and runs only their operations, the resignation and
    the stop hook; it starts no upgrade, updates no relations or storage,
    accepts no leadership and sets no status. *)
Theorem ModeAbide_dying_is_final (fuel : nat) (u : Uniter E) :
  let since := callsSince u (ModeAbide fuel u).2 in
  UnitDying ∈ received since →
  ∃ l1 l2, since = l1 ++ CallReceive UnitDying :: l2
           ∧ (UnitDying ∉ received l1)
           ∧ Forall (λ c, dyingCall c = true) l2.
Proof.
  intros since Hin.
  assert (Hwp : wp (ModeAbide fuel) (λ _ u', alivePhase u u' ∨ dyingPhase u u') u).
  { unfold ModeAbide.
    wp_go; try chosen_var; try phase_close.
    all: eapply wp_mono;
      [|first [ apply (modeAbideDyingLoop_dyingPhase u); solve [phase_state]
              | apply (modeAbideAliveLoop_phases u); solve [phase_state] ]].
    all: intros r ? Hr; try (destruct Hr as [Hr|Hr]); destruct r; wp_go; phase_close. }
  destruct Hwp as [(l & Hl & Hno)|(l1 & l2 & Hl & Hno & Hall)].
  - exfalso. apply Hno. subst since. rewrite (callsSince_app u _ l Hl) in Hin. exact Hin.
  - exists l1, l2. subst since. rewrite (callsSince_app u _ _ Hl). auto.
Qed.

End DyingPhaseModes.

Lemma ModeAbide_dying_is_final_witness :
  ∃ l1 l2, callsSince abide_then_dying_input (ModeAbide 4 abide_then_dying_input).2
           = l1 ++ CallReceive UnitDying :: l2
           ∧ (UnitDying ∉ received l1)
           ∧ Forall (λ c, dyingCall c = true) l2.
Proof.
  apply (ModeAbide_dying_is_final 4 abide_then_dying_input).
  vm_compute. right. left.
Defined.

(** On that input: the config change is handled, the unit is marked
    dying, the pending upgrade request is never received, the relation is
    broken, the stop hook runs and the mode hands over to ModeContinue. *)
Example ModeAbide_dies :
  (ModeAbide 4 abide_then_dying_input).1 = Returned (Some mContinue, None)
  ∧ received (calls (ModeAbide 4 abide_then_dying_input).2)
    = [ConfigEvent; UnitDying; RelationHook relation_broken_db]
  ∧ operations (calls (ModeAbide 4 abide_then_dying_input).2)
    = [newSimpleRunHookOp hooks.ConfigChanged; newRunHookOp relation_broken_db;
       newSimpleRunHookOp hooks.Stop].
Proof. vm_compute. repeat split; reflexivity. Qed.

(** ** The alive loop serves one event at a time *)

Section AliveTrace.
Context {E : Type} `{Collaborators E}.

Lemma served_app (l1 l2 : list Call) :
  served l1 = true → served l2 = true → served (l1 ++ l2) = true.
Proof.
  revert l1. refine (fix IH (l1 : list Call) {struct l1} := _).
  intros H1 H2. destruct l1 as [|c [|c' l1]]; simpl in *; try exact H2;
    destruct c; try discriminate H1.
  destruct c'; try discriminate H1.
  apply andb_prop in H1 as [Hop Hl]. apply andb_true_intro.
  split; [exact Hop|]. apply IH; assumption.
Qed.

Lemma servedSince_refl (u : Uniter E) : servedSince u u.
Proof. exists []. rewrite app_nil_r. split; reflexivity. Qed.

Lemma servedSince_setOutside (u0 u : Uniter E) e :
  servedSince u0 u → servedSince u0 (setOutside e u).
Proof. exact id. Qed.

Lemma servedSince_pair (u0 u : Uniter E) e ev op :
  aliveOperation ev = Some op → servedSince u0 u →
  servedSince u0 (logCall (CallRunOperation op) (logCall (CallReceive ev) (setOutside e u))).
Proof.
  intros Hop (l & Hl & Hs). exists (l ++ [CallReceive ev; CallRunOperation op]). simpl.
  rewrite Hl, <- !app_assoc. split; [reflexivity|].
  apply served_app; [exact Hs|]. simpl. rewrite Hop, bool_decide_eq_true_2 by reflexivity.
  reflexivity.
Qed.

Lemma aliveTrace_served (u0 u : Uniter E) : servedSince u0 u → aliveTrace u0 u.
Proof.
  intros (l & Hl & Hs). exists l, []. rewrite app_nil_r.
  split; [exact Hl|]. split; [exact Hs|]. left. reflexivity.
Qed.

Lemma aliveTrace_tail (u0 u : Uniter E) (tail : list Call) (u' : Uniter E) :
  servedSince u0 u → calls u' = calls u ++ tail → aliveTail tail → aliveTrace u0 u'.
Proof.
  intros (l & Hl & Hs) Hu' Ht. exists l, tail. rewrite Hu', Hl, <- app_assoc.
  split; [reflexivity|]. split; assumption.
Qed.

Lemma aliveTrace_setOutside (u0 u : Uniter E) e :
  aliveTrace u0 u → aliveTrace u0 (setOutside e u).
Proof. exact id. Qed.

(** The calls of the dying loop are added to those made before it. *)
Lemma modeAbideDyingLoop_grows (fuel : nat) (u : Uniter E) :
  ∃ rest, calls (modeAbideDyingLoop fuel u).2 = calls u ++ rest.
Proof.
  assert (Hwp : wp (modeAbideDyingLoop fuel) (λ _ u', callsAll (λ _, true) u u') u).
  { unfold modeAbideDyingLoop. wp_go; try solve [calls_state].
    all: apply (wp_forLoop modeAbideDyingLoop_body (λ _ u', callsAll (λ _, true) u u')
                  (λ _ u', callsAll (λ _, true) u u')); [auto| |calls_state].
    all: intros ? ? ?; unfold modeAbideDyingLoop_body; wp_go; solve [calls_state]. }
  destruct Hwp as (l & Hl & _). exists l. exact Hl.
Qed.

End AliveTrace.

Ltac served_state :=
  repeat first
    [ eassumption
    | lazymatch goal with
      | |- servedSince ?u ?u => apply servedSince_refl
      | |- servedSince _ (logCall (CallRunOperation _) (logCall (CallReceive _) (setOutside _ _))) =>
          apply servedSince_pair; [reflexivity|]
      | |- servedSince _ (setOutside _ _) => apply servedSince_setOutside
      | |- aliveTrace _ (setOutside _ _) => apply aliveTrace_setOutside
      end ].

Section AliveTraceTheorem.
Context {E : Type} `{Collaborators E}.

(** X12.  The alive loop serves one event at a time.  The calls of a run
    of the alive loop are a sequence of pairs, the receipt of an event
    and then the run of the one operation for that event, so that as many
    operations are run as events are served and each comes right after
    its event; after the pairs come nothing more, or the receipt of the
    cancellation or of an upgrade request, for which no operation is run,
    or the receipt of the unit-dying notification and the calls of the
    dying loop. *)
Theorem modeAbideAliveLoop_serves_events (fuel : nat) (u : Uniter E) :
  ∃ l tail, callsSince u (modeAbideAliveLoop fuel u).2 = l ++ tail
            ∧ served l = true
            ∧ aliveTail tail.
Proof.
  assert (Hwp : wp (modeAbideAliveLoop fuel) (λ _ u', aliveTrace u u') u).
  { unfold modeAbideAliveLoop.
    apply (wp_forLoop (modeAbideAliveLoop_body fuel) (λ _ u', servedSince u u')
             (λ _ u', aliveTrace u u'));
      [intros ? ? ?; apply aliveTrace_served; assumption| |apply servedSince_refl].
    intros [[] []] u1 Hs; unfold modeAbideAliveLoop_body.
    all: wp_go.
    all: try solve [served_state].
    all: try solve [apply aliveTrace_served; served_state].
    all: try chosen_absurd.
    all: try (eapply (aliveTrace_tail u);
              [ solve [served_state]
              | cbn [calls logCall setOutside]; reflexivity
              | first [ right; left; reflexivity
                      | right; right; left; eexists; reflexivity ] ]).
    all: match goal with
         | |- wp (modeAbideDyingLoop ?f) _ ?x =>
             destruct (modeAbideDyingLoop_grows f x) as [rest Hrest];
             unfold wp; destruct (modeAbideDyingLoop f x) as [r u2]; cbn [fst snd] in *;
             assert (Ht : aliveTrace u u2)
               by (eapply (aliveTrace_tail u _ (CallReceive UnitDying :: rest));
                   [ solve [served_state]
                   | rewrite Hrest; cbn [calls logCall setOutside];
                     rewrite <- app_assoc; reflexivity
                   | right; right; right; eexists; reflexivity ]);
             destruct r; cbn [wpBind]; wp_go; exact Ht
         end. }
  destruct Hwp as (l & tail & Hl & Hs & Ht). exists l, tail.
  rewrite (callsSince_app u _ _ Hl). auto.
Qed.

End AliveTraceTheorem.

(** On a busy steady state: three events are served, each followed by
    its operation, and the upgrade request ends the loop. *)
Example modeAbideAliveLoop_busy :
  calls (modeAbideAliveLoop 5 abide_busy_input).2
  = [CallReceive (RelationsEvent [1%Z]); CallRunOperation (newUpdateRelationsOp [1%Z]);
     CallReceive (ActionEvent "42"); CallRunOperation (newActionOp "42");
     CallReceive LeaderDeposed; CallRunOperation newResignLeadershipOp;
     CallReceive (UpgradeEvent cs_foo_4)]
  ∧ (modeAbideAliveLoop 5 abide_busy_input).1 = Returned (Some (mUpgrading cs_foo_4), None).
Proof. vm_compute. split; reflexivity. Qed.

(** ** Resignation of a dying unit; what ModeTerminating and ModeContinue
    call *)

Section CallsAllBase.
Context {E : Type} `{Collaborators E}.

Lemma callsAll_base (P : Call → bool) (u0 u : Uniter E) :
  calls u = calls u0 → callsAll P u0 u.
Proof. intros Hc. exists []. rewrite app_nil_r. split; [exact Hc|constructor]. Qed.

End CallsAllBase.

Section DyingResign.
Context {E : Type} `{Collaborators E}.


End DyingResign.

(** A dying leader with no relation left resigns, then runs the stop
    hook. *)
Example modeAbideDyingLoop_leader :
  operations (calls (modeAbideDyingLoop 1 dying_leader_input).2)
  = [newResignLeadershipOp; newSimpleRunHookOp hooks.Stop]
  ∧ (modeAbideDyingLoop 1 dying_leader_input).1 = Returned (Some mContinue, None).
Proof. vm_compute. split; reflexivity. Qed.

Section TerminatingCalls.
Context {E : Type} `{Collaborators E}.

(** X14.  ModeTerminating runs no hook.  The first call of a run of
    ModeTerminating sets the stopping status, once; after it the mode
    only receives the cancellation, actions and changes of the unit, and
    the only operations it runs are actions. *)
Theorem ModeTerminating_only_runs_actions (fuel : nat) (u : Uniter E) :
  ∃ rest, callsSince u (ModeTerminating fuel u).2
          = CallSetAgentStatus params.StatusStopping "" ∅ :: rest
          ∧ Forall (λ c, terminatingCall c = true) rest.
Proof.
  pose (U1 := logCall (CallSetAgentStatus params.StatusStopping "" ∅) u).
  assert (Hwp : wp (ModeTerminating fuel) (λ _ u', callsAll terminatingCall U1 u') u).
  { unfold ModeTerminating.
    wp_step. wp_step. wp_step. wp_step. wp_step.
    assert (Hbase : callsAll terminatingCall U1
                      (setOutside e' (logCall (CallSetAgentStatus params.StatusStopping "" ∅) u)))
      by (apply callsAll_base; reflexivity).
    revert Hbase.
    generalize (setOutside e' (logCall (CallSetAgentStatus params.StatusStopping "" ∅) u)).
    intros u1 Hbase.
    destruct err; wp_go; try solve [calls_state].
    eapply wp_mono;
      [|apply (wp_forLoop ModeTerminating_body (λ _ u', callsAll terminatingCall U1 u')
                 (λ _ u', callsAll terminatingCall U1 u')); [auto| |calls_state]].
    - intros r ? ?. destruct r; wp_go; solve [calls_state].
    - intros ? ? ?. unfold ModeTerminating_body. wp_go;
        first [solve [calls_state] | chosen_absurd]. }
  destruct Hwp as (l & Hl & Hall). exists l. split; [|exact Hall].
  apply callsSince_app. rewrite Hl. subst U1. simpl. rewrite <- app_assoc. reflexivity.
Qed.

(** X15.  ModeContinue is a dispatcher: it never waits.  A run of
    ModeContinue returns or panics on a nil hook, it is never left
    waiting in a select; the only calls it makes are runs of operations,
    at most two of them, of which at most the first is a leadership
    operation. *)
Theorem ModeContinue_only_dispatches (u : Uniter E) :
  let since := callsSince u (ModeContinue u).2 in
  (ModeContinue u).1 ≠ Blocked
  ∧ (ModeContinue u).1 ≠ OutOfFuel
  ∧ Forall (λ c, isRunOperation c = true) since
  ∧ (length since ≤ 2)%nat
  ∧ Forall (λ c, noLeadershipCall c = true) (tail since).
Proof.
  intros since.
  pose (Q := λ (r : Result ModeResult) (u' : Uniter E),
          r ≠ Blocked ∧ r ≠ OutOfFuel
          ∧ ∃ l, calls u' = calls u ++ l
                 ∧ Forall (λ c, isRunOperation c = true) l
                 ∧ (length l ≤ 2)%nat
                 ∧ Forall (λ c, noLeadershipCall c = true) (tail l)).
  assert (Hwp : wp ModeContinue Q u).
  { unfold ModeContinue, Q.
    wp_go; (split; [discriminate|]; split; [discriminate|]); cbn [calls logCall setOutside].
    all: first
      [ exists []; rewrite app_nil_r; split; [reflexivity|];
        split; [constructor|]; split; [simpl; lia|constructor]
      | eexists [_]; split; [reflexivity|];
        split; [repeat constructor|]; split; [simpl; lia|constructor]
      | eexists [_; _]; split; [rewrite <- app_assoc; reflexivity|];
        split; [repeat constructor|]; split; [simpl; lia|repeat constructor] ]. }
  destruct Hwp as (Hb & Hf & l & Hl & Hops & Hlen & Htl). subst since.
  rewrite (callsSince_app u _ l Hl). auto.
Qed.

End TerminatingCalls.

(** ** What ModeHookError runs; the first leader-settings hook *)

Ltac calls_state' :=
  repeat first
    [ eassumption
    | solve [apply callsAll_base; reflexivity]
    | lazymatch goal with
      | |- callsAll _ _ (setOutside _ _) => apply callsAll_setOutside
      | |- callsAll _ _ (logCall (CallWantLeaderSettingsEvents _) (mkUniter _ _ _ _)) =>
          apply callsAll_want; [reflexivity|]
      | |- callsAll _ _ (logCall _ _) =>
          apply callsAll_logCall;
          [first [reflexivity | apply bool_decide_eq_true_2; set_solver]|]
      end ].

Section HookErrorCalls.
Context {E : Type} `{Collaborators E}.

(** X16.  While a hook error is pending nothing else is run.  On a state
    that records the failed hook, the only operations a run of
    ModeHookError runs are the retry of that hook, the skip of that hook,
    and a resignation of leadership. *)
Theorem ModeHookError_runs_only_resolutions (fuel : nat) (u : Uniter E)
    (hookInfo : hook.Info) :
  operation.Hook (ext_operationState (outside u)) = Some hookInfo →
  Forall (λ op, op ∈ [newRetryHookOp hookInfo; newSkipHookOp hookInfo; newResignLeadershipOp])
    (operations (callsSince u (ModeHookError fuel u).2)).
Proof.
  intros Hh.
  assert (Hwp : wp (ModeHookError fuel) (λ _ u', callsAll (hookErrorCall hookInfo) u u') u).
  { unfold ModeHookError.
    wp_go;
      try match goal with
          | Hx : operation.Hook _ = _ |- _ =>
              rewrite Hh in Hx;
              first [ discriminate Hx
                    | match type of Hx with
                      | Some _ = Some ?a => injection Hx as Hx; subst a
                      end ]
          end;
      try solve [calls_state'].
    all: eapply wp_mono;
      [|apply (wp_forLoop (ModeHookError_body _ _ _)
                 (λ _ u', callsAll (hookErrorCall hookInfo) u u')
                 (λ _ u', callsAll (hookErrorCall hookInfo) u u'));
        [auto| |solve [calls_state']]].
    all: try (intros r ? ?; destruct r; wp_go; solve [calls_state']).
    all: intros ? ? ?; unfold ModeHookError_body; wp_go; solve [calls_state']. }
  destruct Hwp as (l & Hl & Hall). rewrite (callsSince_app u _ l Hl).
  apply Forall_operations. eapply Forall_impl; [exact Hall|].
  intros [op| | |] Hc; try exact I. simpl in Hc. apply bool_decide_eq_true_1 in Hc. exact Hc.
Qed.

Lemma modeAbideDyingLoop_any (u0 : Uniter E) (fuel : nat) (u : Uniter E) :
  callsAll anyCall u0 u → wp (modeAbideDyingLoop fuel) (λ _ u', callsAll anyCall u0 u') u.
Proof.
  intros Hu. unfold modeAbideDyingLoop. wp_go; try solve [calls_state'].
  all: apply (wp_forLoop modeAbideDyingLoop_body (λ _ u', callsAll anyCall u0 u')
                (λ _ u', callsAll anyCall u0 u')); [auto| |solve [calls_state']].
  all: intros ? ? ?; unfold modeAbideDyingLoop_body; wp_go; solve [calls_state'].
Qed.

Lemma modeAbideAliveLoop_any (u0 : Uniter E) (fuel : nat) (u : Uniter E) :
  callsAll anyCall u0 u → wp (modeAbideAliveLoop fuel) (λ _ u', callsAll anyCall u0 u') u.
Proof.
  intros Hu. unfold modeAbideAliveLoop.
  apply (wp_forLoop (modeAbideAliveLoop_body fuel) (λ _ u', callsAll anyCall u0 u')
           (λ _ u', callsAll anyCall u0 u')); [auto| |exact Hu].
  intros ? ? ?. unfold modeAbideAliveLoop_body. wp_go; try solve [calls_state'].
  all: eapply wp_mono; [|apply (modeAbideDyingLoop_any u0); solve [calls_state']].
  all: intros r ? ?; destruct r; wp_go; solve [calls_state'].
Qed.

(** X17.  ModeAbide asks for leader-settings events before it runs the
    first leader-settings-changed hook.  With the LeaderElection flag on,
    on a Kind=Continue state of a unit that does not lead and has not run
    the leader-settings-changed hook, once the deployment is fixed the
    first two calls of ModeAbide are the subscription to leader-settings
    events and then the run of the leader-settings-changed hook, before
    the config-changed or the start hook and before anything is
    received. *)
Theorem ModeAbide_leader_settings_first (fuel : nat) (u : Uniter E) (e1 : E) :
  let st := ext_operationState (outside u) in
  leaderElection u = true →
  operation.Kind_ st = operation.Continue →
  operation.Leader st = false →
  ext_Fix (outside u) = (None, e1) →
  ext_ranLeaderSettingsChanged e1 = false →
  ∃ rest, callsSince u (ModeAbide fuel u).2
          = CallWantLeaderSettingsEvents true
            :: CallRunOperation (newSimpleRunHookOp "leader-settings-changed") :: rest.
Proof.
  intros st Hf Hk Hl HFix Hran.
  pose (U2 := logCall (CallRunOperation (newSimpleRunHookOp "leader-settings-changed"))
                (logCall (CallWantLeaderSettingsEvents true) u)).
  assert (Hwp : wp (ModeAbide fuel) (λ _ u', callsAll anyCall U2 u') u).
  { unfold ModeAbide.
    wp_go;
      try match goal with
          | Hx : ext_Fix (outside u) = (_, ?e') |- _ =>
              rewrite HFix in Hx;
              first [discriminate Hx | injection Hx as Hx; subst e']
          end;
      try contradiction;
      try match goal with
          | Hon : leaderElection _ = false |- _ =>
              cbn [leaderElection setOutside] in Hon; congruence
          end;
      try match goal with
          | Hx : negb (operation.Leader _) && negb _ = false |- _ =>
              exfalso; fold st in Hx; rewrite Hl in Hx;
              cbn [negb andb outside logCall setOutside] in Hx;
              rewrite Hran in Hx; discriminate Hx
          end;
      try (fold st; rewrite Hl; cbn [negb]).
    all: try chosen_var.
    all: try solve [calls_state'].
    all: lazymatch goal with
         | |- wp (modeAbideDyingLoop _) _ _ =>
             eapply wp_mono; [|apply (modeAbideDyingLoop_any U2); solve [calls_state']]
         | |- wp (modeAbideAliveLoop _) _ _ =>
             eapply wp_mono; [|apply (modeAbideAliveLoop_any U2); solve [calls_state']]
         end.
    all: intros r ? Hr; destruct r; wp_go; solve [calls_state']. }
  destruct Hwp as (l & Hl' & _). exists l.
  apply callsSince_app. rewrite Hl'. subst U2. simpl. rewrite <- !app_assoc. reflexivity.
Qed.

End HookErrorCalls.

Lemma ModeHookError_runs_only_resolutions_witness :
  Forall (λ op, op ∈ [newRetryHookOp hook_install; newSkipHookOp hook_install;
                      newResignLeadershipOp])
    (operations (callsSince install_failed_input (ModeHookError 5 install_failed_input).2)).
Proof.
  exact (ModeHookError_runs_only_resolutions 5 install_failed_input hook_install eq_refl).
Defined.

Lemma ModeAbide_leader_settings_first_witness :
  ∃ rest, callsSince abide_minion_input (ModeAbide 2 abide_minion_input).2
          = CallWantLeaderSettingsEvents true
            :: CallRunOperation (newSimpleRunHookOp "leader-settings-changed") :: rest.
Proof.
  pose proof (ModeAbide_leader_settings_first 2 abide_minion_input (outside abide_minion_input))
    as W.
  cbv zeta in W. apply W; reflexivity.
Defined.
